(** * Question-bank export pipeline (app.py): a shallow embedding

    The development follows the order of the source file: the values the
    program manipulates (decoded JSON, text), the built-ins it relies on
    ([bool], [or], [dict.get], [int], [str], [str.strip]), then the
    functions of app.py themselves, each under its own name.

    Third-party collaborators (the JSON decoder, the HTML parser, the HTTP
    client, [urljoin], [html.unescape], the document writer's reading of
    a picture) are section variables: the theorems hold for whatever
    they compute.  The few concrete stand-ins
    that follow the definitions only serve to run the functions on
    explicit inputs. *)

From Stdlib Require Import ZArith List String Ascii Bool Lia DecimalString.
From Stdlib Require Import Permutation.
From Stdlib Require Import Floats.SpecFloat.
Import ListNotations.

Local Open Scope string_scope.
Local Open Scope Z_scope.

Set Warnings "-register-all".

(* ================================================================== *)
(** * Text *)
(* ================================================================== *)

(** A [str] is a Rocq [string], one character per code point; this covers
    the code points below 256. *)

Definition code (c : ascii) : Z := Z.of_N (N_of_ascii c).

(** [str.isspace] on one character, which is also what [\s] matches in a
    text pattern: TAB..CR, FS..US, space, NEL and the no-break space. *)
Definition isspace (c : ascii) : bool :=
  let n := code c in
  ((9 <=? n) && (n <=? 13)) || ((28 <=? n) && (n <=? 32))
  || (n =? 133) || (n =? 160).

Fixpoint lstrip (s : string) : string :=
  match s with
  | EmptyString => EmptyString
  | String c s' => if isspace c then lstrip s' else s
  end.

Fixpoint rstrip (s : string) : string :=
  match s with
  | EmptyString => EmptyString
  | String c s' =>
      match rstrip s' with
      | EmptyString => if isspace c then EmptyString else String c EmptyString
      | r => String c r
      end
  end.

(** [s.strip()] *)
Definition strip (s : string) : string := rstrip (lstrip s).

(** [re.sub(r'\s+', ' ', s)]: [in_run] records that the previous character
    belonged to a run that has already been replaced. *)
Fixpoint sub_spaces (in_run : bool) (s : string) : string :=
  match s with
  | EmptyString => EmptyString
  | String c s' =>
      if isspace c
      then if in_run then sub_spaces true s'
           else String " " (sub_spaces true s')
      else String c (sub_spaces false s')
  end.

(** [sep.join(l)] *)
Fixpoint join (sep : string) (l : list string) : string :=
  match l with
  | [] => ""
  | [x] => x
  | x :: t => x ++ sep ++ join sep t
  end.

(** [p] is a prefix of [s]. *)
Fixpoint is_prefix (p s : string) : bool :=
  match p, s with
  | EmptyString, _ => true
  | String a p', String b s' => Ascii.eqb a b && is_prefix p' s'
  | String _ _, EmptyString => false
  end.

(** [s.startswith(p)] *)
Definition startswith (s p : string) : bool := is_prefix p s.

(** [s[n:]] *)
Fixpoint drop (n : nat) (s : string) : string :=
  match n, s with
  | O, _ => s
  | S n', String _ s' => drop n' s'
  | S _, EmptyString => EmptyString
  end.

(** [s.replace(old, new)] for a non-empty [old]: occurrences are replaced
    left to right and do not overlap.  [skip] counts the characters of
    the occurrence just replaced that are still to be passed over. *)
Fixpoint replace_skipping (skip : nat) (old new s : string) : string :=
  match s with
  | EmptyString => EmptyString
  | String c s' =>
      match skip with
      | S k => replace_skipping k old new s'
      | O =>
          if is_prefix old s
          then new ++ replace_skipping (String.length old - 1) old new s'
          else String c (replace_skipping O old new s')
      end
  end.

Definition replace (s old new : string) : string :=
  replace_skipping O old new s.

(* ================================================================== *)
(** * Values and exceptions *)
(* ================================================================== *)

(** What [json.loads] builds.  An object keeps its members in insertion
    order; a float is an IEEE 754 datum. *)
Inductive json : Type :=
| JNull
| JBool (b : bool)
| JInt (z : Z)
| JFloat (f : spec_float)
| JStr (s : string)
| JArr (l : list json)
| JObj (members : list (string * json)).

Inductive exn_kind : Type :=
| TypeError
| ValueError
| OverflowError
| AttributeError
| RuntimeError
| FileNotFoundError
| HTTPError
| ConnectionError
| UnrecognizedImageError
| JSONDecodeError (msg doc : string) (pos : Z).

(** A raised exception with its [__context__] chain, nearest first. *)
Record exn : Type := Exn { exn_is : exn_kind; exn_context : list exn_kind }.

Definition result (A : Type) : Type := (exn + A)%type.

Definition Ok {A} (a : A) : result A := inr a.
Definition raise {A} (k : exn_kind) : result A := inl (Exn k []).

Definition bind {A B} (c : result A) (f : A -> result B) : result B :=
  match c with
  | inl e => inl e
  | inr a => f a
  end.

Notation "x <- c ;; k" := (bind c (fun x => k))
  (at level 61, c at next level, right associativity).
Notation "' p <- c ;; k" := (bind c (fun x => let 'p := x in k))
  (at level 61, p pattern, c at next level, right associativity).

(** An exception raised while [e] is being handled has [e] at the end of
    its context chain. *)
Definition during (e : exn) (e' : exn) : exn :=
  Exn (exn_is e') (exn_context e' ++ exn_is e :: exn_context e).

(** [try: c  except Exception: h] *)
Definition try_except {A} (c : result A) (h : result A) : result A :=
  match c with
  | inr a => inr a
  | inl e =>
      match h with
      | inr a => inr a
      | inl e' => inl (during e e')
      end
  end.

(* ------------------------------------------------------------------ *)
(** ** Built-ins *)

(** [bool(v)] *)
Definition truthy (v : json) : bool :=
  match v with
  | JNull => false
  | JBool b => b
  | JInt z => negb (z =? 0)
  | JFloat (S754_zero _) => false
  | JFloat _ => true
  | JStr s => negb (s =? "")%string
  | JArr l => match l with [] => false | _ => true end
  | JObj m => match m with [] => false | _ => true end
  end.

(** [a or b] *)
Definition py_or (a b : json) : json := if truthy a then a else b.

(** Lookup in a dict: the first member with that key. *)
Fixpoint lookup {A} (m : list (string * A)) (k : string) : option A :=
  match m with
  | [] => None
  | (k', v) :: m' => if (k' =? k)%string then Some v else lookup m' k
  end.

(** [v.get(k, default)]; only a dict has the method. *)
Definition get_or (v : json) (k : string) (default : json) : result json :=
  match v with
  | JObj m => Ok (match lookup m k with Some x => x | None => default end)
  | _ => raise AttributeError
  end.

(** [v.get(k)] *)
Definition get (v : json) (k : string) : result json := get_or v k JNull.

(** [d.values()]: one value per key, in insertion order. *)
Fixpoint values_from (seen : list string) (m : list (string * json))
  : list json :=
  match m with
  | [] => []
  | (k, v) :: m' =>
      if existsb (String.eqb k) seen then values_from seen m'
      else v :: values_from (k :: seen) m'
  end.

Fixpoint keys_from (seen : list string) (m : list (string * json))
  : list string :=
  match m with
  | [] => []
  | (k, _) :: m' =>
      if existsb (String.eqb k) seen then keys_from seen m'
      else k :: keys_from (k :: seen) m'
  end.

Definition py_values (v : json) : result (list json) :=
  match v with
  | JObj m => Ok (values_from [] m)
  | _ => raise AttributeError
  end.

Fixpoint chars (s : string) : list json :=
  match s with
  | EmptyString => []
  | String c s' => JStr (String c EmptyString) :: chars s'
  end.

(** [for x in v]: the items the loop visits. *)
Definition py_iter (v : json) : result (list json) :=
  match v with
  | JArr l => Ok l
  | JStr s => Ok (chars s)
  | JObj m => Ok (map JStr (keys_from [] m))
  | _ => raise TypeError
  end.

(* ------------------------------------------------------------------ *)
(** ** [int] *)

Definition is_digit (c : ascii) : bool := (48 <=? code c) && (code c <=? 57).

(** The blanks [int] skips around a numeral: the C-locale blanks and the
    blanks outside ASCII. *)
Definition int_blank (c : ascii) : bool :=
  let n := code c in
  ((9 <=? n) && (n <=? 13)) || (n =? 32) || (n =? 133) || (n =? 160).

Fixpoint int_lstrip (l : list ascii) : list ascii :=
  match l with
  | c :: t => if int_blank c then int_lstrip t else l
  | [] => []
  end.

Definition int_strip (l : list ascii) : list ascii :=
  rev (int_lstrip (rev (int_lstrip l))).

(** Digits with single underscores between them; the value read so far is
    [acc] and [n] digits have been seen. *)
Fixpoint scan_digits (after_us : bool) (acc : Z) (n : nat) (l : list ascii)
  : option (Z * nat) :=
  match l with
  | [] => if after_us then None else Some (acc, n)
  | c :: t =>
      if is_digit c then scan_digits false (acc * 10 + (code c - 48)) (S n) t
      else if Ascii.eqb c "_" then
             if after_us then None else scan_digits true acc n t
      else None
  end.

Section Int.

(** [sys.get_int_max_str_digits()]; 0 means no limit (the interpreter
    accepts 0 or a limit of at least 640). *)
Variable int_max_str_digits : nat.

Definition numeral (l : list ascii) : option Z :=
  match l with
  | c :: _ =>
      if is_digit c then
        match scan_digits false 0 O l with
        | Some (v, n) =>
            if negb (Nat.eqb int_max_str_digits 0)
               && Nat.ltb int_max_str_digits n
            then None else Some v
        | None => None
        end
      else None
  | [] => None
  end.

(** [int(s)] for a [str], base ten. *)
Definition int_of_str (s : string) : result Z :=
  let r :=
    match int_strip (list_ascii_of_string s) with
    | c :: t =>
        if Ascii.eqb c "-" then option_map Z.opp (numeral t)
        else if Ascii.eqb c "+" then numeral t
        else numeral (c :: t)
    | [] => None
    end in
  match r with
  | Some z => Ok z
  | None => raise ValueError
  end.

(** [int(f)] for a float: truncation toward zero. *)
Definition int_of_float (f : spec_float) : result Z :=
  match f with
  | S754_zero _ => Ok 0
  | S754_infinity _ => raise OverflowError
  | S754_nan => raise ValueError
  | S754_finite s m e =>
      let a := Z.shiftl (Z.pos m) e in
      Ok (if s then - a else a)
  end.

(** [int(v)] *)
Definition py_int (v : json) : result Z :=
  match v with
  | JBool b => Ok (if b then 1 else 0)
  | JInt z => Ok z
  | JFloat f => int_of_float f
  | JStr s => int_of_str s
  | JNull | JArr _ | JObj _ => raise TypeError
  end.

End Int.

(** [str(z)] for an [int] *)
Definition str_of_int (z : Z) : string := NilZero.string_of_int (Z.to_int z).

(* ================================================================== *)
(** * The parsed markup (bs4) *)
(* ================================================================== *)

(** The tree [BeautifulSoup(s, 'html.parser')] hands back: text that
    counts as page text, other character data (comments, declarations,
    script and style bodies) and tags with their attributes. *)
Inductive node : Type :=
| NText (s : string)
| NOther (s : string)
| NTag (name : string) (attrs : list (string * string)) (children : list node).

Definition soup : Type := list node.

(** The strings [get_text] walks over, in document order. *)
Fixpoint all_strings (n : node) : list string :=
  match n with
  | NText s => [s]
  | NOther _ => []
  | NTag _ _ ch => flat_map all_strings ch
  end.

(** [soup.get_text(separator=sep, strip=True)]: every string is stripped
    and the empty ones are left out before joining. *)
Definition get_text (sep : string) (sp : soup) : string :=
  join sep
    (filter (fun s => negb (s =? "")%string)
       (map strip (flat_map all_strings sp))).

(** [soup.find_all(name)]: the tags of that name, in document order. *)
Fixpoint find_all_in (name : string) (n : node) : list node :=
  match n with
  | NTag nm _ ch =>
      ((if (nm =? name)%string then [n] else [])
         ++ flat_map (find_all_in name) ch)%list
  | _ => []
  end.

Definition find_all (name : string) (sp : soup) : list node :=
  flat_map (find_all_in name) sp.

(** [tag.get(attr)] *)
Definition tag_get (n : node) (attr : string) : option string :=
  match n with
  | NTag _ attrs _ => lookup attrs attr
  | _ => None
  end.

(* ================================================================== *)
(** * Question records *)
(* ================================================================== *)

(** One element of a record's ['options'] list. *)
Record option_entry : Type := OptionEntry {
  text : string;
  images : list string
}.

(** The dict [process_data] builds for each question.  The identifiers
    are passed through as decoded; [answer_index] is [None] when unset. *)
Record entry : Type := Entry {
  qid : json;
  section_id : json;
  section_name : json;
  topic_id : json;
  question_text : string;
  question_images : list string;
  options : list option_entry;
  answer_index : option Z;
  answer_text : string;
  solution_text : string;
  solution_images : list string
}.

(** A [for] loop whose body may raise: the state is threaded through the
    items and the first exception ends the loop. *)
Fixpoint for_each {A S} (l : list A) (s : S) (body : S -> A -> result S)
  : result S :=
  match l with
  | [] => Ok s
  | x :: t => s' <- body s x ;; for_each t s' body
  end.

Definition labels : list string := ["a"; "b"; "c"; "d"; "e"].

Definition len {A} (l : list A) : Z := Z.of_nat (List.length l).

(** [l[i]] for an index already known to be in range. *)
Definition item (l : list string) (i : Z) : string := nth (Z.to_nat i) l "".

Definition nonempty {A} (l : list A) : bool :=
  match l with [] => false | _ => true end.

Section Normalizer.

(** [BeautifulSoup(markup, 'html.parser')] on text. *)
Variable BeautifulSoup : string -> soup.

Variable int_max_str_digits : nat.

(** [str(v)] where it is the [repr] of a float, a list or a dict. *)
Variable py_repr : json -> string.

(** [str(v)] *)
Definition py_str (v : json) : string :=
  match v with
  | JStr s => s
  | JNull => "None"
  | JBool true => "True"
  | JBool false => "False"
  | JInt z => str_of_int z
  | _ => py_repr v
  end.

(** The image loop of [parse_html_field]. *)
Definition collect_src (images : list string) (img : node) : list string :=
  match tag_get img "src" with
  | Some src => if negb (src =? "")%string then (images ++ [src])%list
                else images
  | None => images
  end.

(** [parse_html_field(s)].  The parser takes text (or bytes, which a
    decoded payload never holds); any other markup makes it raise. *)
Definition parse_html_field (s : json) : result (string * list string) :=
  if negb (truthy s) then Ok ("", [])
  else
    match s with
    | JStr markup =>
        let sp := BeautifulSoup markup in
        let text := get_text " " sp in
        let text := strip (sub_spaces false text) in
        let images := fold_left collect_src (find_all "img" sp) [] in
        Ok (text, images)
    | _ => raise TypeError
    end.

(** The body of the option loop, [for i in range(1, 6)]. *)
Definition option_slot (lang : string) (q : json)
    (options : list option_entry) (i : Z) : result (list option_entry) :=
  let opt_field := "option_" ++ lang ++ "_" ++ str_of_int i in
  opt_html <- get q opt_field ;;
  if truthy opt_html then
    ' (opt_text, opt_images) <- parse_html_field opt_html ;;
    if negb (opt_text =? "")%string || nonempty opt_images
    then Ok (options ++ [OptionEntry opt_text opt_images])%list
    else Ok options
  else Ok options.

(** The fallback shared by the [else] branch and the [except] clause. *)
Definition answer_fallback (lang : string) (q ar : json)
  : result (option Z * string) :=
  a <- get q ("answer_" ++ lang) ;;
  let ahtml := py_or a ar in
  ' (ans_text, _) <- parse_html_field ahtml ;;
  Ok (None, ans_text).

(** The answer index and text of a question, given its options. *)
Definition resolve_answer (lang : string) (q : json)
    (options : list option_entry) : result (option Z * string) :=
  ar <- get q "answer_en" ;;
  if truthy ar then
    try_except
      (i0 <- py_int int_max_str_digits ar ;;
       if (1 <=? i0) && (i0 <=? len options) then
         let ans_idx := i0 - 1 in
         Ok (Some ans_idx,
             if ans_idx <? len labels then item labels ans_idx
             else str_of_int i0)
       else answer_fallback lang q ar)
      (answer_fallback lang q ar)
  else Ok (None, "").

(** The body of the innermost loop of [process_data]: one question
    object to one record. *)
Definition process_question (lang : string) (sec_id sec_name : json)
    (q : json) : result entry :=
  qid <- get q "qid" ;;
  topic_id <- get q "topic_id" ;;
  let question_field := "question_" ++ lang in
  qf <- get q question_field ;;
  let q_html := py_or qf (JStr "") in
  ' (question_text, question_images) <- parse_html_field q_html ;;
  options <- for_each [1; 2; 3; 4; 5] [] (option_slot lang q) ;;
  ' (ans_idx, ans_text) <- resolve_answer lang q options ;;
  let sol_field := "solution_" ++ lang in
  sf <- get q sol_field ;;
  let sol_html := py_or sf (JStr "") in
  ' (solution_text, solution_images) <- parse_html_field sol_html ;;
  Ok (Entry qid sec_id sec_name topic_id question_text question_images
        options ans_idx ans_text solution_text solution_images).

(** The body of the outer loop of [process_data]: one section entry. *)
Definition process_section (lang : string) (cleaned : list entry)
    (section_entry : json) : result (list entry) :=
  a <- get section_entry "section_id" ;;
  b <- get section_entry "sec_id" ;;
  let sec_id := py_or a b in
  c <- get section_entry "section_name" ;;
  d <- get section_entry "sec_name" ;;
  let sec_name := py_or (py_or c d) (JStr (py_str sec_id)) in
  all_questions <- get_or section_entry "all_questions" (JObj []) ;;
  q_lists <- py_values all_questions ;;
  for_each q_lists cleaned (fun cleaned q_list =>
    qs <- py_iter q_list ;;
    for_each qs cleaned (fun cleaned q =>
      e <- process_question lang sec_id sec_name q ;;
      Ok (cleaned ++ [e])%list)).

(** [process_data(raw_json, lang)] *)
Definition process_data (raw_json : json) (lang : string)
  : result (list entry) :=
  data <- get_or raw_json "data" (JArr []) ;;
  sections <- py_iter data ;;
  for_each sections [] (process_section lang).

End Normalizer.

(* ================================================================== *)
(** * Section groups *)
(* ================================================================== *)

(** The value stored under each key of the dict [group_by_section]
    returns. *)
Record section_group : Type := SectionGroup {
  name : json;
  questions : list entry
}.

(** Dict keys.  Python compares [True], [1] and [1.0] equal and hashes
    them alike, so a number is kept as sign, odd mantissa and binary
    exponent; two values are the same key exactly when their [dict_key]s
    are equal.  The decoder has a single NaN object, which is the same
    key as itself. *)
Inductive dict_key : Type :=
| KNone
| KZero
| KNum (negative : bool) (mantissa : positive) (exponent : Z)
| KInf (negative : bool)
| KNan
| KStr (s : string).

(** [p = m * 2^k] with [m] odd. *)
Fixpoint odd_part (p : positive) : positive * Z :=
  match p with
  | xO p' => let '(m, k) := odd_part p' in (m, k + 1)
  | _ => (p, 0)
  end.

Definition key_of_int (z : Z) : dict_key :=
  match z with
  | Z0 => KZero
  | Zpos p => let '(m, k) := odd_part p in KNum false m k
  | Zneg p => let '(m, k) := odd_part p in KNum true m k
  end.

Definition key_of_float (f : spec_float) : dict_key :=
  match f with
  | S754_zero _ => KZero
  | S754_infinity s => KInf s
  | S754_nan => KNan
  | S754_finite s m e => let '(m', k) := odd_part m in KNum s m' (e + k)
  end.

(** [hash(v)]: a list or a dict is unhashable. *)
Definition key_of (v : json) : result dict_key :=
  match v with
  | JNull => Ok KNone
  | JBool b => Ok (key_of_int (if b then 1 else 0))
  | JInt z => Ok (key_of_int z)
  | JFloat f => Ok (key_of_float f)
  | JStr s => Ok (KStr s)
  | JArr _ | JObj _ => raise TypeError
  end.

Definition dict_key_eqb (a b : dict_key) : bool :=
  match a, b with
  | KNone, KNone | KZero, KZero | KNan, KNan => true
  | KNum s m e, KNum s' m' e' =>
      Bool.eqb s s' && Pos.eqb m m' && Z.eqb e e'
  | KInf s, KInf s' => Bool.eqb s s'
  | KStr s, KStr s' => String.eqb s s'
  | _, _ => false
  end.

(** The dict under construction: the key as first inserted, its hashed
    form and the group, in insertion order. *)
Definition sections_dict : Type := list (json * dict_key * section_group).

(** [sid in sections] *)
Definition has_key (sections : sections_dict) (k : dict_key) : bool :=
  existsb (fun '(_, k', _) => dict_key_eqb k' k) sections.

(** [sections[sid]['questions'].append(entry)] *)
Fixpoint append_question (sections : sections_dict) (k : dict_key)
    (e : entry) : sections_dict :=
  match sections with
  | [] => []
  | (sid, k', g) :: rest =>
      if dict_key_eqb k' k
      then (sid, k', SectionGroup (name g) (questions g ++ [e])) :: rest
      else (sid, k', g) :: append_question rest k e
  end.

Section Grouper.

Variable py_repr : json -> string.

(** The body of the loop of [group_by_section]. *)
Definition group_entry (sections : sections_dict) (e : entry)
  : result sections_dict :=
  let sid := py_or (section_id e) (JStr "") in
  let sname := py_or (section_name e) (JStr (py_str py_repr sid)) in
  k <- key_of sid ;;
  let sections :=
    if negb (has_key sections k)
    then (sections ++ [(sid, k, SectionGroup sname [])])%list
    else sections in
  Ok (append_question sections k e).

(** [group_by_section(cleaned)] *)
Definition group_by_section (cleaned : list entry) : result sections_dict :=
  for_each cleaned [] group_entry.

End Grouper.

(* ================================================================== *)
(** * The document writer (python-docx) *)
(* ================================================================== *)

(** A document is the sequence of paragraphs the writer has been asked
    to hold.  Text is stored as it is given.  A picture is read before it
    is stored: the writer raises on bytes it cannot read as an image
    ([UnrecognizedImageError] and the like), which is what [load_image]
    stands for wherever a picture is added. *)

Definition bytes : Type := list Byte.byte.

(** What a paragraph holds: text, an inline picture of a given width
    (in EMU), or a page break. *)
Inductive run : Type :=
| RunText (s : string)
| RunPicture (data : bytes) (width : Z)
| RunPageBreak.

Definition paragraph : Type := list run.

(** The body of a document; [Document()] starts with an empty one. *)
Definition document : Type := list paragraph.

Definition Document : document := [].

(** [Inches(n)] *)
Definition Inches (n : Z) : Z := n * 914400.

(** [doc.add_paragraph()]: the new paragraph is the last one; the handle
    returned is its position. *)
Definition add_paragraph (doc : document) : document * nat :=
  ((doc ++ [[]])%list, List.length doc).

(** [p.add_run(text)] on the paragraph with handle [p]. *)
Fixpoint add_run (doc : document) (p : nat) (r : run) : document :=
  match doc, p with
  | [], _ => []
  | par :: rest, O => (par ++ [r])%list :: rest
  | par :: rest, S p' => par :: add_run rest p' r
  end.

(** [doc.add_picture(stream, width=w)]: the stream is read first, which
    raises when it is no image the writer knows; the picture then gets a
    paragraph of its own. *)
Definition add_picture (load_image : bytes -> result unit) (doc : document)
    (data : bytes) (w : Z) : result document :=
  _ <- load_image data ;;
  Ok (let '(doc, p) := add_paragraph doc in add_run doc p (RunPicture data w)).

(** [doc.add_page_break()] *)
Definition add_page_break (doc : document) : document :=
  let '(doc, p) := add_paragraph doc in add_run doc p RunPageBreak.

(* ================================================================== *)
(** * HTTP (requests) *)
(* ================================================================== *)

(** What the program reads of a response: [resp.content], [resp.text]
    and what [resp.json()] returns or raises. *)
Record response : Type := Response {
  status_code : Z;
  content : bytes;
  resp_text : string;
  resp_json : result json
}.

(** [resp.raise_for_status()] *)
Definition raise_for_status (resp : response) : result unit :=
  if (400 <=? status_code resp) && (status_code resp <? 600)
  then raise HTTPError else Ok tt.

(** [for idx, x in enumerate(l)] *)
Fixpoint enumerate_from {A} (i : Z) (l : list A) : list (Z * A) :=
  match l with
  | [] => []
  | x :: t => (i, x) :: enumerate_from (i + 1) t
  end.

Definition enumerate {A} (l : list A) : list (Z * A) := enumerate_from 0 l.

(** The label of the option at position [idx]:
    [labels[idx] if idx < len(labels) else str(idx+1)]. *)
Definition option_label (idx : Z) : string :=
  if idx <? len labels then item labels idx else str_of_int (idx + 1).

Section Assembler.

(** Whether [import requests] and [from docx import Document]
    succeeded. *)
Variable requests : bool.
Variable docx : bool.

(** What python-docx makes of the bytes of a picture: it accepts them or
    raises. *)
Variable load_image : bytes -> result unit.

(** [requests.get(url, timeout=t)]; a connection error or a timeout is
    an exception. *)
Variable requests_get : string -> Z -> result response.

(** [urllib.parse.urljoin(base, url)] *)
Variable urljoin : string -> string -> string.

(** [fetch_image_bytes(img_url, base_url)]; [None] is [None]. *)
Definition fetch_image_bytes (img_url : string) (base_url : option string)
  : option bytes :=
  if (img_url =? "")%string then None
  else
    let img_url :=
      if startswith img_url "//" then "https:" ++ img_url
      else
        match base_url with
        | Some base =>
            if startswith img_url "/" && negb (base =? "")%string
            then urljoin base img_url
            else img_url
        | None => img_url
        end in
    if negb requests then None
    else
      match (resp <- requests_get img_url 15 ;;
             _ <- raise_for_status resp ;;
             Ok (content resp)) with
      | inr data => Some data
      | inl _ => None
      end.

(** The body of the three image loops of [create_docx]; the call of
    [add_picture] is in no [try] block. *)
Definition add_image (base_url : option string) (doc : document)
    (img_url : string) : result document :=
  match fetch_image_bytes img_url base_url with
  | Some img_data =>
      if nonempty img_data then add_picture load_image doc img_data (Inches 4)
      else Ok doc
  | None => Ok doc
  end.

Definition add_images (base_url : option string) (doc : document)
    (urls : list string) : result document :=
  for_each urls doc (add_image base_url).

(** The body of the option loop of [create_docx]. *)
Definition add_option (base_url : option string) (doc : document)
    (io : Z * option_entry) : result document :=
  let '(idx, opt) := io in
  let '(doc, p_opt) := add_paragraph doc in
  let label := option_label idx in
  let doc := add_run doc p_opt (RunText ("(" ++ label ++ ") " ++ text opt)) in
  add_images base_url doc (images opt).

(** The body of the record loop of [create_docx]. *)
Definition add_entry (base_url : option string) (doc : document)
    (e : entry) : result document :=
  let '(doc, p) := add_paragraph doc in
  let doc := add_run doc p (RunText ("[Q] " ++ question_text e)) in
  doc <- add_images base_url doc (question_images e) ;;
  doc <- for_each (enumerate (options e)) doc (add_option base_url) ;;
  let '(doc, p_ans) := add_paragraph doc in
  let doc := add_run doc p_ans (RunText ("[ANS] " ++ answer_text e)) in
  let '(doc, p_sol) := add_paragraph doc in
  let doc := add_run doc p_sol (RunText ("[SOL] " ++ solution_text e)) in
  doc <- add_images base_url doc (solution_images e) ;;
  Ok (add_page_break doc).

(** [create_docx(cleaned_entries, base_url)]: the document that is then
    saved to the buffer. *)
Definition create_docx (cleaned_entries : list entry)
    (base_url : option string) : result document :=
  if negb docx then raise RuntimeError
  else for_each cleaned_entries Document (add_entry base_url).

End Assembler.

(* ================================================================== *)
(** * Payload recovery *)
(* ================================================================== *)

Definition dquote : string := String "034"%char EmptyString.
Definition backslash : string := String "092"%char EmptyString.

(** Lower case of an ASCII letter, as IGNORECASE folds it. *)
Definition lower (c : ascii) : ascii :=
  if (65 <=? code c) && (code c <=? 90)
  then ascii_of_N (N_of_ascii c + 32) else c.

(** The literal [p] (given in lower case) matches at the start of [s],
    case ignored. *)
Fixpoint iprefix (p s : string) : bool :=
  match p, s with
  | EmptyString, _ => true
  | String a p', String b s' => Ascii.eqb a (lower b) && iprefix p' s'
  | String _ _, EmptyString => false
  end.

(** The rest of the opening tag: any characters but [>], then [>];
    what follows it is returned. *)
Fixpoint after_gt (s : string) : option string :=
  match s with
  | EmptyString => None
  | String c s' => if Ascii.eqb c ">" then Some s' else after_gt s'
  end.

(** The greedy group and the closing tag, with DOTALL: the group runs up
    to the last closing tag. *)
Fixpoint upto_last_close (s : string) : option string :=
  match s with
  | EmptyString => None
  | String c s' =>
      match upto_last_close s' with
      | Some g => Some (String c g)
      | None => if iprefix "</body>" s then Some EmptyString else None
      end
  end.

(** The pattern anchored at the start of [s]; the group when it
    matches. *)
Definition match_body_here (s : string) : option string :=
  if iprefix "<body" s then
    match after_gt (drop 5 s) with
    | Some rest => upto_last_close rest
    | None => None
    end
  else None.

(** [re.search] of the body pattern of [extract_json_from_html_wrapper]
    (an opening body tag, a greedy group, a closing body tag; flags DOTALL
    and IGNORECASE): group 1 of the leftmost match. *)
Fixpoint search_body (s : string) : option string :=
  match match_body_here s with
  | Some g => Some g
  | None =>
      match s with
      | EmptyString => None
      | String _ s' => search_body s'
      end
  end.

Definition QUESTION_API_PATTERN (series_id : string) : string :=
  "https://www.testranking.in/admin/api/questions-solutions-new/"
    ++ series_id ++ "/en".

Section Recovery.

(** [json.loads] and [html.unescape]. *)
Variable json_loads : string -> result json.
Variable html_unescape : string -> string.

Variable requests : bool.
Variable requests_get : string -> Z -> result response.

(** The module-level [INPUT_FILE] ([None] as shipped) and the file
    system: [os.path.exists] and [open(path).read()]. *)
Variable INPUT_FILE : option string.
Variable os_path_exists : string -> bool.
Variable open_read : string -> result string.

(** [extract_json_from_html_wrapper(html_content)] *)
Definition extract_json_from_html_wrapper (html_content : string)
  : result json :=
  let inner :=
    match search_body html_content with
    | Some g => strip g
    | None => strip html_content
    end in
  let inner := html_unescape inner in
  try_except (json_loads inner)
    (let fixed := replace inner (backslash ++ dquote) dquote in
     json_loads fixed).

(** [fetch_json_from_url(url)] *)
Definition fetch_json_from_url (url : string) : result json :=
  if (url =? "")%string then raise ValueError
  else if negb requests then raise RuntimeError
  else
    resp <- requests_get url 300 ;;
    _ <- raise_for_status resp ;;
    try_except (resp_json resp)
      (extract_json_from_html_wrapper (resp_text resp)).

(** A value that is neither [None] nor the empty string. *)
Definition nonblank (o : option string) : bool :=
  match o with
  | Some s => negb (s =? "")%string
  | None => false
  end.

(** [fetch_raw_json(series_id)] *)
Definition fetch_raw_json (series_id : option string) : result json :=
  if nonblank INPUT_FILE then
    let path := match INPUT_FILE with Some p => p | None => "" end in
    if negb (os_path_exists path) then raise FileNotFoundError
    else
      content <- open_read path ;;
      try_except (json_loads content)
        (extract_json_from_html_wrapper content)
  else
    if negb (nonblank series_id) then raise ValueError
    else
      let url :=
        QUESTION_API_PATTERN
          (match series_id with Some s => s | None => "" end) in
      fetch_json_from_url url.

End Recovery.

(* ================================================================== *)
(** * Vocabulary of the properties *)
(* ================================================================== *)

(** ** Field Extractor *)

(** Every blank of [s] is a single space that follows no blank; [prev]
    tells whether a blank precedes [s]. *)
Fixpoint single_spaced (prev : bool) (s : string) : bool :=
  match s with
  | EmptyString => true
  | String c s' =>
      if isspace c
      then Ascii.eqb c " " && negb prev && single_spaced true s'
      else single_spaced false s'
  end.

(** The [src] an [img] tag contributes: none when the attribute is
    missing or empty. *)
Definition img_src (img : node) : list string :=
  match tag_get img "src" with
  | Some src => if (src =? "")%string then [] else [src]
  | None => []
  end.

Definition sample_markup : string := "<p>A &amp; B<img src='/x.png'></p>".

(** The tree of [sample_markup]: a paragraph holding the decoded text
    and the image. *)
Definition sample_soup : soup :=
  [NTag "p" [] [NText "A & B"; NTag "img" [("src", "/x.png")] []]].

(** ** Record Normalizer *)

(** [q.get('answer_en')] names a valid 1-based choice among [opts]: it
    converts to an integer [n] within range. *)
Definition valid_choice (max_digits : nat) (ar : json)
    (opts : list option_entry) (n : Z) : Prop :=
  py_int max_digits ar = Ok n /\ 1 <= n <= len opts.

(** The field of option slot [i]. *)
Definition option_field (lang : string) (i : Z) : string :=
  "option_" ++ lang ++ "_" ++ str_of_int i.

(** A resolved slot is kept when it has text or an image. *)
Definition populated (c : string * list string) : bool :=
  negb (fst c =? "")%string || nonempty (snd c).

Definition to_option (c : string * list string) : option_entry :=
  OptionEntry (fst c) (snd c).

(** [r] is the record the loop body of [process_data] builds from the
    question object [q]. *)
Definition produced_by (BeautifulSoup : string -> soup) (max_digits : nat)
    (lang : string) (q : json) (r : entry) : Prop :=
  exists sec_id sec_name,
    process_question BeautifulSoup max_digits lang sec_id sec_name q = Ok r.

(** The answer of [r] is resolved by index exactly when [ar], the decoded
    [answer_en], is a valid choice; the text is then the letter. *)
Definition answer_by_index (max_digits : nat) (ar : json) (r : entry) : Prop :=
  (forall idx,
      answer_index r = Some idx <->
      exists n, valid_choice max_digits ar (options r) n /\ idx = n - 1)
  /\ (forall idx,
        answer_index r = Some idx ->
        0 <= idx < len (options r)
        /\ answer_text r = item labels idx
        /\ In (answer_text r) labels).

(** Slot [i] of [q] resolves to [c] through the Field Extractor. *)
Definition slot_resolves (BeautifulSoup : string -> soup) (lang : string)
    (q : json) (i : Z) (c : string * list string) : Prop :=
  exists v, get q (option_field lang i) = Ok v
            /\ parse_html_field BeautifulSoup v = Ok c.


(** The reading under which every answer that is not a valid choice,
    a missing one included, goes through the fallback, and the raw value
    is used only when [answer_{lang}] is missing. *)
Definition fallback_for_every_non_choice : Prop :=
  forall BeautifulSoup max_digits lang sec_id sec_name q r ar a,
    process_question BeautifulSoup max_digits lang sec_id sec_name q = Ok r ->
    get q "answer_en" = Ok ar ->
    get q ("answer_" ++ lang) = Ok a ->
    (~ exists n, valid_choice max_digits ar (options r) n) ->
    answer_index r = None
    /\ exists imgs,
        parse_html_field BeautifulSoup
          (match a with JNull => ar | _ => a end) = Ok (answer_text r, imgs).

(** A field that holds text or is null (or missing). *)
Definition textual (v : json) : bool :=
  match v with
  | JNull | JStr _ => true
  | _ => false
  end.

(** ** Section Grouper *)

(** The key a record is filed under and the name its group gets when the
    record opens it. *)
Definition sid_of (e : entry) : json := py_or (section_id e) (JStr "").

Definition sname_of (py_repr : json -> string) (e : entry) : json :=
  py_or (section_name e) (JStr (py_str py_repr (sid_of e))).

Definition entry_key (e : entry) : dict_key :=
  match key_of (sid_of e) with
  | inr k => k
  | inl _ => KNone
  end.

Definition hashable (v : json) : bool :=
  match v with
  | JArr _ | JObj _ => false
  | _ => true
  end.

(** Keys in order of first appearance. *)
Fixpoint first_seen (l : list dict_key) : list dict_key :=
  match l with
  | [] => []
  | k :: t => k :: filter (fun k' => negb (dict_key_eqb k' k)) (first_seen t)
  end.

(** The records filed under [k], in input order. *)
Definition members_of (k : dict_key) (cleaned : list entry) : list entry :=
  filter (fun e => dict_key_eqb (entry_key e) k) cleaned.

(** The group of key [k]: keyed and named after its first record. *)
Definition group_of (py_repr : json -> string) (cleaned : list entry)
    (k : dict_key) : json * dict_key * section_group :=
  match members_of k cleaned with
  | e0 :: _ =>
      (sid_of e0, k, SectionGroup (sname_of py_repr e0) (members_of k cleaned))
  | [] => (JNull, k, SectionGroup JNull [])
  end.

(** Groups as the contract words them: one per key, in first-seen order,
    each with its records in input order. *)
Definition grouped (py_repr : json -> string) (cleaned : list entry)
  : sections_dict :=
  map (group_of py_repr cleaned) (first_seen (map entry_key cleaned)).

(** ** Document Assembler *)

Section AssemblerVocabulary.

Variable requests : bool.
Variable requests_get : string -> Z -> result response.
Variable urljoin : string -> string -> string.

(** The address an image reference stands for. *)
Definition resolve_reference (img_url : string) (base_url : option string)
  : string :=
  if startswith img_url "//" then "https:" ++ img_url
  else if startswith img_url "/" then
    match base_url with
    | Some base => if (base =? "")%string then img_url
                   else urljoin base img_url
    | None => img_url
    end
  else img_url.

(** One GET with the image timeout; any failure gives [None]. *)
Definition download (url : string) : option bytes :=
  match requests_get url 15 with
  | inr resp =>
      if (400 <=? status_code resp) && (status_code resp <? 600)
      then None else Some (content resp)
  | inl _ => None
  end.

(** The bytes an image reference stands for: the body of the one request
    made for its address; nothing for an empty reference, without the
    HTTP client, or when the request fails or comes back with an error
    status. *)
Definition image_bytes (img_url : string) (base_url : option string)
  : option bytes :=
  if (img_url =? "")%string then None
  else if requests then download (resolve_reference img_url base_url)
       else None.

(** The picture paragraph of an image reference: none when it yields no
    bytes. *)
Definition picture_of (base_url : option string) (img_url : string)
  : document :=
  match image_bytes img_url base_url with
  | Some data =>
      if nonempty data then [[RunPicture data (Inches 4)]] else []
  | None => []
  end.

Definition pictures (base_url : option string) (urls : list string)
  : document :=
  flat_map (picture_of base_url) urls.

Fixpoint option_blocks (base_url : option string) (idx : Z)
    (opts : list option_entry) : document :=
  match opts with
  | [] => []
  | opt :: rest =>
      ([RunText ("(" ++ option_label idx ++ ") " ++ text opt)]
         :: pictures base_url (images opt)
         ++ option_blocks base_url (idx + 1) rest)%list
  end.

(** The blocks of one record, in the order of the contract. *)
Definition entry_blocks (base_url : option string) (e : entry) : document :=
  ([[RunText ("[Q] " ++ question_text e)]]
     ++ pictures base_url (question_images e)
     ++ option_blocks base_url 0 (options e)
     ++ [[RunText ("[ANS] " ++ answer_text e)]]
     ++ [[RunText ("[SOL] " ++ solution_text e)]]
     ++ pictures base_url (solution_images e)
     ++ [[RunPageBreak]])%list.

End AssemblerVocabulary.

Definition run_text (r : run) : list string :=
  match r with RunText s => [s] | _ => [] end.

Definition run_picture (r : run) : list bytes :=
  match r with RunPicture d _ => [d] | _ => [] end.

(** The text runs and the pictures of a document, in order. *)
Definition doc_texts (doc : document) : list string :=
  flat_map (flat_map run_text) doc.

Definition doc_pictures (doc : document) : list bytes :=
  flat_map (flat_map run_picture) doc.

Fixpoint option_texts (idx : Z) (opts : list option_entry) : list string :=
  match opts with
  | [] => []
  | opt :: rest =>
      ("(" ++ option_label idx ++ ") " ++ text opt)
        :: option_texts (idx + 1) rest
  end.

(** The text blocks of a record and the image references it holds. *)
Definition entry_texts (e : entry) : list string :=
  ([("[Q] " ++ question_text e)%string] ++ option_texts 0 (options e)
     ++ [("[ANS] " ++ answer_text e)%string;
         ("[SOL] " ++ solution_text e)%string])%list.

Definition entry_image_refs (e : entry) : list string :=
  (question_images e ++ flat_map images (options e) ++ solution_images e)%list.

(* ================================================================== *)
(** * Stand-ins for the collaborators *)
(* ================================================================== *)

(** Used only to run the program on explicit inputs: each agrees with the
    library it stands for on the inputs it is run on. *)

(** Markup without tags or entities is one text node; [sample_markup]
    has the tree [sample_soup]. *)
Definition toy_soup (markup : string) : soup :=
  if (markup =? sample_markup)%string then sample_soup else [NText markup].

Definition toy_repr (v : json) : string := "...".

(** An origin and an absolute path: the path replaces the (empty) path of
    the base. *)
Definition toy_urljoin (base url : string) : string := base ++ url.

Definition png : bytes := [Byte.x89; Byte.x50; Byte.x4e; Byte.x47].

(** A network with two images, one dead link and nothing else. *)
Definition toy_get (url : string) (timeout : Z) : result response :=
  if (url =? "https://cdn.example.com/x.png")%string
  then Ok (Response 200 png "" (raise ValueError))
  else if (url =? "https://host.com/img/x.png")%string
  then Ok (Response 200 png "" (raise ValueError))
  else if (url =? "https://host.com/gone.png")%string
  then Ok (Response 404 [] "Not Found" (raise ValueError))
  else raise ConnectionError.

(** A decoder for the documents [null], [true] and [false]; any other
    document is refused where it starts. *)
Definition toy_loads (doc : string) : result json :=
  if (doc =? "null")%string then Ok JNull
  else if (doc =? "true")%string then Ok (JBool true)
  else if (doc =? "false")%string then Ok (JBool false)
  else raise (JSONDecodeError "Expecting value" doc 0).

Definition toy_unescape (s : string) : string := s.

(** ** Sample inputs *)

Definition sample_question : json :=
  JObj [("qid", JInt 101); ("question_en", JStr "Pick one");
        ("option_en_1", JStr "red"); ("option_en_2", JStr "green");
        ("option_en_3", JStr "blue"); ("option_en_4", JStr "black");
        ("answer_en", JStr "2"); ("solution_en", JStr "It is green")].

Definition sample_payload : json :=
  JObj [("data",
         JArr [JObj [("section_id", JInt 1);
                     ("section_name", JStr "Colours");
                     ("all_questions",
                      JObj [("t1", JArr [sample_question])])]])].

Definition sample_record : entry :=
  Entry (JInt 101) (JInt 1) (JStr "Colours") JNull "Pick one" []
    [OptionEntry "red" []; OptionEntry "green" [];
     OptionEntry "blue" []; OptionEntry "black" []]
    (Some 1) "b" "It is green" [].



(** No [answer_en], but an [answer_hi]. *)
Definition unanswered_question : json := JObj [("answer_hi", JStr "x")].

Definition unanswered_record : entry :=
  Entry JNull JNull JNull JNull "" [] [] None "" "" [].

(** An answer in words. *)
Definition worded_question : json := JObj [("answer_en", JStr "see text")].

Definition worded_record : entry :=
  Entry JNull JNull JNull JNull "" [] [] None "see text" "" [].

(** A group after one more record has been filed under it. *)
Definition add_member (e : entry) (x : json * dict_key * section_group)
  : json * dict_key * section_group :=
  let '(sid, k, g) := x in
  (sid, k, SectionGroup (name g) (questions g ++ [e])%list).


(** The reading under which grouping has no failure mode at all. *)
Definition grouping_never_fails : Prop :=
  forall py_repr cleaned,
    exists groups, group_by_section py_repr cleaned = Ok groups.

(** A record whose section identifier is a list. *)
Definition list_keyed_record : entry :=
  Entry JNull (JArr [JInt 1]) JNull JNull "" [] [] None "" "" [].

(** Three records with section identifiers 1, 2 and 1. *)
Definition record_in (sid : Z) (question : string) : entry :=
  Entry JNull (JInt sid) JNull JNull question [] [] None "" "" [].

Definition three_records : list entry :=
  [record_in 1 "first"; record_in 2 "second"; record_in 1 "third"].





Section Fetched.

Variable requests : bool.
Variable requests_get : string -> Z -> result response.
Variable urljoin : string -> string -> string.

(** The bytes an image reference contributes to the document: none when
    the fetch fails or returns nothing. *)
Definition fetched (base_url : option string) (img_url : string)
  : list bytes :=
  match image_bytes requests requests_get urljoin img_url base_url with
  | Some data => if nonempty data then [data] else []
  | None => []
  end.

(** The pictures a list of records hands to the writer, in the order it
    meets them. *)
Definition embedded (base_url : option string) (cleaned : list entry)
  : list bytes :=
  flat_map (fetched base_url) (flat_map entry_image_refs cleaned).

End Fetched.

(** The writer reads pictures one after the other; the first it cannot
    read ends the run with its exception. *)
Definition load_all (load_image : bytes -> result unit) (l : list bytes)
  : result unit :=
  for_each l tt (fun _ d => load_image d).

(** [p] starts [l]. *)
Fixpoint bytes_prefix (p l : bytes) : bool :=
  match p, l with
  | [], _ => true
  | a :: p', b :: l' => Byte.eqb a b && bytes_prefix p' l'
  | _ :: _, [] => false
  end.

(** A writer that knows PNG, by its signature. *)
Definition toy_load_image (data : bytes) : result unit :=
  if bytes_prefix png data then Ok tt else raise UnrecognizedImageError.



(** ** Payload recovery *)

Fixpoint lower_string (s : string) : string :=
  match s with
  | EmptyString => EmptyString
  | String c s' => String (lower c) (lower_string s')
  end.

Fixpoint has_gt (s : string) : bool :=
  match s with
  | EmptyString => false
  | String c s' => Ascii.eqb c ">" || has_gt s'
  end.

(** [g] is the inside of a body element of [s]: an opening body tag in
    any letter case, with or without attributes, then [g], then a
    closing body tag in any letter case. *)
Definition body_match (s g : string) : Prop :=
  exists pre tag attrs close post,
    s = pre ++ tag ++ attrs ++ ">" ++ g ++ close ++ post
    /\ lower_string tag = "<body"
    /\ has_gt attrs = false
    /\ lower_string close = "</body>".

(** [g] is group 1 of the leftmost match of the body pattern in [s]: no
    match starts before the opening tag, and no closing tag starts after
    the one that ends the group. *)
Definition first_body_match (s g : string) : Prop :=
  exists pre tag attrs close post,
    s = pre ++ tag ++ attrs ++ ">" ++ g ++ close ++ post
    /\ lower_string tag = "<body"
    /\ has_gt attrs = false
    /\ lower_string close = "</body>"
    /\ (forall p1 p2,
          pre = p1 ++ p2 -> p2 <> "" ->
          match_body_here
            (p2 ++ tag ++ attrs ++ ">" ++ g ++ close ++ post) = None)
    /\ (forall q1 q2,
          close ++ post = q1 ++ q2 -> q1 <> "" ->
          iprefix "</body>" q2 = false).

(** The text the second and third strategies work on, before entities
    are decoded. *)
Definition body_region (content : string) : string :=
  strip (match search_body content with
         | Some g => g
         | None => content
         end).

Definition quotes_fixed (s : string) : string :=
  replace s (backslash ++ dquote) dquote.

(** The ordered strategies: the direct parse [first]; then the decoded
    body region; then the same with escaped quotes replaced.  When all
    three fail the last failure is raised, with the earlier ones as its
    context. *)
Definition recover (json_loads : string -> result json)
    (html_unescape : string -> string) (first : result json)
    (content : string) : result json :=
  match first with
  | inr v => Ok v
  | inl e1 =>
      let region := html_unescape (body_region content) in
      match json_loads region with
      | inr v => Ok v
      | inl e2 =>
          match json_loads (quotes_fixed region) with
          | inr v => Ok v
          | inl e3 =>
              inl (Exn (exn_is e3)
                     (exn_context e3 ++ exn_is e2 :: exn_context e2
                        ++ exn_is e1 :: exn_context e1)%list)
          end
      end
  end.

Definition newline : string := String "010"%char EmptyString.

(** [type(e).__name__] of an exception. *)
Definition class_name (k : exn_kind) : string :=
  match k with
  | TypeError => "TypeError"
  | ValueError => "ValueError"
  | OverflowError => "OverflowError"
  | AttributeError => "AttributeError"
  | RuntimeError => "RuntimeError"
  | FileNotFoundError => "FileNotFoundError"
  | HTTPError => "HTTPError"
  | ConnectionError => "ConnectionError"
  | UnrecognizedImageError => "UnrecognizedImageError"
  | JSONDecodeError _ _ _ => "JSONDecodeError"
  end.

(** The reading under which a payload that no strategy can parse ends
    in an error of the program's own, a [RecoveryError]. *)
Definition recovery_error_raised : Prop :=
  forall json_loads html_unescape content e2 e3,
    json_loads (html_unescape (body_region content)) = inl e2 ->
    json_loads (quotes_fixed (html_unescape (body_region content)))
      = inl e3 ->
    exists e,
      extract_json_from_html_wrapper json_loads html_unescape content = inl e
      /\ class_name (exn_is e) = "RecoveryError".

(** A page whose body, set off by line breaks, holds the document
    [null]. *)
Definition wrapped_payload : string :=
  "<html><BODY id='x'>" ++ newline ++ "null" ++ newline ++ "</Body></html>".

(* ================================================================== *)
(** * Further vocabulary *)
(* ================================================================== *)

(** ** The questions of a payload *)

(** The items a loop over the elements of [l] visits when each element
    is itself expanded by [f]; the first failure ends it. *)
Fixpoint collect {A B} (f : A -> result (list B)) (l : list A)
  : result (list B) :=
  match l with
  | [] => Ok []
  | x :: t => ys <- f x ;; zs <- collect f t ;; Ok (ys ++ zs)%list
  end.

Section Traversal.

Variable py_repr : json -> string.

(** The question objects of one section entry, in the order the loops of
    [process_data] reach them, each with the section identifier and name
    its record will carry. *)
Definition section_questions (section_entry : json)
  : result (list (json * json * json)) :=
  a <- get section_entry "section_id" ;;
  b <- get section_entry "sec_id" ;;
  let sec_id := py_or a b in
  c <- get section_entry "section_name" ;;
  d <- get section_entry "sec_name" ;;
  let sec_name := py_or (py_or c d) (JStr (py_str py_repr sec_id)) in
  all_questions <- get_or section_entry "all_questions" (JObj []) ;;
  q_lists <- py_values all_questions ;;
  qs <- collect py_iter q_lists ;;
  Ok (map (fun q => (sec_id, sec_name, q)) qs).

(** The question objects of a payload, section after section. *)
Definition payload_questions (raw_json : json)
  : result (list (json * json * json)) :=
  data <- get_or raw_json "data" (JArr []) ;;
  sections <- py_iter data ;;
  collect section_questions sections.

End Traversal.

(** [r] is the record of the question [t] comes with. *)
Definition record_of (BeautifulSoup : string -> soup) (max_digits : nat)
    (lang : string) (t : json * json * json) (r : entry) : Prop :=
  process_question BeautifulSoup max_digits lang
    (fst (fst t)) (snd (fst t)) (snd t) = Ok r.

(** The fields of a question object that go through the Field
    Extractor. *)
Definition html_fields (lang : string) : list string :=
  ("question_" ++ lang) :: "answer_en" :: ("answer_" ++ lang)
    :: ("solution_" ++ lang) :: map (option_field lang) [1; 2; 3; 4; 5].

(** A question object whose markup fields hold text or null, or are
    missing. *)
Definition textual_question (lang : string) (q : json) : Prop :=
  exists m, q = JObj m
            /\ forall k v, In k (html_fields lang) ->
                           lookup m k = Some v -> textual v = true.

(** Text as the Field Extractor leaves it: blanks are single spaces and
    none stands at either end. *)
Definition normalized (t : string) : Prop :=
  single_spaced false t = true /\ strip t = t.

Definition nonblank_refs (imgs : list string) : Prop :=
  Forall (fun u => u <> "") imgs.

(** What every record [process_data] builds satisfies: its texts are
    normalized, its image references are not blank, and every option it
    keeps has text or an image. *)
Definition clean_option (o : option_entry) : Prop :=
  normalized (text o) /\ nonblank_refs (images o)
  /\ (text o <> "" \/ images o <> []).

Definition clean_record (r : entry) : Prop :=
  normalized (question_text r) /\ nonblank_refs (question_images r)
  /\ normalized (solution_text r) /\ nonblank_refs (solution_images r)
  /\ normalized (answer_text r)
  /\ Forall clean_option (options r).

(** A question in two languages, with two options in each. *)
Definition bilingual_question : json :=
  JObj [("question_en", JStr "Which?"); ("question_hi", JStr "kaun?");
        ("option_en_1", JStr "this"); ("option_en_2", JStr "that");
        ("option_hi_1", JStr "yah"); ("option_hi_2", JStr "vah");
        ("answer_en", JStr "2")].

Definition bilingual_record_en : entry :=
  Entry JNull JNull JNull JNull "Which?" []
    [OptionEntry "this" []; OptionEntry "that" []] (Some 1) "b" "" [].

Definition bilingual_record_hi : entry :=
  Entry JNull JNull JNull JNull "kaun?" []
    [OptionEntry "yah" []; OptionEntry "vah" []] (Some 1) "b" "" [].

(** ** Groups as a partition *)

(** The keys of a grouping and all the records filed in it, group after
    group. *)
Definition group_keys (groups : sections_dict) : list dict_key :=
  map (fun x => snd (fst x)) groups.

Definition filed (groups : sections_dict) : list entry :=
  flat_map (fun x => questions (snd x)) groups.

(** A record whose section identifier is a dict. *)
Definition dict_keyed_record : entry :=
  Entry JNull (JObj [("id", JInt 1)]) JNull JNull "" [] [] None "" "" [].

(** ** Shape of a document *)

Definition run_break (r : run) : list unit :=
  match r with RunPageBreak => [tt] | _ => [] end.

(** The number of page breaks of a document. *)
Definition page_breaks (doc : document) : nat :=
  List.length (flat_map (flat_map run_break) doc).

(** Every paragraph holds exactly one run. *)
Definition one_run_each (doc : document) : Prop :=
  Forall (fun p : paragraph => List.length p = 1%nat) doc.

(** A record with an image on the question, on an option and on the
    solution. *)
Definition illustrated_record : entry :=
  Entry JNull JNull JNull JNull "one" ["//cdn.example.com/x.png"]
    [OptionEntry "yes" ["/img/x.png"]; OptionEntry "no" []] (Some 0) "a"
    "why" ["/img/x.png"].

(** ** Escaped payloads *)

(** A text in which every double quote has been given a backslash, the
    damage the last strategy of recovery undoes. *)
Fixpoint escape_quotes (s : string) : string :=
  match s with
  | EmptyString => EmptyString
  | String c s' =>
      if Ascii.eqb c "034"
      then String "092" (String "034" (escape_quotes s'))
      else String c (escape_quotes s')
  end.

(** A decoder that knows one document, the JSON string [a] in its
    quotes. *)
Definition quoted_document : string := dquote ++ "a" ++ dquote.

Definition toy_loads_quoted (doc : string) : result json :=
  if (doc =? quoted_document)%string then Ok (JStr "a")
  else raise (JSONDecodeError "Expecting value" doc 0).

(** A page that carries the document with its quotes escaped. *)
Definition escaped_page : string :=
  "<html><body> " ++ escape_quotes quoted_document ++ " </body></html>".



(* ================================================================== *)
(** * Routes (Flask) *)
(* ================================================================== *)

(** What a view function hands back to Flask: a body with a status code
    ([return body, status]), a rendered page, or a file sent as an
    attachment ([send_file(bio, as_attachment=True, ...)]).  An exception
    that leaves the view function is the error of the result. *)
Inductive flask_response : Type :=
| Plain (body : string) (status : Z)
| Page (html : string)
| Attachment (doc : document) (download_name mimetype : string).

Definition DOCX_MIMETYPE : string :=
  "application/vnd.openxmlformats-officedocument.wordprocessingml.document".

(** What the routes read of [urlparse(url)]. *)
Record parse_result : Type := ParseResult {
  scheme : string;
  netloc : string
}.

(** [sections.get(k)] *)
Definition sections_get (sections : sections_dict) (k : dict_key)
  : option section_group :=
  match find (fun '(_, k', _) => dict_key_eqb k' k) sections with
  | Some (_, _, g) => Some g
  | None => None
  end.

Section Routes.

Variable json_loads : string -> result json.
Variable html_unescape : string -> string.
Variable requests : bool.
Variable docx : bool.
Variable load_image : bytes -> result unit.
Variable requests_get : string -> Z -> result response.
Variable INPUT_FILE : option string.
Variable os_path_exists : string -> bool.
Variable open_read : string -> result string.
Variable BeautifulSoup : string -> soup.
Variable int_max_str_digits : nat.
Variable py_repr : json -> string.
Variable urljoin : string -> string -> string.

(** [urllib.parse.urlparse(url)] *)
Variable urlparse : string -> parse_result.

(** [str(e)] of an exception. *)
Variable exn_str : exn -> string.

(** [render_template_string] on the section template, with the section,
    the series identifier and the questions, and on the base template,
    with a title and a content; rendering is taken to return. *)
Variable render_section : section_group -> string -> list entry -> string.
Variable render_base : string -> string -> string.

(** [download_full(series_id, lang)] *)
Definition download_full (series_id lang : string) : result flask_response :=
  if negb ((lang =? "en")%string || (lang =? "hi")%string)
  then Ok (Plain "Invalid language" 400)
  else if negb docx then Ok (Plain "python-docx not installed" 500)
  else
    match fetch_raw_json json_loads html_unescape requests requests_get
            INPUT_FILE os_path_exists open_read (Some series_id) with
    | inl e => Ok (Plain ("Error: " ++ exn_str e) 500)
    | inr raw_json =>
        cleaned <- process_data BeautifulSoup int_max_str_digits py_repr
                     raw_json lang ;;
        let cleaned :=
          if (lang =? "hi")%string
          then filter (fun e => negb (question_text e =? "")%string
                                || nonempty (question_images e)) cleaned
          else cleaned in
        if negb (nonempty cleaned)
        then Ok (Plain
                   "No questions found for this test in the selected language."
                   404)
        else
          let url := QUESTION_API_PATTERN series_id in
          let parsed := urlparse url in
          let base_url := scheme parsed ++ "://" ++ netloc parsed in
          bio <- create_docx requests docx load_image requests_get urljoin
                   cleaned (Some base_url) ;;
          let filename := "series_" ++ series_id ++ "_full_" ++ lang ++ ".docx" in
          Ok (Attachment bio filename DOCX_MIMETYPE)
    end.

(** [download_section(series_id, sid, lang)] *)
Definition download_section (series_id sid lang : string)
  : result flask_response :=
  if negb ((lang =? "en")%string || (lang =? "hi")%string)
  then Ok (Plain "Invalid language" 400)
  else if negb docx then Ok (Plain "python-docx not installed" 500)
  else
    match fetch_raw_json json_loads html_unescape requests requests_get
            INPUT_FILE os_path_exists open_read (Some series_id) with
    | inl e => Ok (Plain ("Error: " ++ exn_str e) 500)
    | inr raw_json =>
        cleaned <- process_data BeautifulSoup int_max_str_digits py_repr
                     raw_json lang ;;
        let cleaned :=
          if (lang =? "hi")%string
          then filter (fun e => negb (question_text e =? "")%string
                                || nonempty (question_images e)) cleaned
          else cleaned in
        let cleaned :=
          filter (fun e => (py_str py_repr (section_id e) =? sid)%string)
            cleaned in
        if negb (nonempty cleaned)
        then Ok (Plain "No questions found for this section" 404)
        else
          let url := QUESTION_API_PATTERN series_id in
          let parsed := urlparse url in
          let base_url := scheme parsed ++ "://" ++ netloc parsed in
          bio <- create_docx requests docx load_image requests_get urljoin
                   cleaned (Some base_url) ;;
          let filename :=
            "series_" ++ series_id ++ "_section_" ++ sid ++ "_" ++ lang
              ++ ".docx" in
          Ok (Attachment bio filename DOCX_MIMETYPE)
    end.

(** [view_section(series_id, sid)]; the group found is a non-empty dict,
    so [not sec] holds for [None] only. *)
Definition view_section (series_id sid : string) : result flask_response :=
  match fetch_raw_json json_loads html_unescape requests requests_get
          INPUT_FILE os_path_exists open_read (Some series_id) with
  | inl e => Ok (Plain ("Error: " ++ exn_str e) 500)
  | inr raw_json =>
      cleaned <- process_data BeautifulSoup int_max_str_digits py_repr
                   raw_json "en" ;;
      sections <- group_by_section py_repr cleaned ;;
      match sections_get sections (KStr sid) with
      | None => Ok (Plain "Section not found" 404)
      | Some sec =>
          let content := render_section sec series_id (questions sec) in
          Ok (Page (render_base ("Section " ++ py_str py_repr (name sec))
                      content))
      end
  end.

End Routes.

(** ** Routes: vocabulary *)

(** The records an export of language [lang] keeps: for Hindi, those
    with question text or a question image. *)
Definition has_question (e : entry) : bool :=
  negb (question_text e =? "")%string || nonempty (question_images e).

Definition exported (lang : string) (recs : list entry) : list entry :=
  if (lang =? "hi")%string then filter has_question recs else recs.

(** The records whose section identifier prints as [sid]. *)
Definition in_section (py_repr : json -> string) (sid : string) (e : entry)
  : bool :=
  (py_str py_repr (section_id e) =? sid)%string.

(** The base URL the download routes hand to the Document Assembler. *)
Definition export_base (urlparse : string -> parse_result)
    (series_id : string) : string :=
  scheme (urlparse (QUESTION_API_PATTERN series_id)) ++ "://"
    ++ netloc (urlparse (QUESTION_API_PATTERN series_id)).

(** ** Routes: stand-ins *)

(** A network that serves the sample payload as series 7, besides the
    images of [toy_get]. *)
Definition toy_api (url : string) (timeout : Z) : result response :=
  if (url =? QUESTION_API_PATTERN "7")%string
  then Ok (Response 200 [] "" (Ok sample_payload))
  else toy_get url timeout.

(** The origin of the question API, which is what [urlparse] finds in
    every URL built from [QUESTION_API_PATTERN]. *)
Definition toy_urlparse (url : string) : parse_result :=
  ParseResult "https" "www.testranking.in".

Definition toy_exn_str (e : exn) : string := "failed".

Definition toy_render_section (sec : section_group) (series_id : string)
    (qs : list entry) : string :=
  join "; " (map question_text qs).

Definition toy_render_base (title content : string) : string :=
  title ++ ": " ++ content.

(** ** The series page *)

Definition SERIES_API_URL : string :=
  "https://www.testranking.in/admin/api/get-tab-package-series-v1/615/0/1/0/-1/2650169/0/1000/561".

Section SeriesPage.

Variable json_loads : string -> result json.
Variable html_unescape : string -> string.
Variable requests : bool.
Variable requests_get : string -> Z -> result response.
Variable INPUT_FILE : option string.
Variable os_path_exists : string -> bool.
Variable open_read : string -> result string.
Variable BeautifulSoup : string -> soup.
Variable int_max_str_digits : nat.
Variable py_repr : json -> string.
Variable exn_str : exn -> string.

(** [render_template_string] on the series template, with the series and
    its sections, and on the base template; rendering is taken to
    return. *)
Variable render_series : json -> sections_dict -> string.
Variable render_base : string -> string -> string.

(** [next((s for s in series_list if str(s.get('series_id')) ==
    str(series_id)), None)]: the generator is consumed up to the first
    match and no further. *)
Fixpoint first_series (series_list : list json) (series_id : string)
  : result (option json) :=
  match series_list with
  | [] => Ok None
  | s :: rest =>
      v <- get s "series_id" ;;
      if (py_str py_repr v =? series_id)%string then Ok (Some s)
      else first_series rest series_id
  end.

(** [series_page(series_id)] *)
Definition series_page (series_id : string) : result flask_response :=
  if negb requests then Ok (Plain "requests module required" 500)
  else
    match fetch_json_from_url json_loads html_unescape requests requests_get
            SERIES_API_URL with
    | inl e => Ok (Plain ("Error: " ++ exn_str e) 500)
    | inr data =>
        series_list <- get_or data "data" (JArr []) ;;
        items <- py_iter series_list ;;
        series <- first_series items series_id ;;
        match series with
        | None => Ok (Plain "Series not found" 404)
        | Some series =>
            if negb (truthy series) then Ok (Plain "Series not found" 404)
            else
              match fetch_raw_json json_loads html_unescape requests
                      requests_get INPUT_FILE os_path_exists open_read
                      (Some series_id) with
              | inl e =>
                  Ok (Plain ("Error fetching questions: " ++ exn_str e) 500)
              | inr raw_json =>
                  cleaned_en <- process_data BeautifulSoup int_max_str_digits
                                  py_repr raw_json "en" ;;
                  sections <- group_by_section py_repr cleaned_en ;;
                  let content := render_series series sections in
                  series_name <- get series "series_name" ;;
                  Ok (Page (render_base
                              ("Series " ++ py_str py_repr series_name)
                              content))
              end
        end
    end.

End SeriesPage.

(** ** The series page: vocabulary *)

(** [s] is a dict whose series identifier prints as [series_id]. *)
Definition series_called (py_repr : json -> string) (series_id : string)
    (s : json) : Prop :=
  exists m,
    s = JObj m
    /\ py_str py_repr (match lookup m "series_id" with
                       | Some v => v
                       | None => JNull
                       end) = series_id.

(** [s] is a dict whose series identifier prints as something else. *)
Definition other_series (py_repr : json -> string) (series_id : string)
    (s : json) : Prop :=
  exists m,
    s = JObj m
    /\ py_str py_repr (match lookup m "series_id" with
                       | Some v => v
                       | None => JNull
                       end) <> series_id.

Definition is_dict (s : json) : bool :=
  match s with JObj _ => true | _ => false end.

(** A list of series with a malformed entry after series 7. *)
Definition sample_series : list json :=
  [JObj [("series_id", JInt 3); ("series_name", JStr "Mock 3")];
   JObj [("series_id", JInt 7); ("series_name", JStr "Mock 7")];
   JStr "garbage"].

(* ================================================================== *)
(** * Field Extractor: [parse_html_field] *)
(* ================================================================== *)

Lemma single_spaced_weaken (b : bool) (s : string) :
  single_spaced true s = true -> single_spaced b s = true.
Proof.
  destruct s as [|c s]; simpl; [reflexivity|].
  destruct (isspace c); [|trivial].
  rewrite andb_false_r. discriminate.
Qed.

Lemma sub_spaces_single_spaced (b : bool) (s : string) :
  single_spaced b (sub_spaces b s) = true.
Proof.
  revert b. induction s as [|c s IH]; intro b; simpl; [reflexivity|].
  destruct (isspace c) eqn:Hc.
  - destruct b; [apply IH|].
    simpl. rewrite IH. reflexivity.
  - simpl. rewrite Hc. apply IH.
Qed.

Lemma lstrip_single_spaced (b : bool) (s : string) :
  single_spaced b s = true -> single_spaced b (lstrip s) = true.
Proof.
  induction s as [|c s IH]; simpl; [trivial|].
  destruct (isspace c) eqn:Hc; simpl.
  - intro H. apply andb_prop in H as [_ H].
    apply IH, single_spaced_weaken, H.
  - rewrite Hc. trivial.
Qed.

Lemma rstrip_single_spaced (b : bool) (s : string) :
  single_spaced b s = true -> single_spaced b (rstrip s) = true.
Proof.
  revert b. induction s as [|c s IH]; intro b; simpl; [trivial|].
  destruct (isspace c) eqn:Hc.
  - intro H. apply andb_prop in H as [H1 H2].
    specialize (IH true H2).
    destruct (rstrip s) as [|a r]; [reflexivity|].
    cbn [single_spaced]. rewrite Hc, H1. exact IH.
  - intro H. specialize (IH false H).
    destruct (rstrip s) as [|a r]; cbn [single_spaced]; rewrite Hc;
      [reflexivity | exact IH].
Qed.

Lemma lstrip_head (s : string) :
  lstrip s = EmptyString \/
  exists c t, lstrip s = String c t /\ isspace c = false.
Proof.
  induction s as [|c s IH]; simpl; [left; reflexivity|].
  destruct (isspace c) eqn:Hc; [exact IH|].
  right. exists c, s. split; [reflexivity | exact Hc].
Qed.

Lemma rstrip_idempotent (s : string) : rstrip (rstrip s) = rstrip s.
Proof.
  induction s as [|c s IH]; simpl; [reflexivity|].
  destruct (rstrip s) as [|a r] eqn:Hr.
  - destruct (isspace c) eqn:Hc; simpl; [reflexivity|].
    rewrite Hc. reflexivity.
  - cbn [rstrip] in *. rewrite IH. reflexivity.
Qed.

Lemma strip_idempotent (s : string) : strip (strip s) = strip s.
Proof.
  unfold strip.
  destruct (lstrip_head s) as [H | (c & t & H & Hc)]; rewrite H.
  - reflexivity.
  - assert (Hh : exists r, rstrip (String c t) = String c r).
    { simpl. destruct (rstrip t); [rewrite Hc|]; eexists; reflexivity. }
    destruct Hh as [r Hr]. rewrite Hr. simpl lstrip. rewrite Hc.
    rewrite <- Hr. apply rstrip_idempotent.
Qed.

Lemma collect_src_fold (l : list node) (acc : list string) :
  fold_left collect_src l acc = (acc ++ flat_map img_src l)%list.
Proof.
  revert acc. induction l as [|n l IH]; intro acc; simpl.
  - symmetry. apply app_nil_r.
  - rewrite IH. unfold collect_src, img_src.
    destruct (tag_get n "src") as [src|]; [|reflexivity].
    destruct (src =? "")%string; simpl; [reflexivity|].
    rewrite <- app_assoc. reflexivity.
Qed.

Lemma truthy_str_nonempty (s : string) :
  s <> "" -> truthy (JStr s) = true.
Proof.
  intro H. simpl. apply negb_true_iff, String.eqb_neq, H.
Qed.

Section FieldExtractor.

Variable BeautifulSoup : string -> soup.

Lemma parse_html_field_falsy (v : json) :
  truthy v = false -> parse_html_field BeautifulSoup v = Ok ("", []).
Proof. intro H. unfold parse_html_field. rewrite H. reflexivity. Qed.

Lemma parse_html_field_text (markup : string) :
  markup <> "" ->
  parse_html_field BeautifulSoup (JStr markup) =
    Ok (strip (sub_spaces false (get_text " " (BeautifulSoup markup))),
        flat_map img_src (find_all "img" (BeautifulSoup markup))).
Proof.
  intro H. unfold parse_html_field.
  rewrite (truthy_str_nonempty _ H). simpl negb. cbv iota.
  rewrite collect_src_fold. reflexivity.
Qed.

(** C6: the Field Extractor returns [("", [])] on [None] and on the
    empty string, without raising; on any other text it returns the
    page text with every run of blanks collapsed to one space and both
    ends trimmed, and the [src] of every [img] element in document
    order, leaving out those with no [src]; on the sample fragment it
    returns ["A & B"] and [["/x.png"]]. *)
Theorem parse_html_field_contract :
  parse_html_field BeautifulSoup JNull = Ok ("", [])
  /\ parse_html_field BeautifulSoup (JStr "") = Ok ("", [])
  /\ (forall markup, markup <> "" ->
      exists t imgs,
        parse_html_field BeautifulSoup (JStr markup) = Ok (t, imgs)
        /\ t = strip (sub_spaces false
                        (get_text " " (BeautifulSoup markup)))
        /\ single_spaced false t = true
        /\ strip t = t
        /\ imgs = flat_map img_src (find_all "img" (BeautifulSoup markup)))
  /\ (BeautifulSoup sample_markup = sample_soup ->
      parse_html_field BeautifulSoup (JStr sample_markup)
        = Ok ("A & B", ["/x.png"])).
Proof.
  split; [reflexivity|]. split; [reflexivity|]. split.
  - intros markup H. eexists. eexists.
    split; [apply parse_html_field_text, H|].
    split; [reflexivity|].
    split; [|split; [apply strip_idempotent | reflexivity]].
    apply rstrip_single_spaced, lstrip_single_spaced,
      sub_spaces_single_spaced.
  - intro H. rewrite parse_html_field_text by discriminate.
    rewrite H. reflexivity.
Qed.

End FieldExtractor.

Lemma parse_html_field_contract_witness :
  (exists t imgs,
      parse_html_field toy_soup (JStr " x  y ") = Ok (t, imgs)
      /\ t = "x y")
  /\ parse_html_field toy_soup (JStr sample_markup) = Ok ("A & B", ["/x.png"]).
Proof.
  destruct (parse_html_field_contract toy_soup) as (_ & _ & H & Hs).
  split.
  - destruct (H " x  y ") as (t & imgs & H1 & H2 & _); [discriminate|].
    exists t, imgs. split; [exact H1 | rewrite H2; reflexivity].
  - apply Hs. reflexivity.
Defined.

(* ================================================================== *)
(** * Record Normalizer: [process_data] *)
(* ================================================================== *)

(** Inversion of a successful [bind] in hypothesis [H]. *)
Ltac bind_inv H :=
  let E := fresh "E" in
  match type of H with
  | bind ?c _ = _ =>
      destruct c eqn:E; cbn [bind] in H; [discriminate H|]
  | match ?c with inl _ => _ | inr _ => _ end = _ =>
      destruct c eqn:E; [discriminate H|]
  end.

Lemma for_each_app {A S} (l1 l2 : list A) (s : S) (body : S -> A -> result S) :
  for_each (l1 ++ l2) s body = (s' <- for_each l1 s body ;; for_each l2 s' body).
Proof.
  revert s. induction l1 as [|x l1 IH]; intro s; simpl; [reflexivity|].
  destruct (body s x); simpl; [reflexivity | apply IH].
Qed.

(** A property of the loop state that every iteration preserves holds
    when the loop ends. *)
Lemma for_each_invariant {A S} (P : S -> Prop) (body : S -> A -> result S)
    (l : list A) (s res : S) :
  (forall s x s', P s -> body s x = Ok s' -> P s') ->
  P s -> for_each l s body = Ok res -> P res.
Proof.
  intro Hstep. revert s. induction l as [|x l IH]; intros s Hs H; simpl in H.
  - injection H as <-. exact Hs.
  - bind_inv H. eapply IH; [eapply Hstep; eassumption | exact H].
Qed.

Lemma py_int_falsy (mx : nat) (ar : json) (n : Z) :
  truthy ar = false -> py_int mx ar = Ok n -> n = 0.
Proof.
  destruct ar as [|b|z|f|s|l|m]; simpl; try discriminate.
  - destruct b; [discriminate|]. intros _ H. injection H as <-. reflexivity.
  - intros Hz H. injection H as <-. apply negb_false_iff, Z.eqb_eq in Hz.
    exact Hz.
  - destruct f; try discriminate. intros _ H. injection H as <-. reflexivity.
  - intro Hs. apply negb_false_iff, String.eqb_eq in Hs. subst s.
    discriminate.
Qed.

Lemma for_each_ext {A S} (b1 b2 : S -> A -> result S) (l : list A) (s : S) :
  (forall s x, b1 s x = b2 s x) -> for_each l s b1 = for_each l s b2.
Proof.
  intro H. revert s. induction l as [|x l IH]; intro s; simpl; [reflexivity|].
  rewrite H. destruct (b2 s x); simpl; [reflexivity | apply IH].
Qed.

Lemma get_cons_other (k k' : string) (v : json) (m : list (string * json)) :
  (k' =? k)%string = false -> get (JObj ((k', v) :: m)) k = get (JObj m) k.
Proof. intro H. unfold get, get_or. cbn [lookup]. rewrite H. reflexivity. Qed.

Section NormalizerFacts.

Variable BeautifulSoup : string -> soup.
Variable max_digits : nat.
Variable py_repr : json -> string.

Lemma answer_fallback_unset lang q ar ai at_ :
  answer_fallback BeautifulSoup lang q ar = Ok (ai, at_) ->
  ai = None /\
  exists a imgs, get q ("answer_" ++ lang) = Ok a
                 /\ parse_html_field BeautifulSoup (py_or a ar) = Ok (at_, imgs).
Proof.
  unfold answer_fallback. intro H. bind_inv H. bind_inv H.
  destruct p as [t imgs]. injection H as <- <-.
  split; [reflexivity|]. exists j, imgs. split; [reflexivity | exact E0].
Qed.

Lemma option_slots_spec lang q (l : list Z) (acc opts : list option_entry) :
  for_each l acc (option_slot BeautifulSoup lang q) = Ok opts ->
  exists contents,
    Forall2 (slot_resolves BeautifulSoup lang q) l contents
    /\ opts = (acc ++ map to_option (filter populated contents))%list.
Proof.
  revert acc. induction l as [|i l IH]; intros acc H; simpl in H.
  - injection H as <-. exists []. split; [constructor|].
    symmetry. apply app_nil_r.
  - bind_inv H. unfold option_slot in E. bind_inv E.
    destruct (truthy j) eqn:Ht.
    + bind_inv E. destruct p as [t imgs].
      assert (Hs : l0 = (acc ++ map to_option
                                (filter populated [(t, imgs)]))%list).
      { cbn [filter]. unfold populated. cbn [fst snd].
        destruct (negb (t =? "")%string || nonempty imgs);
          injection E as <-; [reflexivity|].
        symmetry. apply app_nil_r. }
      subst l0. destruct (IH _ H) as (cs & Hcs & ->).
      exists ((t, imgs) :: cs). split.
      * constructor; [exists j; split; assumption | exact Hcs].
      * rewrite <- app_assoc, <- map_app.
        change ((t, imgs) :: cs) with ([(t, imgs)] ++ cs)%list.
        rewrite filter_app. reflexivity.
    + injection E as <-.
      destruct (IH _ H) as (cs & Hcs & ->).
      exists (("", []) :: cs). split; [|reflexivity].
      constructor; [|exact Hcs].
      exists j. split; [assumption|].
      apply parse_html_field_falsy, Ht.
Qed.

Lemma filter_length_le {A} (f : A -> bool) (l : list A) :
  (List.length (filter f l) <= List.length l)%nat.
Proof.
  induction l as [|x l IH]; simpl; [lia|]. destruct (f x); simpl; lia.
Qed.

Lemma resolve_answer_spec lang q opts ai at_ :
  resolve_answer BeautifulSoup max_digits lang q opts = Ok (ai, at_) ->
  exists ar,
    get q "answer_en" = Ok ar
    /\ ((truthy ar = false /\ ai = None /\ at_ = "")
        \/ (truthy ar = true
            /\ exists n, valid_choice max_digits ar opts n
                         /\ ai = Some (n - 1)
                         /\ at_ = if n - 1 <? len labels
                                  then item labels (n - 1)
                                  else str_of_int n)
        \/ (truthy ar = true
            /\ (~ exists n, valid_choice max_digits ar opts n)
            /\ ai = None
            /\ exists a imgs,
                get q ("answer_" ++ lang) = Ok a
                /\ parse_html_field BeautifulSoup (py_or a ar)
                   = Ok (at_, imgs))).
Proof.
  unfold resolve_answer. intro H. bind_inv H. exists j.
  split; [reflexivity|].
  destruct (truthy j) eqn:Ht.
  - right. unfold try_except in H.
    destruct (py_int max_digits j) as [e|i0] eqn:Hi; cbn [bind] in H.
    + right. split; [reflexivity|].
      destruct (answer_fallback _ _ _ _) as [e'|[ai' at']]
        eqn:Hf; [discriminate|].
      injection H as <- <-.
      destruct (answer_fallback_unset _ _ _ _ _ Hf) as (-> & Ha).
      split; [|split; [reflexivity | exact Ha]].
      intros (n & Hn & _). rewrite Hn in Hi. discriminate.
    + destruct ((1 <=? i0) && (i0 <=? len opts)) eqn:Hr.
      * left. injection H as <- <-. split; [reflexivity|].
        exists i0. split; [|split; reflexivity].
        split; [exact Hi|]. apply andb_prop in Hr as [H1 H2].
        apply Z.leb_le in H1, H2. lia.
      * right. split; [reflexivity|].
        destruct (answer_fallback _ _ _ _) as [e'|[ai' at']]
          eqn:Hf; [discriminate|].
        injection H as <- <-.
        destruct (answer_fallback_unset _ _ _ _ _ Hf) as (-> & Ha).
        split; [|split; [reflexivity | exact Ha]].
        intros (n & [Hn Hrange]). rewrite Hn in Hi. injection Hi as <-.
        apply andb_false_iff in Hr as [Hr | Hr]; apply Z.leb_gt in Hr; lia.
  - left. injection H as <- <-. repeat split.
Qed.

Lemma process_question_inv lang sec_id sec_name q r :
  process_question BeautifulSoup max_digits lang sec_id sec_name q = Ok r ->
  for_each [1; 2; 3; 4; 5] [] (option_slot BeautifulSoup lang q)
    = Ok (options r)
  /\ resolve_answer BeautifulSoup max_digits lang q (options r)
     = Ok (answer_index r, answer_text r)
  /\ section_id r = sec_id /\ section_name r = sec_name.
Proof.
  unfold process_question. intro H.
  do 3 bind_inv H. bind_inv H. destruct p as [qt qi].
  bind_inv H. bind_inv H. destruct p as [ai at_].
  bind_inv H. bind_inv H. destruct p as [st si].
  injection H as <-. cbn. repeat split; assumption.
Qed.

Lemma options_at_most_five lang sec_id sec_name q r :
  process_question BeautifulSoup max_digits lang sec_id sec_name q = Ok r ->
  exists contents,
    Forall2 (slot_resolves BeautifulSoup lang q) [1; 2; 3; 4; 5] contents
    /\ options r = map to_option (filter populated contents)
    /\ len (options r) <= 5.
Proof.
  intro H. apply process_question_inv in H as (H & _).
  apply option_slots_spec in H as (cs & Hcs & Ho).
  exists cs. split; [exact Hcs|]. split; [exact Ho|].
  rewrite Ho. unfold len. cbn [app]. rewrite length_map.
  pose proof (filter_length_le populated cs) as Hl.
  apply Forall2_length in Hcs. cbn in Hcs. lia.
Qed.

Lemma item_labels_in (i : Z) : 0 <= i < 5 -> In (item labels i) labels.
Proof.
  intro H.
  assert (Hi : i = 0 \/ i = 1 \/ i = 2 \/ i = 3 \/ i = 4) by lia.
  destruct Hi as [-> | [-> | [-> | [-> | ->]]]]; cbn; tauto.
Qed.

Lemma answer_by_index_holds lang sec_id sec_name q r :
  process_question BeautifulSoup max_digits lang sec_id sec_name q = Ok r ->
  exists ar, get q "answer_en" = Ok ar /\ answer_by_index max_digits ar r.
Proof.
  intro H. destruct (options_at_most_five _ _ _ _ _ H) as (_ & _ & _ & H5).
  apply process_question_inv in H as (_ & H & _).
  apply resolve_answer_spec in H as (ar & Har & Hcases).
  exists ar. split; [exact Har|]. unfold answer_by_index.
  destruct Hcases as [(Hf & Hi & _) | [(_ & n & Hn & Hi & Ht) | (_ & Hn & Hi & _)]];
    rewrite Hi; split.
  - intro idx. split; [discriminate|].
    intros (n & [Hn Hr] & _). apply (py_int_falsy _ _ _ Hf) in Hn. lia.
  - discriminate.
  - intro idx. split.
    + intro E. injection E as <-. exists n. split; [exact Hn | reflexivity].
    + intros (n' & [Hn' _] & ->). destruct Hn as [Hn _].
      rewrite Hn in Hn'. injection Hn' as <-. reflexivity.
  - intros idx E. injection E as <-. destruct Hn as [_ Hr].
    assert (Hlt : (n - 1 <? len labels) = true)
      by (apply Z.ltb_lt; change (len labels) with 5; lia).
    rewrite Hlt in Ht. rewrite Ht.
    split; [lia|]. split; [reflexivity|]. apply item_labels_in. lia.
  - intro idx. split; [discriminate|].
    intros (n & Hv & _). exfalso. apply Hn. exists n. exact Hv.
  - discriminate.
Qed.

Lemma py_int_two : py_int max_digits (JStr "2") = Ok 2.
Proof.
  cbn. unfold numeral. cbn. destruct max_digits; reflexivity.
Qed.

Lemma process_data_produced raw lang recs :
  process_data BeautifulSoup max_digits py_repr raw lang = Ok recs ->
  Forall (fun r => exists q, produced_by BeautifulSoup max_digits lang q r)
    recs.
Proof.
  unfold process_data. intro H. do 2 bind_inv H.
  revert H. apply for_each_invariant; [|constructor].
  intros s se s' Hs H. unfold process_section in H. do 6 bind_inv H.
  revert H. apply for_each_invariant; [|exact Hs].
  clear s Hs. intros s ql s1 Hs H. bind_inv H.
  revert H. apply for_each_invariant; [|exact Hs].
  clear s Hs. intros s q s2 Hs H. bind_inv H. injection H as <-.
  apply Forall_app. split; [exact Hs|]. constructor; [|constructor].
  exists q. eexists. eexists. eassumption.
Qed.

Lemma parse_html_field_textual v :
  textual v = true -> exists c, parse_html_field BeautifulSoup v = Ok c.
Proof.
  destruct v; try discriminate; intros _; unfold parse_html_field.
  - eexists. reflexivity.
  - destruct (negb (truthy (JStr s))); eexists; reflexivity.
Qed.

Lemma get_textual m k :
  (forall k v, lookup m k = Some v -> textual v = true) ->
  exists v, get (JObj m) k = Ok v /\ textual v = true.
Proof.
  intro H. unfold get, get_or. destruct (lookup m k) as [v|] eqn:E.
  - exists v. split; [reflexivity | exact (H _ _ E)].
  - exists JNull. split; reflexivity.
Qed.

Lemma py_or_textual a b :
  textual a = true -> textual b = true -> textual (py_or a b) = true.
Proof. intros Ha Hb. unfold py_or. destruct (truthy a); assumption. Qed.

(** A question object whose fields hold text or null always yields a
    record. *)
Lemma process_question_total lang sec_id sec_name m :
  (forall k v, lookup m k = Some v -> textual v = true) ->
  exists r,
    process_question BeautifulSoup max_digits lang sec_id sec_name (JObj m)
    = Ok r.
Proof.
  intro H. unfold process_question.
  destruct (get_textual m "qid" H) as (v1 & -> & _). cbn [bind Ok].
  destruct (get_textual m "topic_id" H) as (v2 & -> & _). cbn [bind Ok].
  destruct (get_textual m ("question_" ++ lang) H) as (v3 & -> & T3).
  cbn [bind Ok].
  destruct (parse_html_field_textual (py_or v3 (JStr "")))
    as ([qt qi] & ->); [apply py_or_textual; [exact T3 | reflexivity]|].
  cbn [bind Ok].
  assert (Hopts : forall l acc, exists opts,
             for_each l acc (option_slot BeautifulSoup lang (JObj m))
             = Ok opts).
  { induction l as [|i l IH]; intro acc; [eexists; reflexivity|].
    cbn [for_each]. unfold option_slot at 1.
    destruct (get_textual m ("option_" ++ lang ++ "_" ++ str_of_int i) H)
      as (v & -> & T). cbn [bind Ok].
    destruct (truthy v); [|apply IH].
    destruct (parse_html_field_textual v T) as ([t imgs] & ->).
    cbn [bind Ok].
    destruct (negb (t =? "")%string || nonempty imgs); cbn [bind Ok];
      apply IH. }
  destruct (Hopts [1; 2; 3; 4; 5] []) as (opts & ->). cbn [bind Ok].
  assert (Hans : exists a, resolve_answer BeautifulSoup max_digits lang
                             (JObj m) opts = Ok a).
  { unfold resolve_answer.
    destruct (get_textual m "answer_en" H) as (ar & -> & Tar).
    cbn [bind Ok]. destruct (truthy ar); [|eexists; reflexivity].
    assert (Hfb : exists a, answer_fallback BeautifulSoup lang (JObj m) ar
                            = Ok a).
    { unfold answer_fallback.
      destruct (get_textual m ("answer_" ++ lang) H) as (a & -> & Ta).
      cbn [bind Ok].
      destruct (parse_html_field_textual (py_or a ar))
        as ([t imgs] & ->); [apply py_or_textual; assumption|].
      eexists. reflexivity. }
    destruct Hfb as (a & Hfb). unfold try_except.
    destruct (py_int max_digits ar) as [e|i0]; cbn [bind].
    - rewrite Hfb. eexists. reflexivity.
    - destruct ((1 <=? i0) && (i0 <=? len opts)); [eexists; reflexivity|].
      rewrite Hfb. eexists. reflexivity. }
  destruct Hans as ([ai at_] & ->). cbn [bind Ok].
  destruct (get_textual m ("solution_" ++ lang) H) as (v4 & -> & T4).
  cbn [bind Ok].
  destruct (parse_html_field_textual (py_or v4 (JStr "")))
    as ([st si] & ->); [apply py_or_textual; [exact T4 | reflexivity]|].
  eexists. reflexivity.
Qed.
(** C1: for every question object [process_data] turns into a record,
    [answer_index] is set exactly when [answer_en] converts to an
    integer [n] with [1 <= n <= len(options)]; it is then [n - 1], within
    the bounds of [options], and [answer_text] is the letter at that
    position; with [answer_en = "2"] and four retained options the index
    is 1 and the text ["b"]. *)
Theorem answer_index_iff_valid_choice :
  (forall lang sec_id sec_name q r,
      process_question BeautifulSoup max_digits lang sec_id sec_name q
        = Ok r ->
      exists ar,
        get q "answer_en" = Ok ar
        /\ answer_by_index max_digits ar r
        /\ (ar = JStr "2" -> len (options r) = 4 ->
            answer_index r = Some 1 /\ answer_text r = "b"))
  /\ (forall raw lang recs,
        process_data BeautifulSoup max_digits py_repr raw lang = Ok recs ->
        Forall (fun r =>
                  exists q ar,
                    produced_by BeautifulSoup max_digits lang q r
                    /\ get q "answer_en" = Ok ar
                    /\ answer_by_index max_digits ar r) recs).
Proof.
  split.
  - intros lang sec_id sec_name q r H.
    destruct (answer_by_index_holds _ _ _ _ _ H) as (ar & Har & Hidx).
    exists ar. split; [exact Har|]. split; [exact Hidx|].
    intros -> H4. destruct Hidx as [Hiff Hin].
    assert (Hi : answer_index r = Some 1).
    { apply Hiff. exists 2. split; [|reflexivity].
      split; [apply py_int_two | lia]. }
    split; [exact Hi|]. apply Hin in Hi as (_ & -> & _). reflexivity.
  - intros raw lang recs H. apply process_data_produced in H.
    eapply Forall_impl; [|exact H]. cbv beta.
    intros r (q & sec_id & sec_name & Hq).
    destruct (answer_by_index_holds _ _ _ _ _ Hq) as (ar & Har & Hidx).
    exists q, ar. split; [|split; assumption].
    exists sec_id, sec_name. exact Hq.
Qed.

(** C5, as the code has it: when [answer_en] is present and non-empty
    but is not a valid choice, [answer_index] is unset and
    [answer_text] is the Field Extractor text of [answer_{lang}], or of
    the raw [answer_en] when [answer_{lang}] is missing or empty. *)
Theorem fallback_for_present_non_choice lang sec_id sec_name q r ar :
  process_question BeautifulSoup max_digits lang sec_id sec_name q = Ok r ->
  get q "answer_en" = Ok ar ->
  truthy ar = true ->
  (~ exists n, valid_choice max_digits ar (options r) n) ->
  answer_index r = None
  /\ exists a imgs,
      get q ("answer_" ++ lang) = Ok a
      /\ parse_html_field BeautifulSoup (if truthy a then a else ar)
         = Ok (answer_text r, imgs).
Proof.
  intros H Har Ht Hn. apply process_question_inv in H as (_ & H & _).
  apply resolve_answer_spec in H as (ar' & Har' & Hcases).
  rewrite Har in Har'. injection Har' as <-.
  destruct Hcases as [(Hf & _) | [(_ & n & Hv & _) | (_ & _ & Hi & Ha)]].
  - congruence.
  - exfalso. apply Hn. exists n. exact Hv.
  - split; [exact Hi | exact Ha].
Qed.

(** C10: when [answer_en] is absent, null or empty, [answer_index] is
    unset and [answer_text] is the empty string; [answer_{lang}] plays
    no part: whatever it holds, the record is the same. *)
Theorem missing_answer_stays_empty :
  (forall lang sec_id sec_name q r ar,
      process_question BeautifulSoup max_digits lang sec_id sec_name q
        = Ok r ->
      get q "answer_en" = Ok ar ->
      truthy ar = false ->
      answer_index r = None /\ answer_text r = "")
  /\ (forall lang sec_id sec_name m v ar,
        lang <> "en" ->
        get (JObj m) "answer_en" = Ok ar ->
        truthy ar = false ->
        process_question BeautifulSoup max_digits lang sec_id sec_name
          (JObj (("answer_" ++ lang, v) :: m))
        = process_question BeautifulSoup max_digits lang sec_id sec_name
            (JObj m)).
Proof.
  split.
  - intros lang sec_id sec_name q r ar H Har Ht.
    apply process_question_inv in H as (_ & H & _).
    apply resolve_answer_spec in H as (ar' & Har' & Hcases).
    rewrite Har in Har'. injection Har' as <-.
    destruct Hcases as [(_ & Hi & Ha) | [(Hf & _) | (Hf & _)]];
      [split; assumption | congruence | congruence].
  - intros lang sec_id sec_name m v ar Hlang Har Ht.
    assert (Hen : get (JObj (("answer_" ++ lang, v) :: m)) "answer_en"
                  = Ok ar).
    { rewrite get_cons_other; [exact Har|].
      cbn. apply String.eqb_neq, Hlang. }
    unfold process_question.
    rewrite !get_cons_other by reflexivity.
    destruct (get (JObj m) "qid"); cbn [bind]; [reflexivity|].
    destruct (get (JObj m) "topic_id"); cbn [bind]; [reflexivity|].
    destruct (get (JObj m) ("question_" ++ lang)); cbn [bind];
      [reflexivity|].
    destruct (parse_html_field _ _) as [e|[qt qi]]; cbn [bind];
      [reflexivity|].
    rewrite (for_each_ext
               (option_slot BeautifulSoup lang
                  (JObj (("answer_" ++ lang, v) :: m)))
               (option_slot BeautifulSoup lang (JObj m))).
    2:{ intros s x. unfold option_slot.
        rewrite get_cons_other by reflexivity. reflexivity. }
    destruct (for_each _ _ _) as [e|opts]; cbn [bind]; [reflexivity|].
    unfold resolve_answer. rewrite Hen, Har. cbn [bind Ok]. rewrite Ht.
    reflexivity.
Qed.

End NormalizerFacts.

Lemma answer_index_iff_valid_choice_witness :
  process_data toy_soup 0 toy_repr sample_payload "en" = Ok [sample_record]
  /\ answer_index sample_record = Some 1
  /\ answer_text sample_record = "b".
Proof.
  split; [reflexivity|].
  destruct (answer_index_iff_valid_choice toy_soup 0 toy_repr) as [H _].
  destruct (H "en" (JInt 1) (JStr "Colours") sample_question sample_record
              eq_refl) as (ar & Har & _ & Hs).
  injection Har as <-. apply Hs; reflexivity.
Defined.

Lemma fallback_for_present_non_choice_witness :
  answer_index worded_record = None
  /\ exists a imgs,
      get worded_question "answer_en" = Ok a
      /\ parse_html_field toy_soup (if truthy a then a else JStr "see text")
         = Ok (answer_text worded_record, imgs).
Proof.
  apply (fallback_for_present_non_choice toy_soup 0 "en" JNull JNull
           worded_question worded_record (JStr "see text"));
    [reflexivity | reflexivity | reflexivity |].
  intros (n & [Hn _]). discriminate Hn.
Defined.

(** C5 as stated fails: without [answer_en] the record keeps an empty
    answer text although [answer_hi] holds text. *)
Lemma no_fallback_without_answer_en : ~ fallback_for_every_non_choice.
Proof.
  intro H.
  destruct (H toy_soup 0%nat "hi" JNull JNull unanswered_question
              unanswered_record JNull (JStr "x") eq_refl eq_refl eq_refl)
    as (_ & imgs & Hp).
  - intros (n & [Hn _]). discriminate Hn.
  - discriminate Hp.
Qed.

Lemma missing_answer_stays_empty_witness :
  (answer_index unanswered_record = None
   /\ answer_text unanswered_record = "")
  /\ process_question toy_soup 0 "hi" JNull JNull
       (JObj [("answer_hi", JInt 7)])
     = process_question toy_soup 0 "hi" JNull JNull (JObj []).
Proof.
  destruct (missing_answer_stays_empty toy_soup 0) as [H1 H2].
  split.
  - apply (H1 "hi" JNull JNull unanswered_question unanswered_record JNull);
      reflexivity.
  - apply (H2 "hi" JNull JNull [] (JInt 7) JNull);
      [discriminate | reflexivity | reflexivity].
Defined.

(* ================================================================== *)
(** * Section Grouper: [group_by_section] *)
(* ================================================================== *)

Lemma dict_key_eqb_eq (a b : dict_key) : dict_key_eqb a b = true <-> a = b.
Proof.
  split.
  - destruct a, b; simpl; try discriminate; try reflexivity; intro H.
    + apply andb_prop in H as [H H3]. apply andb_prop in H as [H1 H2].
      apply Bool.eqb_prop in H1. apply Pos.eqb_eq in H2. apply Z.eqb_eq in H3.
      congruence.
    + apply Bool.eqb_prop in H. congruence.
    + apply String.eqb_eq in H. congruence.
  - intros <-. destruct a; simpl; try reflexivity.
    + rewrite Bool.eqb_reflx, Pos.eqb_refl, Z.eqb_refl. reflexivity.
    + apply Bool.eqb_reflx.
    + apply String.eqb_refl.
Qed.

Lemma dict_key_eqb_refl (a : dict_key) : dict_key_eqb a a = true.
Proof. apply dict_key_eqb_eq. reflexivity. Qed.

Lemma dict_key_eqb_neq (a b : dict_key) : dict_key_eqb a b = false <-> a <> b.
Proof.
  rewrite <- dict_key_eqb_eq. destruct (dict_key_eqb a b); split; congruence.
Qed.

Lemma dict_key_eqb_sym (a b : dict_key) : dict_key_eqb a b = dict_key_eqb b a.
Proof.
  destruct (dict_key_eqb b a) eqn:H.
  - apply dict_key_eqb_eq in H. subst. apply dict_key_eqb_refl.
  - apply dict_key_eqb_neq in H. apply dict_key_eqb_neq. congruence.
Qed.

Lemma first_seen_snoc (l : list dict_key) (k : dict_key) :
  first_seen (l ++ [k]) =
  (first_seen l ++ if existsb (fun k' => dict_key_eqb k' k) l then [] else [k])%list.
Proof.
  induction l as [|a l IH]; simpl; [reflexivity|].
  rewrite IH, filter_app. f_equal. f_equal.
  destruct (dict_key_eqb a k) eqn:Hak; simpl.
  - destruct (existsb _ l); simpl; [reflexivity|].
    rewrite dict_key_eqb_sym, Hak. reflexivity.
  - destruct (existsb _ l); simpl; [reflexivity|].
    rewrite dict_key_eqb_sym, Hak. reflexivity.
Qed.

Lemma first_seen_In (l : list dict_key) (k : dict_key) :
  In k (first_seen l) <-> In k l.
Proof.
  induction l as [|a l IH]; simpl; [tauto|].
  rewrite filter_In, IH, negb_true_iff, dict_key_eqb_neq.
  destruct (dict_key_eqb a k) eqn:H.
  - apply dict_key_eqb_eq in H. tauto.
  - apply dict_key_eqb_neq in H. split; [tauto|].
    intros [Ha | Hl]; [tauto|]. right. split; [exact Hl | congruence].
Qed.

Lemma first_seen_NoDup (l : list dict_key) : NoDup (first_seen l).
Proof.
  induction l as [|a l IH]; simpl; constructor.
  - rewrite filter_In, negb_true_iff, dict_key_eqb_neq. tauto.
  - apply NoDup_filter, IH.
Qed.

Lemma existsb_key_In (l : list dict_key) (k : dict_key) :
  existsb (fun k' => dict_key_eqb k' k) l = true <-> In k l.
Proof.
  rewrite existsb_exists. split.
  - intros (x & Hx & He). apply dict_key_eqb_eq in He. congruence.
  - intro H. exists k. split; [exact H | apply dict_key_eqb_refl].
Qed.

Lemma members_of_snoc (k : dict_key) (l : list entry) (e : entry) :
  members_of k (l ++ [e]) =
  (members_of k l ++ if dict_key_eqb (entry_key e) k then [e] else [])%list.
Proof. unfold members_of. rewrite filter_app. reflexivity. Qed.

Lemma members_of_nil (k : dict_key) (l : list entry) :
  ~ In k (map entry_key l) -> members_of k l = [].
Proof.
  intro H. unfold members_of. induction l as [|e l IH]; simpl; [reflexivity|].
  destruct (dict_key_eqb (entry_key e) k) eqn:He.
  - exfalso. apply H. left. apply dict_key_eqb_eq, He.
  - apply IH. intro Hin. apply H. right. exact Hin.
Qed.

Lemma members_of_cons (k : dict_key) (l : list entry) :
  In k (map entry_key l) -> exists e0 rest, members_of k l = e0 :: rest.
Proof.
  intro H. apply in_map_iff in H as (e & He & Hin).
  assert (Hm : In e (members_of k l)).
  { apply filter_In. split; [exact Hin|]. apply dict_key_eqb_eq, He. }
  destruct (members_of k l) as [|e0 rest]; [destruct Hm|].
  exists e0, rest. reflexivity.
Qed.

(** Filing into a dict whose keys are distinct touches the group of that
    key and no other. *)
Lemma append_question_map (f : dict_key -> json * dict_key * section_group)
    (ks : list dict_key) (k : dict_key) (e : entry) :
  (forall k', snd (fst (f k')) = k') ->
  NoDup ks ->
  append_question (map f ks) k e =
  map (fun k' => if dict_key_eqb k' k then add_member e (f k') else f k') ks.
Proof.
  intros Hf Hnd. induction ks as [|a ks IH]; simpl; [reflexivity|].
  specialize (Hf a) as Ha. destruct (f a) as [[sid k'] g] eqn:Hfa.
  simpl in Ha. subst k'.
  apply NoDup_cons_iff in Hnd as [Hnotin Hnd].
  destruct (dict_key_eqb a k) eqn:Hak.
  - simpl. f_equal. apply dict_key_eqb_eq in Hak. subst a.
    apply map_ext_in. intros k' Hk'.
    destruct (dict_key_eqb k' k) eqn:E; [|reflexivity].
    apply dict_key_eqb_eq in E. subst. contradiction.
  - f_equal. apply IH, Hnd.
Qed.

Lemma append_question_app (s1 s2 : sections_dict) (k : dict_key) (e : entry) :
  has_key s1 k = false ->
  append_question (s1 ++ s2)%list k e = (s1 ++ append_question s2 k e)%list.
Proof.
  induction s1 as [|[[sid k'] g] s1 IH]; simpl; [reflexivity|].
  destruct (dict_key_eqb k' k); simpl; [discriminate|].
  intro H. f_equal. apply IH, H.
Qed.

Section GrouperFacts.

Variable py_repr : json -> string.

Lemma group_of_key cleaned k : snd (fst (group_of py_repr cleaned k)) = k.
Proof. unfold group_of. destruct (members_of k cleaned); reflexivity. Qed.

Lemma has_key_grouped cleaned k :
  has_key (grouped py_repr cleaned) k
  = existsb (fun k' => dict_key_eqb k' k) (map entry_key cleaned).
Proof.
  apply eq_true_iff_eq. rewrite existsb_key_In.
  unfold has_key, grouped. rewrite existsb_exists. split.
  - intros ([[sid k'] g] & Hin & He). apply dict_key_eqb_eq in He. subst k'.
    apply in_map_iff in Hin as (k' & Hk' & Hin).
    apply (proj1 (first_seen_In _ _)) in Hin.
    pose proof (group_of_key cleaned k') as Hk. rewrite Hk' in Hk.
    cbn in Hk. subst k'. exact Hin.
  - intro Hin. exists (group_of py_repr cleaned k). split.
    + apply in_map, (proj2 (first_seen_In _ _)), Hin.
    + pose proof (group_of_key cleaned k) as Hk.
      destruct (group_of py_repr cleaned k) as [[sid k'] g].
      simpl in Hk. subst. apply dict_key_eqb_refl.
Qed.

Lemma group_of_snoc cleaned e k' :
  In k' (map entry_key cleaned) ->
  group_of py_repr (cleaned ++ [e])%list k' =
  if dict_key_eqb k' (entry_key e)
  then add_member e (group_of py_repr cleaned k')
  else group_of py_repr cleaned k'.
Proof.
  intro Hin. unfold group_of. rewrite members_of_snoc.
  destruct (members_of_cons _ _ Hin) as (e0 & rest & ->).
  rewrite (dict_key_eqb_sym k'). cbn [app].
  destruct (dict_key_eqb (entry_key e) k'); cbn.
  - reflexivity.
  - rewrite app_nil_r. reflexivity.
Qed.

Lemma group_entry_grouped cleaned e :
  hashable (sid_of e) = true ->
  group_entry py_repr (grouped py_repr cleaned) e
  = Ok (grouped py_repr (cleaned ++ [e])%list).
Proof.
  intro Hh. unfold group_entry. fold (sid_of e). fold (sname_of py_repr e).
  assert (Hk : key_of (sid_of e) = Ok (entry_key e)).
  { unfold entry_key. destruct (sid_of e); try discriminate; reflexivity. }
  rewrite Hk. cbn [bind Ok]. f_equal.
  rewrite has_key_grouped.
  unfold grouped at 3. rewrite map_app. cbn [map]. rewrite first_seen_snoc.
  destruct (existsb _ (map entry_key cleaned)) eqn:Hex; cbn [negb].
  - rewrite app_nil_r. unfold grouped.
    rewrite append_question_map
      by (apply group_of_key || apply first_seen_NoDup).
    apply map_ext_in. intros k' Hk'. apply (proj1 (first_seen_In _ _)) in Hk'.
    rewrite group_of_snoc by exact Hk'. reflexivity.
  - rewrite append_question_app by (rewrite has_key_grouped; exact Hex).
    rewrite map_app. f_equal.
    + unfold grouped. apply map_ext_in. intros k' Hk'.
      apply (proj1 (first_seen_In _ _)) in Hk'. rewrite group_of_snoc by exact Hk'.
      destruct (dict_key_eqb k' (entry_key e)) eqn:E; [|reflexivity].
      apply dict_key_eqb_eq in E. subst k'.
      apply (proj2 (existsb_key_In _ _)) in Hk'. congruence.
    + cbn. rewrite dict_key_eqb_refl. unfold group_of.
      rewrite members_of_snoc, dict_key_eqb_refl, members_of_nil.
      * reflexivity.
      * intro Hin. apply (proj2 (existsb_key_In _ _)) in Hin. congruence.
Qed.

Lemma group_by_section_grouped cleaned :
  Forall (fun e => hashable (sid_of e) = true) cleaned ->
  group_by_section py_repr cleaned = Ok (grouped py_repr cleaned).
Proof.
  unfold group_by_section.
  induction cleaned as [|e cleaned IH] using rev_ind; intro H;
    [reflexivity|].
  apply Forall_app in H as [Hl He]. apply Forall_inv in He.
  rewrite for_each_app, (IH Hl). cbn [bind Ok for_each].
  rewrite group_entry_grouped by exact He. reflexivity.
Qed.

Lemma grouped_members cleaned sid k g :
  In (sid, k, g) (grouped py_repr cleaned) ->
  questions g = members_of k cleaned
  /\ exists e0 rest,
      questions g = e0 :: rest
      /\ sid = sid_of e0 /\ name g = sname_of py_repr e0.
Proof.
  unfold grouped. intro H. apply in_map_iff in H as (k' & Hg & Hin).
  apply (proj1 (first_seen_In _ _)) in Hin.
  destruct (members_of_cons _ _ Hin) as (e0 & rest & Hm).
  unfold group_of in Hg. rewrite Hm in Hg. injection Hg as <- <- <-.
  cbn. split; [symmetry; exact Hm|]. exists e0, rest. repeat split.
Qed.

Lemma grouped_one_two_one e0 e1 e2 :
  section_id e0 = JInt 1 -> section_id e1 = JInt 2 ->
  section_id e2 = JInt 1 ->
  grouped py_repr [e0; e1; e2] =
    [(JInt 1, KNum false 1 0, SectionGroup (sname_of py_repr e0) [e0; e2]);
     (JInt 2, KNum false 1 1, SectionGroup (sname_of py_repr e1) [e1])].
Proof.
  intros H0 H1 H2.
  assert (K0 : entry_key e0 = KNum false 1 0)
    by (unfold entry_key, sid_of; rewrite H0; reflexivity).
  assert (K1 : entry_key e1 = KNum false 1 1)
    by (unfold entry_key, sid_of; rewrite H1; reflexivity).
  assert (K2 : entry_key e2 = KNum false 1 0)
    by (unfold entry_key, sid_of; rewrite H2; reflexivity).
  unfold grouped. cbn [map]. rewrite K0, K1, K2. cbn [first_seen filter
    dict_key_eqb Bool.eqb Pos.eqb Z.eqb andb negb map].
  unfold group_of, members_of. cbn [filter]. rewrite K0, K1, K2. cbn.
  unfold sid_of. rewrite H0, H1. reflexivity.
Qed.

Lemma grouped_zero_none e0 e1 :
  section_id e0 = JInt 0 -> section_id e1 = JNull ->
  grouped py_repr [e0; e1] =
    [(JStr "", KStr "", SectionGroup (sname_of py_repr e0) [e0; e1])].
Proof.
  intros H0 H1.
  assert (K0 : entry_key e0 = KStr "")
    by (unfold entry_key, sid_of; rewrite H0; reflexivity).
  assert (K1 : entry_key e1 = KStr "")
    by (unfold entry_key, sid_of; rewrite H1; reflexivity).
  unfold grouped. cbn [map]. rewrite K0, K1. cbn [first_seen filter
    dict_key_eqb String.eqb negb map].
  unfold group_of, members_of. cbn [filter]. rewrite K0, K1. cbn.
  unfold sid_of. rewrite H0. reflexivity.
Qed.

Lemma key_of_hashable (v : json) :
  (exists k, key_of v = Ok k) <-> hashable v = true.
Proof.
  destruct v; cbn; split; intro H; try reflexivity;
    try (eexists; reflexivity); try discriminate H;
    destruct H as (k & H); discriminate H.
Qed.

Lemma key_of_error (v : json) (e : exn) :
  key_of v = inl e -> e = Exn TypeError [] /\ hashable v = false.
Proof.
  destruct v; cbn; try discriminate; intro H; injection H as <-;
    split; reflexivity.
Qed.

Lemma group_loop_hashable cleaned s res :
  for_each cleaned s (group_entry py_repr) = Ok res ->
  Forall (fun e => hashable (sid_of e) = true) cleaned.
Proof.
  revert s. induction cleaned as [|e l IH]; intros s H; cbn [for_each] in H;
    [constructor|].
  bind_inv H. constructor; [|exact (IH _ H)].
  unfold group_entry in E. fold (sid_of e) in E. bind_inv E.
  apply key_of_hashable. eexists. eassumption.
Qed.

Lemma group_loop_error cleaned s e :
  for_each cleaned s (group_entry py_repr) = inl e ->
  e = Exn TypeError []
  /\ Exists (fun r => hashable (sid_of r) = false) cleaned.
Proof.
  revert s. induction cleaned as [|r l IH]; intros s H; cbn [for_each] in H;
    [discriminate H|].
  destruct (group_entry py_repr s r) as [e'|s'] eqn:E; cbn [bind] in H.
  - injection H as <-. unfold group_entry in E. fold (sid_of r) in E.
    destruct (key_of (sid_of r)) as [e''|k] eqn:Hk; cbn [bind] in E;
      [|discriminate E].
    injection E as <-. apply key_of_error in Hk as [-> Hh].
    split; [reflexivity | left; exact Hh].
  - destruct (IH _ H) as [-> Hex]. split; [reflexivity | right; exact Hex].
Qed.

(** C9, as the code has it.  On a record sequence whose section
    identifiers are hashable (no non-empty list or dict),
    [group_by_section] returns one group per key, in first-seen order;
    the key of a record is its [section_id] when that is truthy and the
    empty string otherwise (missing, [None], 0, [False], the empty
    string, an empty list or dict), so that identifiers 0 and [None]
    share the group of the empty string; each group holds the name (the
    [section_name] of its first record, or the key as text when that is
    falsy) and its records in input order; for identifiers 1, 2, 1 there
    are two groups and group 1 holds the records of positions 0 and 2.
    On a sequence with a record whose identifier is a non-empty list or
    dict it raises [TypeError]. *)
Theorem group_by_section_groups cleaned :
  (Forall (fun e => hashable (sid_of e) = true) cleaned ->
   exists groups,
     group_by_section py_repr cleaned = Ok groups
     /\ map (fun x => snd (fst x)) groups
        = first_seen (map entry_key cleaned)
     /\ (forall sid k g,
           In (sid, k, g) groups ->
           questions g = members_of k cleaned
           /\ exists e0 rest,
               questions g = e0 :: rest
               /\ sid = sid_of e0 /\ name g = sname_of py_repr e0)
     /\ (forall e, section_id e = JNull -> sid_of e = JStr "")
     /\ (forall e, truthy (section_name e) = true ->
                   sname_of py_repr e = section_name e)
     /\ (forall e, section_name e = JNull ->
                   sname_of py_repr e = JStr (py_str py_repr (sid_of e)))
     /\ (forall e0 e1 e2,
           cleaned = [e0; e1; e2] ->
           section_id e0 = JInt 1 -> section_id e1 = JInt 2 ->
           section_id e2 = JInt 1 ->
           exists k1 k2 n1 n2,
             groups = [(JInt 1, k1, SectionGroup n1 [e0; e2]);
                       (JInt 2, k2, SectionGroup n2 [e1])])
     /\ (forall e0 e1,
           cleaned = [e0; e1] ->
           section_id e0 = JInt 0 -> section_id e1 = JNull ->
           exists k n, groups = [(JStr "", k, SectionGroup n [e0; e1])]))
  /\ (Exists (fun e => hashable (sid_of e) = false) cleaned ->
      group_by_section py_repr cleaned = raise TypeError)
  /\ (forall e, truthy (section_id e) = true -> sid_of e = section_id e)
  /\ (forall e, truthy (section_id e) = false -> sid_of e = JStr "")
  /\ (forall e, truthy (section_name e) = false ->
                sname_of py_repr e = JStr (py_str py_repr (sid_of e)))
  /\ (forall e,
        hashable (sid_of e) = false
        <-> (exists x l, section_id e = JArr (x :: l))
            \/ (exists x m, section_id e = JObj (x :: m))).
Proof.
  split; [|split; [|split; [|split; [|split]]]].
  - intro H. exists (grouped py_repr cleaned).
    split; [apply group_by_section_grouped, H|]. split.
    + unfold grouped. rewrite map_map. erewrite map_ext; [apply map_id|].
      intro k. apply group_of_key.
    + split; [intros sid k g; apply grouped_members|].
      split; [intros e He; unfold sid_of; rewrite He; reflexivity|].
      split; [intros e He; unfold sname_of, py_or; rewrite He; reflexivity|].
      split; [intros e He; unfold sname_of; rewrite He; reflexivity|].
      split.
      * intros e0 e1 e2 -> H0 H1 H2.
        rewrite (grouped_one_two_one _ _ _ H0 H1 H2).
        do 4 eexists. reflexivity.
      * intros e0 e1 -> H0 H1. rewrite (grouped_zero_none _ _ H0 H1).
        do 2 eexists. reflexivity.
  - intro Hex. unfold group_by_section.
    destruct (for_each cleaned [] (group_entry py_repr)) as [e|groups] eqn:E.
    + destruct (group_loop_error _ _ _ E) as [-> _]. reflexivity.
    + pose proof (group_loop_hashable _ _ _ E) as Hall.
      apply Exists_exists in Hex as (r & Hr & Hfalse).
      rewrite (proj1 (Forall_forall _ _) Hall r Hr) in Hfalse.
      discriminate Hfalse.
  - intros e He. unfold sid_of, py_or. rewrite He. reflexivity.
  - intros e He. unfold sid_of, py_or. rewrite He. reflexivity.
  - intros e He. unfold sname_of, py_or. rewrite He. reflexivity.
  - intro e. unfold sid_of, py_or.
    destruct (section_id e) as [|b|z|f|t|l|m]; cbn [truthy].
    + split; [discriminate | intros [(x0 & l0 & H) | (x0 & m0 & H)];
                              discriminate H].
    + destruct b; split; try discriminate;
        intros [(x0 & l0 & H) | (x0 & m0 & H)]; discriminate H.
    + destruct (negb (z =? 0)); split; try discriminate;
        intros [(x0 & l0 & H) | (x0 & m0 & H)]; discriminate H.
    + destruct f; split; try discriminate;
        intros [(x0 & l0 & H) | (x0 & m0 & H)]; discriminate H.
    + destruct (negb (t =? "")%string); split; try discriminate;
        intros [(x0 & l0 & H) | (x0 & m0 & H)]; discriminate H.
    + destruct l as [|x l]; split; try discriminate.
      * intros [(x0 & l0 & H) | (x0 & m0 & H)]; discriminate H.
      * intros _. left. exists x, l. reflexivity.
      * intros _. reflexivity.
    + destruct m as [|x m]; split; try discriminate.
      * intros [(x0 & l0 & H) | (x0 & m0 & H)]; discriminate H.
      * intros _. right. exists x, m. reflexivity.
      * intros _. reflexivity.
Qed.

End GrouperFacts.

Lemma group_by_section_groups_witness :
  exists k1 k2 n1 n2,
    group_by_section toy_repr three_records
    = Ok [(JInt 1, k1,
           SectionGroup n1 [record_in 1 "first"; record_in 1 "third"]);
          (JInt 2, k2, SectionGroup n2 [record_in 2 "second"])].
Proof.
  destruct (proj1 (group_by_section_groups toy_repr three_records))
    as (groups & Hg & _ & _ & _ & _ & _ & Hex & _).
  - repeat constructor.
  - destruct (Hex _ _ _ eq_refl eq_refl eq_refl eq_refl)
      as (k1 & k2 & n1 & n2 & ->).
    exists k1, k2, n1, n2. exact Hg.
Defined.

(** C9 as stated fails: a list cannot be a dict key, so a record whose
    section identifier is a list makes the grouping raise. *)
Lemma grouping_raises_on_list_key : ~ grouping_never_fails.
Proof.
  intro H. destruct (H toy_repr [list_keyed_record]) as (groups & Hg).
  discriminate Hg.
Qed.

(* ================================================================== *)
(** * Document Assembler: [create_docx] *)
(* ================================================================== *)

Local Open Scope list_scope.

Lemma add_run_last (doc : document) (par : paragraph) (r : run) :
  add_run (doc ++ [par]) (List.length doc) r = (doc ++ [par ++ [r]])%list.
Proof.
  induction doc as [|p doc IH]; simpl; [reflexivity|].
  rewrite IH. reflexivity.
Qed.

Lemma add_text_paragraph (doc : document) (r : run) :
  (let '(doc', p) := add_paragraph doc in add_run doc' p r)
  = (doc ++ [[r]])%list.
Proof. unfold add_paragraph. apply (add_run_last doc [] r). Qed.

Lemma add_picture_last load_image (doc : document) (data : bytes) (w : Z) :
  add_picture load_image doc data w
  = (_ <- load_image data ;; Ok (doc ++ [[RunPicture data w]])%list).
Proof.
  unfold add_picture. destruct (load_image data) as [e|u]; cbn [bind];
    [reflexivity|].
  f_equal. apply add_text_paragraph.
Qed.

Lemma add_page_break_last (doc : document) :
  add_page_break doc = (doc ++ [[RunPageBreak]])%list.
Proof. apply add_text_paragraph. Qed.

Lemma doc_texts_app (d1 d2 : document) :
  doc_texts (d1 ++ d2) = (doc_texts d1 ++ doc_texts d2)%list.
Proof. apply flat_map_app. Qed.



Lemma load_all_app load_image (l1 l2 : list bytes) :
  load_all load_image (l1 ++ l2)
  = (_ <- load_all load_image l1 ;; load_all load_image l2).
Proof.
  unfold load_all. rewrite for_each_app.
  destruct (for_each l1 tt _) as [e|[]]; reflexivity.
Qed.

Lemma load_all_cons load_image (d : bytes) (l : list bytes) :
  load_all load_image (d :: l)
  = (_ <- load_image d ;; load_all load_image l).
Proof.
  unfold load_all. cbn [for_each].
  destruct (load_image d) as [e|[]]; reflexivity.
Qed.

Lemma load_all_ok load_image (l : list bytes) :
  load_all load_image l = Ok tt
  <-> Forall (fun d => load_image d = Ok tt) l.
Proof.
  induction l as [|d l IH].
  - split; [constructor | reflexivity].
  - rewrite load_all_cons. split.
    + destruct (load_image d) as [e|[]] eqn:E; cbn [bind]; [discriminate|].
      intro H. constructor; [exact E | apply IH, H].
    + intro H. rewrite (Forall_inv H). cbn [bind].
      apply IH, (Forall_inv_tail H).
Qed.


Section AssemblerFacts.

Variable requests : bool.
Variable load_image : bytes -> result unit.
Variable requests_get : string -> Z -> result response.
Variable urljoin : string -> string -> string.

Lemma fetch_image_bytes_resolves img_url base_url :
  img_url <> "" ->
  fetch_image_bytes requests requests_get urljoin img_url base_url
  = if requests
    then download requests_get (resolve_reference urljoin img_url base_url)
    else None.
Proof.
  intro H. unfold fetch_image_bytes, resolve_reference, download.
  apply String.eqb_neq in H. rewrite H.
  destruct requests; cbn [negb]; [|reflexivity].
  assert (Hget : forall url,
             match (resp <- requests_get url 15 ;;
                    _ <- raise_for_status resp ;; Ok (content resp)) with
             | inr data => Some data
             | inl _ => None
             end
             = match requests_get url 15 with
               | inr resp =>
                   if (400 <=? status_code resp) && (status_code resp <? 600)
                   then None else Some (content resp)
               | inl _ => None
               end).
  { intro url. destruct (requests_get url 15) as [e|resp]; cbn [bind];
      [reflexivity|].
    unfold raise_for_status.
    destruct ((400 <=? status_code resp) && (status_code resp <? 600));
      reflexivity. }
  destruct (startswith img_url "//"); [apply Hget|].
  destruct base_url as [base|], (startswith img_url "/"); cbn [andb];
    try apply Hget.
  destruct (base =? "")%string; apply Hget.
Qed.

(** What [fetch_image_bytes] returns is the body of the one request made
    for the address of the reference. *)
Lemma fetch_image_bytes_image_bytes img_url base_url :
  fetch_image_bytes requests requests_get urljoin img_url base_url
  = image_bytes requests requests_get urljoin img_url base_url.
Proof.
  unfold image_bytes. destruct (String.eqb_spec img_url "") as [-> | Hu].
  - reflexivity.
  - apply fetch_image_bytes_resolves, Hu.
Qed.

Lemma add_image_picture base_url doc u :
  add_image requests load_image requests_get urljoin base_url doc u
  = (_ <- load_all load_image
            (fetched requests requests_get urljoin base_url u) ;;
     Ok (doc ++ picture_of requests requests_get urljoin base_url u)%list).
Proof.
  unfold add_image, fetched, picture_of.
  rewrite fetch_image_bytes_image_bytes.
  destruct (image_bytes _ _ _ _ _) as [data|];
    [|cbn; rewrite app_nil_r; reflexivity].
  destruct (nonempty data); [|cbn; rewrite app_nil_r; reflexivity].
  rewrite add_picture_last, load_all_cons.
  destruct (load_image data) as [e|[]]; reflexivity.
Qed.

Lemma add_images_pictures base_url urls doc :
  add_images requests load_image requests_get urljoin base_url doc urls
  = (_ <- load_all load_image
            (flat_map (fetched requests requests_get urljoin base_url) urls) ;;
     Ok (doc ++ pictures requests requests_get urljoin base_url urls)%list).
Proof.
  unfold add_images, pictures. revert doc.
  induction urls as [|u urls IH]; intro doc; cbn [for_each flat_map].
  - cbn. rewrite app_nil_r. reflexivity.
  - rewrite add_image_picture, load_all_app.
    destruct (load_all load_image (fetched _ _ _ _ u)) as [e|[]];
      cbn [bind Ok]; [reflexivity|].
    rewrite IH, app_assoc. reflexivity.
Qed.

Lemma add_options_blocks base_url opts idx doc :
  for_each (enumerate_from idx opts) doc
    (add_option requests load_image requests_get urljoin base_url)
  = (_ <- load_all load_image
            (flat_map (fetched requests requests_get urljoin base_url)
               (flat_map images opts)) ;;
     Ok (doc ++ option_blocks requests requests_get urljoin base_url idx
                  opts)%list).
Proof.
  revert idx doc. induction opts as [|opt opts IH]; intros idx doc;
    cbn [enumerate_from for_each option_blocks flat_map].
  - cbn. rewrite app_nil_r. reflexivity.
  - unfold add_option at 1, add_paragraph. cbv beta iota zeta.
    rewrite add_run_last, add_images_pictures, flat_map_app, load_all_app.
    destruct (load_all load_image
                (flat_map (fetched _ _ _ _) (images opt))) as [e|[]];
      cbn [bind Ok]; [reflexivity|].
    rewrite IH. rewrite <- !app_assoc. reflexivity.
Qed.

Lemma add_entry_blocks base_url doc e :
  add_entry requests load_image requests_get urljoin base_url doc e
  = (_ <- load_all load_image
            (flat_map (fetched requests requests_get urljoin base_url)
               (entry_image_refs e)) ;;
     Ok (doc ++ entry_blocks requests requests_get urljoin base_url e)%list).
Proof.
  unfold add_entry, entry_blocks, entry_image_refs, enumerate, add_paragraph.
  cbv beta iota zeta.
  rewrite add_run_last, add_images_pictures, !flat_map_app, !load_all_app.
  destruct (load_all load_image
              (flat_map (fetched _ _ _ _) (question_images e))) as [e1|[]];
    cbn [bind Ok]; [reflexivity|].
  rewrite add_options_blocks.
  destruct (load_all load_image
              (flat_map (fetched _ _ _ _) (flat_map images (options e))))
    as [e2|[]]; cbn [bind Ok]; [reflexivity|].
  rewrite !add_run_last, add_images_pictures.
  destruct (load_all load_image
              (flat_map (fetched _ _ _ _) (solution_images e))) as [e3|[]];
    cbn [bind Ok]; [reflexivity|].
  rewrite add_page_break_last, <- !app_assoc. reflexivity.
Qed.

Lemma add_entries_blocks base_url cleaned doc :
  for_each cleaned doc
    (add_entry requests load_image requests_get urljoin base_url)
  = (_ <- load_all load_image
            (embedded requests requests_get urljoin base_url cleaned) ;;
     Ok (doc ++ flat_map (entry_blocks requests requests_get urljoin base_url)
                  cleaned)%list).
Proof.
  unfold embedded. revert doc.
  induction cleaned as [|e cleaned IH]; intro doc;
    cbn [for_each flat_map].
  - cbn. rewrite app_nil_r. reflexivity.
  - rewrite add_entry_blocks, flat_map_app, load_all_app.
    destruct (load_all load_image
                (flat_map (fetched _ _ _ _) (entry_image_refs e)))
      as [e1|[]]; cbn [bind Ok]; [reflexivity|].
    rewrite IH, <- app_assoc. reflexivity.
Qed.

(** [create_docx] with the writer installed: the pictures are read in
    the order they are met, and the document is the blocks of the
    records. *)
Lemma create_docx_flat_map cleaned base_url :
  create_docx requests true load_image requests_get urljoin cleaned base_url
  = (_ <- load_all load_image
            (embedded requests requests_get urljoin base_url cleaned) ;;
     Ok (flat_map (entry_blocks requests requests_get urljoin base_url)
           cleaned)).
Proof.
  unfold create_docx. cbn [negb]. rewrite add_entries_blocks. reflexivity.
Qed.


Lemma create_docx_returned cleaned base_url doc :
  create_docx requests true load_image requests_get urljoin cleaned base_url
  = Ok doc ->
  Forall (fun d => load_image d = Ok tt)
    (embedded requests requests_get urljoin base_url cleaned)
  /\ doc = flat_map (entry_blocks requests requests_get urljoin base_url)
             cleaned.
Proof.
  rewrite create_docx_flat_map.
  destruct (load_all load_image _) as [e|[]] eqn:E; cbn [bind];
    [discriminate|].
  intro H. injection H as <-. split; [|reflexivity].
  apply load_all_ok, E.
Qed.

Lemma pictures_texts base_url urls :
  doc_texts (pictures requests requests_get urljoin base_url urls) = [].
Proof.
  unfold pictures, picture_of. induction urls as [|u urls IH]; cbn [flat_map];
    [reflexivity|].
  rewrite doc_texts_app, IH, app_nil_r.
  destruct (image_bytes _ _ _ _ _) as [d|]; [|reflexivity].
  destruct (nonempty d); reflexivity.
Qed.



Lemma option_blocks_texts base_url opts idx :
  doc_texts (option_blocks requests requests_get urljoin base_url idx opts)
  = option_texts idx opts.
Proof.
  revert idx. induction opts as [|opt opts IH]; intro idx;
    cbn [option_blocks option_texts]; [reflexivity|].
  change (?p :: ?a ++ ?b) with ([p] ++ a ++ b).
  rewrite !doc_texts_app, pictures_texts, IH. reflexivity.
Qed.



Lemma entry_blocks_texts base_url e :
  doc_texts (entry_blocks requests requests_get urljoin base_url e)
  = entry_texts e.
Proof.
  unfold entry_blocks, entry_texts.
  rewrite !doc_texts_app, !pictures_texts, option_blocks_texts. reflexivity.
Qed.








End AssemblerFacts.

Section ImageResolution.

Variable requests_get : string -> Z -> result response.
Variable urljoin : string -> string -> string.

(** C8: the address requested for an image reference is the reference
    with [https:] put in front when it begins with two slashes, the
    reference joined to the base URL when it begins with one slash and a
    base URL is supplied, and the reference itself otherwise. *)
Theorem image_reference_resolution :
  (forall img_url base_url,
      img_url <> ""%string ->
      fetch_image_bytes true requests_get urljoin img_url base_url
      = download requests_get (resolve_reference urljoin img_url base_url))
  /\ (forall rest base_url,
        resolve_reference urljoin ("//" ++ rest) base_url
        = ("https://" ++ rest)%string)
  /\ (forall ref base,
        startswith ref "/" = true -> startswith ref "//" = false ->
        base <> ""%string ->
        resolve_reference urljoin ref (Some base) = urljoin base ref)
  /\ (forall ref base_url,
        startswith ref "/" = false ->
        resolve_reference urljoin ref base_url = ref)
  /\ (forall base_url,
        resolve_reference urljoin "//cdn.example.com/x.png" base_url
        = "https://cdn.example.com/x.png"%string)
  /\ (urljoin "https://host.com" "/img/x.png"
        = "https://host.com/img/x.png"%string ->
      resolve_reference urljoin "/img/x.png" (Some "https://host.com"%string)
      = "https://host.com/img/x.png"%string)
  /\ (forall base_url,
        resolve_reference urljoin "https://other.com/x.png" base_url
        = "https://other.com/x.png"%string).
Proof.
  split.
  { intros u b H.
    exact (fetch_image_bytes_resolves true requests_get urljoin u b H). }
  split; [reflexivity|]. split.
  { intros ref base H1 H2 Hb. unfold resolve_reference.
    rewrite H1, H2. apply String.eqb_neq in Hb. rewrite Hb. reflexivity. }
  split.
  { intros ref b H. unfold resolve_reference. rewrite H.
    destruct (startswith ref "//") eqn:H2; [|reflexivity].
    unfold startswith in *.
    destruct ref as [|c ref]; [discriminate H2|]. cbn in H, H2.
    rewrite andb_true_r in H. rewrite H in H2. discriminate H2. }
  split; [reflexivity|]. split; [|reflexivity].
  intro H. unfold resolve_reference. cbn. exact H.
Qed.

End ImageResolution.

(* ------------------------------------------------------------------ *)
(** ** Option slots and their labels *)







Lemma image_reference_resolution_witness :
  fetch_image_bytes true toy_get toy_urljoin "/img/x.png"
    (Some "https://host.com"%string) = Some png
  /\ resolve_reference toy_urljoin "/img/x.png" (Some "https://host.com"%string)
     = "https://host.com/img/x.png"%string
  /\ resolve_reference toy_urljoin "/img/x.png" (Some "https://host.com"%string)
     = toy_urljoin "https://host.com" "/img/x.png"
  /\ resolve_reference toy_urljoin "img/x.png" (Some "https://host.com"%string)
     = "img/x.png"%string.
Proof.
  destruct (image_reference_resolution toy_get toy_urljoin)
    as (Hfetch & _ & Hone & Hnone & _ & Hex & _).
  split; [rewrite Hfetch by discriminate; reflexivity|].
  split; [apply Hex; reflexivity|].
  split; [apply Hone; [reflexivity | reflexivity | discriminate]|].
  apply Hnone. reflexivity.
Defined.

(* ================================================================== *)
(** * Payload Recovery: [fetch_raw_json] *)
(* ================================================================== *)

Local Open Scope string_scope.

Lemma append_assoc (a b c : string) : (a ++ b) ++ c = a ++ b ++ c.
Proof. induction a as [|x a IH]; simpl; [reflexivity | rewrite IH; reflexivity]. Qed.

Lemma iprefix_split (p s : string) :
  iprefix p s = true ->
  exists t rest, s = t ++ rest /\ lower_string t = p
                 /\ drop (String.length p) s = rest.
Proof.
  revert s. induction p as [|a p IH]; intros s H.
  - exists "", s. repeat split.
  - destruct s as [|b s]; [discriminate H|]. cbn in H.
    apply andb_prop in H as [Hab H]. apply Ascii.eqb_eq in Hab.
    destruct (IH s H) as (t & rest & -> & <- & Hd).
    exists (String b t), rest. subst a. repeat split. exact Hd.
Qed.

Lemma iprefix_append (t rest : string) :
  iprefix (lower_string t) (t ++ rest) = true.
Proof.
  induction t as [|c t IH]; [reflexivity|]. cbn.
  rewrite Ascii.eqb_refl. exact IH.
Qed.

Lemma drop_append (t rest : string) :
  drop (String.length (lower_string t)) (t ++ rest) = rest.
Proof. induction t as [|c t IH]; [reflexivity | exact IH]. Qed.

Lemma after_gt_split (s r : string) :
  after_gt s = Some r ->
  exists attrs, s = attrs ++ ">" ++ r /\ has_gt attrs = false.
Proof.
  revert r. induction s as [|c s IH]; intros r H; [discriminate H|].
  cbn in H. destruct (Ascii.eqb c ">") eqn:Hc.
  - injection H as <-. apply Ascii.eqb_eq in Hc. subst c.
    exists "". split; reflexivity.
  - destruct (IH r H) as (attrs & -> & Hg).
    exists (String c attrs). split; [reflexivity|]. cbn. rewrite Hc. exact Hg.
Qed.

Lemma after_gt_append (attrs r : string) :
  has_gt attrs = false -> after_gt (attrs ++ ">" ++ r) = Some r.
Proof.
  induction attrs as [|c attrs IH]; [reflexivity|]. cbn.
  destruct (Ascii.eqb c ">"); [discriminate|]. exact IH.
Qed.

Lemma upto_last_close_split (s g : string) :
  upto_last_close s = Some g ->
  exists close post, s = g ++ close ++ post /\ lower_string close = "</body>".
Proof.
  revert g. induction s as [|c s IH]; intros g H; [discriminate H|].
  cbn [upto_last_close] in H.
  destruct (upto_last_close s) as [g'|].
  - injection H as <-. destruct (IH g' eq_refl) as (close & post & -> & Hc).
    exists close, post. split; [reflexivity | exact Hc].
  - destruct (iprefix "</body>" (String c s)) eqn:Hp; [|discriminate H].
    injection H as <-.
    destruct (iprefix_split _ _ Hp) as (t & rest & Hs & Ht & _).
    exists t, rest. split; [exact Hs | exact Ht].
Qed.

Lemma upto_last_close_append (g close post : string) :
  lower_string close = "</body>" ->
  exists g', upto_last_close (g ++ close ++ post) = Some g'.
Proof.
  intro Hc. induction g as [|c g [g' IH]].
  - cbn [append]. pose proof (iprefix_append close post) as Hp.
    rewrite Hc in Hp.
    destruct (close ++ post) as [|c s]; [discriminate Hp|].
    cbn [upto_last_close].
    destruct (upto_last_close s) as [g'|]; [eexists; reflexivity|].
    rewrite Hp. eexists; reflexivity.
  - cbn [append upto_last_close]. rewrite IH. eexists; reflexivity.
Qed.

Lemma match_body_here_sound (s g : string) :
  match_body_here s = Some g -> body_match s g.
Proof.
  unfold match_body_here. intro H.
  destruct (iprefix "<body" s) eqn:Hp; [|discriminate H].
  destruct (iprefix_split _ _ Hp) as (tag & rest & -> & Htag & Hd).
  change (String.length "<body") with 5%nat in Hd. rewrite Hd in H.
  destruct (after_gt rest) as [r|] eqn:Hr; [|discriminate H].
  destruct (after_gt_split _ _ Hr) as (attrs & -> & Hattrs).
  destruct (upto_last_close_split _ _ H) as (close & post & -> & Hclose).
  exists "", tag, attrs, close, post. repeat split; assumption.
Qed.

Lemma search_body_sound (s g : string) :
  search_body s = Some g -> body_match s g.
Proof.
  induction s as [|c s IH]; cbn [search_body].
  - destruct (match_body_here "") eqn:Hm; [|discriminate].
    intro H. injection H as <-. apply match_body_here_sound, Hm.
  - destruct (match_body_here (String c s)) eqn:Hm.
    + intro H. injection H as <-. apply match_body_here_sound, Hm.
    + intro H. destruct (IH H) as (pre & tag & attrs & close & post & -> & Hr).
      exists (String c pre), tag, attrs, close, post.
      split; [reflexivity | exact Hr].
Qed.

Lemma search_body_complete (s g : string) :
  body_match s g -> search_body s <> None.
Proof.
  intros (pre & tag & attrs & close & post & -> & Htag & Hattrs & Hclose).
  assert (Hhere : match_body_here
                    (tag ++ attrs ++ ">" ++ g ++ close ++ post) <> None).
  { unfold match_body_here.
    pose proof (iprefix_append tag (attrs ++ ">" ++ g ++ close ++ post)) as Hp.
    pose proof (drop_append tag (attrs ++ ">" ++ g ++ close ++ post)) as Hd.
    rewrite Htag in Hp, Hd. rewrite Hp.
    change (String.length "<body") with 5%nat in Hd. rewrite Hd.
    rewrite (after_gt_append _ _ Hattrs).
    destruct (upto_last_close_append g close post Hclose) as (g' & ->).
    discriminate. }
  remember (tag ++ attrs ++ ">" ++ g ++ close ++ post) as t eqn:Ht.
  clear Ht. induction pre as [|c pre IH].
  - cbn [append]. destruct t as [|c t]; cbn [search_body];
      destruct (match_body_here _) eqn:E; congruence.
  - cbn [append search_body].
    destruct (match_body_here (String c (pre ++ t)));
      [discriminate | exact IH].
Qed.

Lemma upto_last_close_none (s : string) :
  upto_last_close s = None ->
  forall a b, s = a ++ b -> iprefix "</body>" b = false.
Proof.
  induction s as [|c s IH]; intros H a b Hs.
  - destruct a; [|discriminate Hs]. cbn in Hs. subst b. reflexivity.
  - cbn [upto_last_close] in H.
    destruct (upto_last_close s) as [g|]; [discriminate H|].
    destruct (iprefix "</body>" (String c s)) eqn:Hp; [discriminate H|].
    destruct a as [|x a]; cbn in Hs.
    + subst b. exact Hp.
    + injection Hs as _ Hs. exact (IH eq_refl a b Hs).
Qed.

Lemma upto_last_close_last (s g : string) :
  upto_last_close s = Some g ->
  exists close post,
    s = g ++ close ++ post /\ lower_string close = "</body>"
    /\ (forall q1 q2,
          close ++ post = q1 ++ q2 -> q1 <> "" ->
          iprefix "</body>" q2 = false).
Proof.
  revert g. induction s as [|c s IH]; intros g H; [discriminate H|].
  cbn [upto_last_close] in H.
  destruct (upto_last_close s) as [g'|] eqn:Hs.
  - injection H as <-.
    destruct (IH g' eq_refl) as (close & post & -> & Hc & Hl).
    exists close, post. repeat split; assumption.
  - destruct (iprefix "</body>" (String c s)) eqn:Hp; [|discriminate H].
    injection H as <-.
    destruct (iprefix_split _ _ Hp) as (t & rest & Ht & Hc & _).
    exists t, rest. split; [exact Ht|]. split; [exact Hc|].
    intros q1 q2 Hq Hne. rewrite <- Ht in Hq.
    destruct q1 as [|x q1]; [contradiction|]. cbn in Hq.
    injection Hq as _ Hq. exact (upto_last_close_none s Hs q1 q2 Hq).
Qed.

Lemma match_body_here_first (s g : string) :
  match_body_here s = Some g -> first_body_match s g.
Proof.
  unfold match_body_here. intro H.
  destruct (iprefix "<body" s) eqn:Hp; [|discriminate H].
  destruct (iprefix_split _ _ Hp) as (tag & rest & -> & Htag & Hd).
  change (String.length "<body") with 5%nat in Hd. rewrite Hd in H.
  destruct (after_gt rest) as [r|] eqn:Hr; [|discriminate H].
  destruct (after_gt_split _ _ Hr) as (attrs & -> & Hattrs).
  destruct (upto_last_close_last _ _ H) as (close & post & -> & Hclose & Hl).
  exists "", tag, attrs, close, post.
  repeat (split; [reflexivity || assumption|]). split; [|exact Hl].
  intros p1 p2 Hpre Hne. destruct p1; cbn in Hpre; [|discriminate Hpre].
  subst p2. contradiction.
Qed.

Lemma search_body_first (s g : string) :
  search_body s = Some g -> first_body_match s g.
Proof.
  induction s as [|c s IH]; cbn [search_body].
  - destruct (match_body_here "") eqn:Hm; [|discriminate].
    intro H. injection H as <-. apply match_body_here_first, Hm.
  - destruct (match_body_here (String c s)) eqn:Hm.
    + intro H. injection H as <-. apply match_body_here_first, Hm.
    + intro H.
      destruct (IH H)
        as (pre & tag & attrs & close & post & -> & Ht & Ha & Hc & Hf & Hl).
      exists (String c pre), tag, attrs, close, post.
      repeat (split; [reflexivity || assumption|]). split; [|exact Hl].
      intros p1 p2 Hpre Hne. destruct p1 as [|x p1]; cbn in Hpre.
      * subst p2. exact Hm.
      * injection Hpre as _ Hpre. exact (Hf p1 p2 Hpre Hne).
Qed.

Lemma first_body_match_body_match (s g : string) :
  first_body_match s g -> body_match s g.
Proof.
  intros (pre & tag & attrs & close & post & Hs & Ht & Ha & Hc & _).
  exists pre, tag, attrs, close, post. repeat split; assumption.
Qed.

Section RecoveryFacts.

Variable json_loads : string -> result json.
Variable html_unescape : string -> string.
Variable requests : bool.
Variable requests_get : string -> Z -> result response.
Variable INPUT_FILE : option string.
Variable os_path_exists : string -> bool.
Variable open_read : string -> result string.

Lemma try_extract_recover (first : result json) (content : string) :
  try_except first
    (extract_json_from_html_wrapper json_loads html_unescape content)
  = recover json_loads html_unescape first content.
Proof.
  unfold extract_json_from_html_wrapper, recover, body_region, quotes_fixed.
  assert (Hr : match search_body content with
               | Some g => strip g
               | None => strip content
               end
               = strip match search_body content with
                       | Some g => g
                       | None => content
                       end)
    by (destruct (search_body content); reflexivity).
  rewrite Hr. unfold try_except.
  destruct first as [e1|v]; [|reflexivity].
  destruct (json_loads (html_unescape _)) as [e2|v]; [|reflexivity].
  destruct (json_loads (replace _ _ _)) as [e3|v]; [|reflexivity].
  unfold during. cbn [exn_is exn_context]. rewrite <- app_assoc.
  reflexivity.
Qed.

(** C2, as the code has it: recovery runs its strategies in a fixed
    order: the direct parse of the raw content; when that fails, the
    parse of the body region (what lies between the first opening body
    tag that has a closing tag after it and the last closing tag, letter
    case ignored, line breaks included; the whole content when there is
    none), trimmed and with its entities decoded; when that fails, the
    parse of the same text with every backslash-quote replaced by a
    quote.  When all three fail, what is raised is the failure of the
    last parse itself, not an error of the program's own; the earlier
    failures, the original one included, are in its context chain. *)
Theorem payload_recovery_strategies :
  (forall path content series_id,
      INPUT_FILE = Some path -> path <> "" ->
      os_path_exists path = true -> open_read path = Ok content ->
      fetch_raw_json json_loads html_unescape requests requests_get
        INPUT_FILE os_path_exists open_read series_id
      = recover json_loads html_unescape (json_loads content) content)
  /\ (forall sid resp,
        nonblank INPUT_FILE = false -> sid <> "" -> requests = true ->
        requests_get (QUESTION_API_PATTERN sid) 300 = Ok resp ->
        raise_for_status resp = Ok tt ->
        fetch_raw_json json_loads html_unescape requests requests_get
          INPUT_FILE os_path_exists open_read (Some sid)
        = recover json_loads html_unescape (resp_json resp) (resp_text resp))
  /\ (forall first content v,
        first = Ok v ->
        recover json_loads html_unescape first content = Ok v)
  /\ (forall first content e1 v,
        first = inl e1 ->
        json_loads (html_unescape (body_region content)) = Ok v ->
        recover json_loads html_unescape first content = Ok v)
  /\ (forall first content e1 e2 v,
        first = inl e1 ->
        json_loads (html_unescape (body_region content)) = inl e2 ->
        json_loads (quotes_fixed (html_unescape (body_region content)))
          = Ok v ->
        recover json_loads html_unescape first content = Ok v)
  /\ (forall first content e1 e2 e3,
        first = inl e1 ->
        json_loads (html_unescape (body_region content)) = inl e2 ->
        json_loads (quotes_fixed (html_unescape (body_region content)))
          = inl e3 ->
        exists e,
          recover json_loads html_unescape first content = inl e
          /\ exn_is e = exn_is e3
          /\ In (exn_is e2) (exn_context e)
          /\ In (exn_is e1) (exn_context e))
  /\ (forall content g,
        search_body content = Some g -> first_body_match content g)
  /\ (forall content,
        search_body content = None ->
        (forall g, ~ body_match content g)
        /\ body_region content = strip content).
Proof.
  split.
  { intros path content sid Hf Hp He Hr. unfold fetch_raw_json.
    rewrite Hf. cbn [nonblank]. apply String.eqb_neq in Hp. rewrite Hp.
    cbn [negb]. rewrite He, Hr. cbn [negb bind Ok].
    apply try_extract_recover. }
  split.
  { intros sid resp Hf Hs Hq Hg Hst. unfold fetch_raw_json.
    rewrite Hf. cbn [nonblank]. apply String.eqb_neq in Hs. rewrite Hs.
    cbn [negb]. unfold fetch_json_from_url.
    assert (Hu : (QUESTION_API_PATTERN sid =? "") = false) by reflexivity.
    rewrite Hu, Hq, Hg. cbn [negb bind Ok]. rewrite Hst. cbn [bind Ok].
    apply try_extract_recover. }
  split; [intros first content v ->; reflexivity|].
  split; [intros first content e1 v -> H; unfold recover; rewrite H;
          reflexivity|].
  split; [intros first content e1 e2 v -> H2 H3; unfold recover;
          rewrite H2, H3; reflexivity|].
  split.
  { intros first content e1 e2 e3 -> H2 H3. unfold recover.
    rewrite H2, H3. eexists. split; [reflexivity|].
    cbn [exn_is exn_context]. split; [reflexivity|].
    split; apply in_or_app; right.
    - left. reflexivity.
    - right. apply in_or_app. right. left. reflexivity. }
  split; [exact search_body_first|].
  intros content H. split.
  - intros g Hm. exact (search_body_complete _ _ Hm H).
  - unfold body_region. rewrite H. reflexivity.
Qed.

End RecoveryFacts.

Lemma payload_recovery_strategies_witness :
  fetch_raw_json toy_loads toy_unescape false toy_get (Some "payload.html")
    (fun _ => true) (fun _ => Ok wrapped_payload) None
  = Ok JNull
  /\ exists e,
      recover toy_loads toy_unescape (toy_loads "<body>oops</body>")
        "<body>oops</body>" = inl e
      /\ exn_is e = JSONDecodeError "Expecting value" "oops" 0
      /\ In (JSONDecodeError "Expecting value" "<body>oops</body>" 0)
           (exn_context e).
Proof.
  destruct (payload_recovery_strategies toy_loads toy_unescape false toy_get
              (Some "payload.html") (fun _ => true)
              (fun _ => Ok wrapped_payload))
    as (Hfile & _ & _ & Hsecond & _ & Hall & _).
  split.
  - rewrite (Hfile "payload.html" _ None eq_refl) by
      (discriminate || reflexivity).
    eapply Hsecond; reflexivity.
  - destruct (Hall (toy_loads "<body>oops</body>") "<body>oops</body>"
                _ _ _ eq_refl eq_refl eq_refl) as (e & He & Hk & _ & H1).
    exists e. split; [exact He|]. split; [exact Hk | exact H1].
Defined.

(** C2 as stated fails: on a page that no strategy can parse, what
    leaves the recovery is the decoder's own [JSONDecodeError] for the
    last text tried; the program has no [RecoveryError]. *)
Lemma no_recovery_error : ~ recovery_error_raised.
Proof.
  intro H.
  destruct (H toy_loads toy_unescape "<body>oops</body>"%string _ _
              eq_refl eq_refl) as (e & He & Hc).
  vm_compute in He. injection He as <-. discriminate Hc.
Qed.


(* ================================================================== *)
(** * Record Normalizer: traversal and record invariants *)
(* ================================================================== *)

Local Open Scope Z_scope.
Local Open Scope list_scope.

Lemma collect_singletons {A} (l : list A) :
  collect (fun x => Ok [x]) l = Ok l.
Proof.
  induction l as [|x l IH]; [reflexivity|]. cbn [collect bind Ok].
  rewrite IH. reflexivity.
Qed.

(** A loop whose body appends, for each item, the images under [R] of
    what [f] expands the item to. *)
Lemma for_each_collect {A B C} (f : A -> result (list B)) (R : B -> C -> Prop)
    (body : list C -> A -> result (list C)) (l : list A) :
  (forall s x s',
      body s x = Ok s' <->
      exists ys rs, f x = Ok ys /\ Forall2 R ys rs /\ s' = s ++ rs) ->
  forall s res,
    for_each l s body = Ok res <->
    exists ys rs, collect f l = Ok ys /\ Forall2 R ys rs /\ res = s ++ rs.
Proof.
  intro Hbody. induction l as [|x l IH]; intros s res; cbn [for_each collect].
  - split.
    + intro H. injection H as <-. exists [], []. split; [reflexivity|].
      split; [constructor | symmetry; apply app_nil_r].
    + intros (ys & rs & Hy & HR & ->). injection Hy as <-.
      inversion HR. subst. rewrite app_nil_r. reflexivity.
  - split.
    + intro H. bind_inv H.
      apply Hbody in E as (ys1 & rs1 & Hf & HR1 & ->).
      apply IH in H as (ys2 & rs2 & Hc & HR2 & ->).
      exists (ys1 ++ ys2), (rs1 ++ rs2). rewrite Hf, Hc. cbn [bind Ok].
      split; [reflexivity|]. split; [apply Forall2_app; assumption|].
      symmetry. apply app_assoc.
    + intros (ys & rs & Hy & HR & ->).
      destruct (f x) as [e|ys1] eqn:Hf; [discriminate Hy|]. cbn [bind] in Hy.
      destruct (collect f l) as [e|ys2] eqn:Hc; [discriminate Hy|].
      cbn [bind Ok] in Hy. injection Hy as <-.
      apply Forall2_app_inv_l in HR as (rs1 & rs2 & HR1 & HR2 & ->).
      assert (Hb : body s x = Ok (s ++ rs1)).
      { apply Hbody. exists ys1, rs1. repeat split; assumption. }
      rewrite Hb. cbn [bind Ok]. apply IH.
      exists ys2, rs2. split; [reflexivity|]. split; [exact HR2|].
      apply app_assoc.
Qed.

Lemma Forall2_map_l {A B C} (g : A -> B) (R : B -> C -> Prop)
    (l : list A) (rs : list C) :
  Forall2 R (map g l) rs <-> Forall2 (fun x r => R (g x) r) l rs.
Proof.
  revert rs. induction l as [|x l IH]; intros rs; cbn [map]; split; intro H;
    inversion H; subst; constructor; try assumption; apply IH; assumption.
Qed.

(** Both sides of an equivalence start with the same step: when it
    fails, neither side returns. *)
Ltac shared_step x :=
  match goal with
  | |- (bind ?c _ = _) <-> _ =>
      destruct c as [?|x]; cbn [bind];
      [split; [discriminate | intros (? & ? & Hfail & _); discriminate Hfail]|]
  end.

Section TraversalFacts.

Variable BeautifulSoup : string -> soup.
Variable max_digits : nat.
Variable py_repr : json -> string.

Lemma question_loop lang sec_id sec_name (qs : list json) s res :
  for_each qs s (fun cleaned q =>
    e <- process_question BeautifulSoup max_digits lang sec_id sec_name q ;;
    Ok (cleaned ++ [e]))
  = Ok res <->
  exists rs,
    Forall2 (fun q r =>
               process_question BeautifulSoup max_digits lang sec_id sec_name q
               = Ok r) qs rs
    /\ res = s ++ rs.
Proof.
  rewrite (for_each_collect (fun q => Ok [q])
             (fun q r => process_question BeautifulSoup max_digits lang
                           sec_id sec_name q = Ok r)).
  - rewrite collect_singletons. split.
    + intros (ys & rs & Hy & HR & ->). injection Hy as <-. exists rs.
      split; [exact HR | reflexivity].
    + intros (rs & HR & ->). exists qs, rs. repeat split. exact HR.
  - intros s0 q s'. split.
    + intro H. bind_inv H. injection H as <-. exists [q], [e].
      repeat split. constructor; [exact E | constructor].
    + intros (ys & rs & Hy & HR & ->). injection Hy as <-.
      inversion HR as [|? r ? rs' Hq Hnil]; subst. inversion Hnil; subst.
      rewrite Hq. reflexivity.
Qed.

Lemma process_section_questions lang s section_entry res :
  process_section BeautifulSoup max_digits py_repr lang s section_entry
  = Ok res <->
  exists ts rs,
    section_questions py_repr section_entry = Ok ts
    /\ Forall2 (record_of BeautifulSoup max_digits lang) ts rs
    /\ res = s ++ rs.
Proof.
  unfold process_section, section_questions.
  shared_step a. shared_step b. shared_step c. shared_step d.
  shared_step aq. shared_step q_lists.
  set (sec_id := py_or a b).
  set (sec_name := py_or (py_or c d) (JStr (py_str py_repr sec_id))).
  rewrite (for_each_collect py_iter
             (fun q r => process_question BeautifulSoup max_digits lang
                           sec_id sec_name q = Ok r)).
  - split.
    + intros (ys & rs & Hy & HR & ->). rewrite Hy. cbn [bind Ok].
      eexists. exists rs. split; [reflexivity|]. split; [|reflexivity].
      apply (proj2 (Forall2_map_l (fun q => (sec_id, sec_name, q))
                      (record_of BeautifulSoup max_digits lang) ys rs)).
      exact HR.
    + intros (ts & rs & Hy & HR & ->).
      destruct (collect py_iter q_lists) as [e|ys]; [discriminate Hy|].
      cbn [bind Ok] in Hy. injection Hy as <-.
      exists ys, rs. split; [reflexivity|]. split; [|reflexivity].
      exact (proj1 (Forall2_map_l (fun q => (sec_id, sec_name, q))
                      (record_of BeautifulSoup max_digits lang) ys rs) HR).
  - intros s0 q_list s'. split.
    + intro H. bind_inv H. apply question_loop in H as (rs & HR & ->).
      exists l, rs. repeat split. exact HR.
    + intros (ys & rs & Hy & HR & ->). rewrite Hy. cbn [bind Ok].
      apply question_loop. exists rs. split; [exact HR | reflexivity].
Qed.

(** X1: [process_data] returns exactly when the walk over the payload
    succeeds and every question object it meets yields a record; the
    records are then those of the question objects, one each, in the
    order of the walk. *)
Theorem process_data_follows_payload raw_json lang recs :
  process_data BeautifulSoup max_digits py_repr raw_json lang = Ok recs <->
  exists ts,
    payload_questions py_repr raw_json = Ok ts
    /\ Forall2 (record_of BeautifulSoup max_digits lang) ts recs.
Proof.
  unfold process_data, payload_questions.
  destruct (get_or raw_json "data" (JArr [])) as [e|data]; cbn [bind];
    [split; [discriminate | intros (? & H & _); discriminate H]|].
  destruct (py_iter data) as [e|sections]; cbn [bind];
    [split; [discriminate | intros (? & H & _); discriminate H]|].
  rewrite (for_each_collect (section_questions py_repr)
             (record_of BeautifulSoup max_digits lang)).
  - split.
    + intros (ts & rs & Hy & HR & ->). exists ts. split; assumption.
    + intros (ts & Hy & HR). exists ts, recs. repeat split; assumption.
  - intros s se s'. apply process_section_questions.
Qed.


Lemma get_field m k :
  (forall v, lookup m k = Some v -> textual v = true) ->
  exists v, get (JObj m) k = Ok v /\ textual v = true.
Proof.
  intro H. unfold get, get_or. destruct (lookup m k) as [v|].
  - exists v. split; [reflexivity | exact (H v eq_refl)].
  - exists JNull. split; reflexivity.
Qed.

Lemma get_any m k : exists v, get (JObj m) k = Ok v.
Proof. unfold get, get_or. eexists. reflexivity. Qed.

Lemma process_question_returns lang sec_id sec_name q :
  textual_question lang q ->
  exists r,
    process_question BeautifulSoup max_digits lang sec_id sec_name q = Ok r.
Proof.
  intros (m & -> & H). unfold process_question.
  assert (Hf : forall k, In k (html_fields lang) ->
               exists v, get (JObj m) k = Ok v /\ textual v = true).
  { intros k Hk. apply get_field. intros v. exact (H k v Hk). }
  destruct (get_any m "qid") as (v1 & ->). cbn [bind Ok].
  destruct (get_any m "topic_id") as (v2 & ->). cbn [bind Ok].
  destruct (Hf ("question_" ++ lang)%string) as (v3 & -> & T3);
    [left; reflexivity|].
  cbn [bind Ok].
  destruct (parse_html_field_textual BeautifulSoup (py_or v3 (JStr "")))
    as ([qt qi] & ->); [apply py_or_textual; [exact T3 | reflexivity]|].
  cbn [bind Ok].
  assert (Hopts : forall l acc,
             (forall i, In i l -> In i [1; 2; 3; 4; 5]) ->
             exists opts,
               for_each l acc (option_slot BeautifulSoup lang (JObj m))
               = Ok opts).
  { induction l as [|i l IH]; intros acc Hl; [eexists; reflexivity|].
    cbn [for_each]. unfold option_slot at 1.
    destruct (Hf (option_field lang i)) as (v & Hv & T).
    { do 4 right. apply in_map, Hl. left. reflexivity. }
    unfold option_field in Hv. rewrite Hv. cbn [bind Ok].
    assert (Hl' : forall j, In j l -> In j [1; 2; 3; 4; 5])
      by (intros j Hj; apply Hl; right; exact Hj).
    destruct (truthy v); [|apply IH, Hl'].
    destruct (parse_html_field_textual BeautifulSoup v T) as ([t imgs] & ->).
    cbn [bind Ok].
    destruct (negb (t =? "")%string || nonempty imgs); cbn [bind Ok];
      apply IH, Hl'. }
  destruct (Hopts [1; 2; 3; 4; 5] [] (fun i Hi => Hi)) as (opts & ->).
  cbn [bind Ok].
  assert (Hans : exists a, resolve_answer BeautifulSoup max_digits lang
                             (JObj m) opts = Ok a).
  { unfold resolve_answer.
    destruct (Hf "answer_en"%string) as (ar & -> & Tar);
      [right; left; reflexivity|].
    cbn [bind Ok]. destruct (truthy ar); [|eexists; reflexivity].
    assert (Hfb : exists a, answer_fallback BeautifulSoup lang (JObj m) ar
                            = Ok a).
    { unfold answer_fallback.
      destruct (Hf ("answer_" ++ lang)%string) as (a & -> & Ta);
        [do 2 right; left; reflexivity|].
      cbn [bind Ok].
      destruct (parse_html_field_textual BeautifulSoup (py_or a ar))
        as ([t imgs] & ->); [apply py_or_textual; assumption|].
      eexists. reflexivity. }
    destruct Hfb as (a & Hfb). unfold try_except.
    destruct (py_int max_digits ar) as [e|i0]; cbn [bind].
    - rewrite Hfb. eexists. reflexivity.
    - destruct ((1 <=? i0) && (i0 <=? len opts)); [eexists; reflexivity|].
      rewrite Hfb. eexists. reflexivity. }
  destruct Hans as ([ai at_] & ->). cbn [bind Ok].
  destruct (Hf ("solution_" ++ lang)%string) as (v4 & -> & T4);
    [do 3 right; left; reflexivity|].
  cbn [bind Ok].
  destruct (parse_html_field_textual BeautifulSoup (py_or v4 (JStr "")))
    as ([st si] & ->); [apply py_or_textual; [exact T4 | reflexivity]|].
  eexists. reflexivity.
Qed.

Lemma produce_all lang ts :
  Forall (fun t => textual_question lang (snd t)) ts ->
  exists recs, Forall2 (record_of BeautifulSoup max_digits lang) ts recs.
Proof.
  induction 1 as [|[[sec_id sec_name] q] ts Hq _ (recs & IH)].
  - exists []. constructor.
  - cbn in Hq.
    destruct (process_question_returns lang sec_id sec_name q Hq) as (r & Hr).
    exists (r :: recs). constructor; [exact Hr | exact IH].
Qed.

(** X2: a payload whose walk succeeds and whose question objects hold
    only text or null in the fields that are parsed as markup never makes
    [process_data] raise: it returns one record per question object. *)
Theorem textual_payload_never_raises raw_json lang ts :
  payload_questions py_repr raw_json = Ok ts ->
  Forall (fun t => textual_question lang (snd t)) ts ->
  exists recs,
    process_data BeautifulSoup max_digits py_repr raw_json lang = Ok recs
    /\ List.length recs = List.length ts.
Proof.
  intros Hts Hq. destruct (produce_all lang ts Hq) as (recs & HR).
  exists recs. split.
  - apply process_data_follows_payload. exists ts. split; assumption.
  - symmetry. exact (Forall2_length HR).
Qed.

(** X3: the answer index is read from [answer_en] whatever the language:
    two records of one question object, built for any two languages, have
    the same [answer_index] as soon as they retain as many options. *)
Theorem answer_index_ignores_language lang1 lang2 s1 n1 s2 n2 q r1 r2 :
  process_question BeautifulSoup max_digits lang1 s1 n1 q = Ok r1 ->
  process_question BeautifulSoup max_digits lang2 s2 n2 q = Ok r2 ->
  len (options r1) = len (options r2) ->
  answer_index r1 = answer_index r2.
Proof.
  clear py_repr. intros H1 H2 Hl.
  destruct (answer_by_index_holds BeautifulSoup max_digits _ _ _ _ _ H1)
    as (ar & Har & [I1 _]).
  destruct (answer_by_index_holds BeautifulSoup max_digits _ _ _ _ _ H2)
    as (ar' & Har' & [I2 _]).
  rewrite Har in Har'. injection Har' as <-.
  assert (Hsame : forall idx,
             answer_index r1 = Some idx <-> answer_index r2 = Some idx).
  { intro idx. rewrite I1, I2. unfold valid_choice. rewrite Hl. tauto. }
  destruct (answer_index r1) as [i|].
  - symmetry. apply Hsame. reflexivity.
  - destruct (answer_index r2) as [j|]; [|reflexivity].
    apply Hsame. reflexivity.
Qed.

Lemma img_src_nonblank (l : list node) :
  nonblank_refs (flat_map img_src l).
Proof.
  unfold nonblank_refs. induction l as [|n l IH]; cbn [flat_map];
    [constructor|].
  apply Forall_app. split; [|exact IH]. unfold img_src.
  destruct (tag_get n "src") as [src|]; [|constructor].
  destruct (String.eqb_spec src ""); repeat constructor. assumption.
Qed.

Lemma normalized_empty : normalized "".
Proof. split; reflexivity. Qed.

Lemma parse_html_field_clean v t imgs :
  parse_html_field BeautifulSoup v = Ok (t, imgs) ->
  normalized t /\ nonblank_refs imgs.
Proof.
  unfold parse_html_field. destruct (truthy v) eqn:Hv; cbn [negb].
  - destruct v; try discriminate. intro H. injection H as <- <-.
    rewrite collect_src_fold. cbn [app]. split; [|apply img_src_nonblank].
    split; [|apply strip_idempotent].
    apply rstrip_single_spaced, lstrip_single_spaced,
      sub_spaces_single_spaced.
  - intro H. injection H as <- <-. split; [apply normalized_empty|].
    constructor.
Qed.

Lemma process_question_texts lang sec_id sec_name q r :
  process_question BeautifulSoup max_digits lang sec_id sec_name q = Ok r ->
  exists qf sf,
    parse_html_field BeautifulSoup qf
      = Ok (question_text r, question_images r)
    /\ parse_html_field BeautifulSoup sf
       = Ok (solution_text r, solution_images r).
Proof.
  unfold process_question. intro H.
  do 3 bind_inv H. bind_inv H. destruct p as [qt qi].
  bind_inv H. bind_inv H. destruct p as [ai at_].
  bind_inv H. bind_inv H. destruct p as [st si].
  injection H as <-. cbn. eexists. eexists. split; eassumption.
Qed.

Lemma label_normalized (i : Z) : 0 <= i < 5 -> normalized (item labels i).
Proof.
  intro H.
  assert (Hi : i = 0 \/ i = 1 \/ i = 2 \/ i = 3 \/ i = 4) by lia.
  destruct Hi as [-> | [-> | [-> | [-> | ->]]]]; split; reflexivity.
Qed.

Lemma process_question_clean lang sec_id sec_name q r :
  process_question BeautifulSoup max_digits lang sec_id sec_name q = Ok r ->
  clean_record r.
Proof.
  intro H.
  destruct (process_question_texts _ _ _ _ _ H) as (qf & sf & Hq & Hs).
  apply parse_html_field_clean in Hq as [Hq1 Hq2].
  apply parse_html_field_clean in Hs as [Hs1 Hs2].
  destruct (options_at_most_five BeautifulSoup max_digits _ _ _ _ _ H)
    as (cs & Hcs & Ho & H5).
  destruct (process_question_inv BeautifulSoup max_digits _ _ _ _ _ H)
    as (_ & Ha & _).
  repeat (split; [assumption|]). split.
  - apply resolve_answer_spec in Ha as (ar & _ & Hcases).
    destruct Hcases
      as [(_ & _ & ->) | [(_ & n & [_ Hn] & _ & ->) | (_ & _ & _ & Hp)]].
    + apply normalized_empty.
    + assert (Hlt : (n - 1 <? len labels) = true)
        by (apply Z.ltb_lt; change (len labels) with 5; lia).
      rewrite Hlt. apply label_normalized. lia.
    + destruct Hp as (a & imgs & _ & Hp).
      apply parse_html_field_clean in Hp as [Hp _]. exact Hp.
  - rewrite Ho. apply Forall_map, Forall_forall. intros c Hc.
    apply filter_In in Hc as [Hin Hpop].
    assert (Hres : exists i, slot_resolves BeautifulSoup lang q i c).
    { clear - Hcs Hin. induction Hcs as [|i c' l cs' Hic _ IH];
        [destruct Hin|].
      destruct Hin as [<- | Hin]; [exists i; exact Hic | exact (IH Hin)]. }
    destruct Hres as (i & v & _ & Hp). destruct c as [t imgs].
    apply parse_html_field_clean in Hp as [Hp1 Hp2].
    unfold clean_option, to_option. cbn [text images fst snd].
    split; [exact Hp1|]. split; [exact Hp2|].
    unfold populated in Hpop. cbn [fst snd] in Hpop.
    apply orb_prop in Hpop as [Ht | Hi].
    + left. apply negb_true_iff, String.eqb_neq in Ht. exact Ht.
    + right. destruct imgs; [discriminate Hi | discriminate].
Qed.

(** X4: every record [process_data] returns is clean: its question,
    solution, answer and option texts have single spaces and no blank at
    either end, none of its image references is empty, and every option
    it keeps has text or at least one image. *)
Theorem process_data_records_clean raw_json lang recs :
  process_data BeautifulSoup max_digits py_repr raw_json lang = Ok recs ->
  Forall clean_record recs.
Proof.
  intro H. apply (process_data_produced BeautifulSoup max_digits py_repr) in H.
  eapply Forall_impl; [|exact H]. cbv beta.
  intros r (q & sec_id & sec_name & Hq).
  exact (process_question_clean _ _ _ _ _ Hq).
Qed.

End TraversalFacts.

Lemma process_data_follows_payload_witness :
  exists ts,
    payload_questions toy_repr sample_payload = Ok ts
    /\ Forall2 (record_of toy_soup 0 "en") ts [sample_record].
Proof.
  apply (proj1 (process_data_follows_payload toy_soup 0 toy_repr
                  sample_payload "en" [sample_record])).
  reflexivity.
Defined.

Lemma textual_payload_never_raises_witness :
  exists recs,
    process_data toy_soup 0 toy_repr sample_payload "en" = Ok recs
    /\ List.length recs = 1%nat.
Proof.
  apply (textual_payload_never_raises toy_soup 0 toy_repr sample_payload "en"
           [(JInt 1, JStr "Colours"%string, sample_question)] eq_refl).
  constructor; [|constructor]. eexists. split; [reflexivity|].
  intros k v Hk. cbn in Hk.
  repeat (destruct Hk as [<- | Hk]; [cbn; intro E; inversion E; reflexivity|]).
  destruct Hk.
Defined.

Lemma answer_index_ignores_language_witness :
  answer_index bilingual_record_en = answer_index bilingual_record_hi.
Proof.
  apply (answer_index_ignores_language toy_soup 0 "en" "hi"
           JNull JNull JNull JNull bilingual_question);
    reflexivity.
Defined.

Lemma process_data_records_clean_witness :
  Forall clean_record [sample_record].
Proof.
  apply (process_data_records_clean toy_soup 0 toy_repr sample_payload "en").
  reflexivity.
Defined.

Local Open Scope Z_scope.
Local Open Scope list_scope.

(* ================================================================== *)
(** * Section Grouper: failure and partition *)
(* ================================================================== *)

Lemma filed_append_question (s : sections_dict) (k : dict_key) (e : entry) :
  has_key s k = true ->
  Permutation (filed (append_question s k e)) (e :: filed s).
Proof.
  induction s as [|[[sid k'] g] s IH]; cbn [has_key existsb]; [discriminate|].
  cbn [append_question]. destruct (dict_key_eqb k' k); cbn [orb].
  - intros _. unfold filed. cbn [flat_map snd questions].
    rewrite <- app_assoc. cbn [app].
    symmetry. apply Permutation_middle.
  - intro H. unfold filed in *. cbn [flat_map snd].
    rewrite (IH H). symmetry. apply Permutation_middle.
Qed.

Lemma has_key_app (s1 s2 : sections_dict) (k : dict_key) :
  has_key (s1 ++ s2) k = has_key s1 k || has_key s2 k.
Proof. apply existsb_app. Qed.

Section PartitionFacts.

Variable py_repr : json -> string.

Lemma group_entry_filed s e s' :
  group_entry py_repr s e = Ok s' -> Permutation (filed s') (e :: filed s).
Proof.
  unfold group_entry. intro H. bind_inv H. injection H as <-.
  destruct (has_key s d) eqn:Hk; cbn [negb].
  - apply filed_append_question, Hk.
  - rewrite filed_append_question.
    + unfold filed. rewrite flat_map_app. cbn. rewrite app_nil_r.
      reflexivity.
    + rewrite has_key_app. cbn. rewrite dict_key_eqb_refl.
      apply orb_true_r.
Qed.

Lemma group_loop_filed cleaned s res :
  for_each cleaned s (group_entry py_repr) = Ok res ->
  Permutation (filed res) (filed s ++ cleaned).
Proof.
  revert s. induction cleaned as [|e l IH]; intros s H; cbn [for_each] in H.
  - injection H as <-. rewrite app_nil_r. reflexivity.
  - bind_inv H. rewrite (IH _ H), (group_entry_filed _ _ _ E).
    cbn [app]. apply Permutation_middle.
Qed.

(** X5: [group_by_section] returns exactly when no record has a
    non-empty list or dict as section identifier; otherwise it raises
    [TypeError], and nothing else can make it raise. *)
Theorem group_by_section_fails_on_unhashable cleaned :
  ((exists groups, group_by_section py_repr cleaned = Ok groups)
   <-> Forall (fun e => hashable (sid_of e) = true) cleaned)
  /\ (forall e,
        group_by_section py_repr cleaned = inl e ->
        e = Exn TypeError []
        /\ Exists (fun r => hashable (sid_of r) = false) cleaned).
Proof.
  split; [split|].
  - intros (groups & H). exact (group_loop_hashable _ _ _ _ H).
  - intro H. exists (grouped py_repr cleaned).
    apply group_by_section_grouped, H.
  - intro e. apply group_loop_error.
Qed.

(** X6: the groups partition the input: every record is filed once,
    under the key of its own section identifier; keys are pairwise
    distinct and no group is empty. *)
Theorem group_by_section_partitions cleaned groups :
  group_by_section py_repr cleaned = Ok groups ->
  Permutation (filed groups) cleaned
  /\ NoDup (group_keys groups)
  /\ (forall sid k g,
        In (sid, k, g) groups ->
        questions g <> []
        /\ Forall (fun e => entry_key e = k) (questions g)).
Proof.
  intro H. split; [exact (group_loop_filed _ _ _ H)|].
  pose proof (group_loop_hashable _ _ _ _ H) as Hh.
  rewrite (group_by_section_grouped py_repr cleaned Hh) in H.
  injection H as <-. split.
  - unfold group_keys, grouped. rewrite map_map.
    erewrite map_ext; [rewrite map_id; apply first_seen_NoDup|].
    intro k. apply group_of_key.
  - intros sid k g Hin.
    destruct (grouped_members py_repr _ _ _ _ Hin)
      as (Hq & e0 & rest & Hq' & _).
    split; [rewrite Hq'; discriminate|].
    rewrite Hq. unfold members_of. apply Forall_forall. intros e He.
    apply filter_In in He as [_ He]. apply dict_key_eqb_eq, He.
Qed.

End PartitionFacts.

Lemma group_by_section_fails_on_unhashable_witness :
  (exists groups, group_by_section toy_repr three_records = Ok groups)
  /\ group_by_section toy_repr [record_in 1 "first"; dict_keyed_record]
     = inl (Exn TypeError []).
Proof.
  split.
  - apply (proj1 (group_by_section_fails_on_unhashable toy_repr three_records)).
    repeat constructor.
  - destruct (group_by_section toy_repr [record_in 1 "first"; dict_keyed_record])
      as [e|groups] eqn:E; [|discriminate E].
    destruct (proj2 (group_by_section_fails_on_unhashable toy_repr
                       [record_in 1 "first"; dict_keyed_record]) e E)
      as [-> _].
    reflexivity.
Defined.

Lemma group_by_section_partitions_witness :
  exists groups,
    group_by_section toy_repr three_records = Ok groups
    /\ Permutation (filed groups) three_records
    /\ NoDup (group_keys groups).
Proof.
  eexists. split; [reflexivity|].
  destruct (group_by_section_partitions toy_repr three_records _ eq_refl)
    as (Hp & Hn & _).
  split; [exact Hp | exact Hn].
Defined.


(* ================================================================== *)
(** * Document Assembler: shape and composition *)
(* ================================================================== *)

Local Open Scope Z_scope.
Local Open Scope list_scope.

Lemma page_breaks_app (d1 d2 : document) :
  page_breaks (d1 ++ d2) = (page_breaks d1 + page_breaks d2)%nat.
Proof. unfold page_breaks. rewrite flat_map_app. apply length_app. Qed.

Lemma one_run_each_count (doc : document) :
  one_run_each doc ->
  List.length doc
  = (List.length (doc_texts doc) + List.length (doc_pictures doc)
     + page_breaks doc)%nat.
Proof.
  unfold one_run_each, page_breaks, doc_texts, doc_pictures.
  induction 1 as [|p doc Hp _ IH]; [reflexivity|].
  destruct p as [|r [|r' p]]; try discriminate Hp.
  cbn [flat_map List.length]. rewrite !length_app, IH.
  destruct r; cbn; lia.
Qed.

Section ShapeFacts.

Variable requests : bool.
Variable docx : bool.
Variable load_image : bytes -> result unit.
Variable requests_get : string -> Z -> result response.
Variable urljoin : string -> string -> string.

Lemma pictures_shape base_url urls :
  one_run_each (pictures requests requests_get urljoin base_url urls)
  /\ page_breaks (pictures requests requests_get urljoin base_url urls) = 0%nat.
Proof.
  unfold pictures, one_run_each.
  induction urls as [|u urls [IH1 IH2]]; cbn [flat_map];
    [split; [constructor | reflexivity]|].
  rewrite page_breaks_app, IH2. unfold picture_of at 1 3.
  destruct (image_bytes _ _ _ _ _) as [d|];
    [|split; [exact IH1 | reflexivity]].
  destruct (nonempty d); [|split; [exact IH1 | reflexivity]].
  split; [constructor; [reflexivity | exact IH1] | reflexivity].
Qed.

Lemma option_blocks_shape base_url opts idx :
  one_run_each (option_blocks requests requests_get urljoin base_url idx opts)
  /\ page_breaks (option_blocks requests requests_get urljoin base_url idx opts)
     = 0%nat.
Proof.
  revert idx. induction opts as [|o opts IH]; intro idx; cbn [option_blocks];
    [split; [constructor | reflexivity]|].
  destruct (IH (idx + 1)) as [IH1 IH2].
  destruct (pictures_shape base_url (images o)) as [P1 P2].
  split.
  - constructor; [reflexivity|]. apply Forall_app. split; assumption.
  - change (?p :: ?d) with ([p] ++ d). rewrite !page_breaks_app, P2, IH2.
    reflexivity.
Qed.

Lemma entry_blocks_shape base_url e :
  one_run_each (entry_blocks requests requests_get urljoin base_url e)
  /\ page_breaks (entry_blocks requests requests_get urljoin base_url e)
     = 1%nat
  /\ exists body,
       entry_blocks requests requests_get urljoin base_url e
       = body ++ [[RunPageBreak]].
Proof.
  unfold entry_blocks.
  destruct (pictures_shape base_url (question_images e)) as [Q1 Q2].
  destruct (pictures_shape base_url (solution_images e)) as [S1 S2].
  destruct (option_blocks_shape base_url (options e) 0) as [O1 O2].
  split; [|split].
  - unfold one_run_each. rewrite !Forall_app.
    repeat split; try assumption; repeat constructor.
  - rewrite !page_breaks_app, Q2, S2, O2. reflexivity.
  - eexists. rewrite !app_assoc. reflexivity.
Qed.

Lemma blocks_shape base_url cleaned :
  one_run_each
    (flat_map (entry_blocks requests requests_get urljoin base_url) cleaned)
  /\ page_breaks
       (flat_map (entry_blocks requests requests_get urljoin base_url) cleaned)
     = List.length cleaned.
Proof.
  induction cleaned as [|e cleaned [IH1 IH2]]; cbn [flat_map];
    [split; [constructor | reflexivity]|].
  destruct (entry_blocks_shape base_url e) as (E1 & E2 & _).
  split.
  - apply Forall_app. split; assumption.
  - rewrite page_breaks_app, E2, IH2. reflexivity.
Qed.

Lemma create_docx_inv cleaned base_url doc :
  create_docx requests docx load_image requests_get urljoin cleaned base_url
  = Ok doc ->
  docx = true
  /\ Forall (fun d => load_image d = Ok tt)
       (embedded requests requests_get urljoin base_url cleaned)
  /\ doc = flat_map (entry_blocks requests requests_get urljoin base_url)
             cleaned.
Proof.
  destruct docx; [|discriminate].
  intro H. split; [reflexivity|].
  exact (create_docx_returned _ _ _ _ _ _ _ H).
Qed.

(** X7: in every document [create_docx] returns, each paragraph holds
    exactly one run (a text, a picture or a page break), there is one page
    break per record, the paragraphs are the texts, the pictures and the
    page breaks and nothing else, and the document ends with a page break
    unless there was no record, in which case it is empty. *)
Theorem create_docx_shape cleaned base_url doc :
  create_docx requests docx load_image requests_get urljoin cleaned base_url
  = Ok doc ->
  one_run_each doc
  /\ page_breaks doc = List.length cleaned
  /\ List.length doc
     = (List.length (doc_texts doc) + List.length (doc_pictures doc)
        + List.length cleaned)%nat
  /\ (cleaned = [] -> doc = [])
  /\ (cleaned <> [] -> last doc [] = [RunPageBreak]).
Proof.
  intro H. apply create_docx_inv in H as (_ & _ & ->).
  destruct (blocks_shape base_url cleaned) as [B1 B2].
  split; [exact B1|]. split; [exact B2|]. split; [|split].
  - rewrite (one_run_each_count _ B1), B2. reflexivity.
  - intros ->. reflexivity.
  - intro Hne. destruct (exists_last Hne) as (l & e & ->).
    rewrite flat_map_app. cbn [flat_map]. rewrite app_nil_r.
    destruct (entry_blocks_shape base_url e) as (_ & _ & body & ->).
    rewrite app_assoc. apply last_last.
Qed.

Lemma embedded_app base_url l1 l2 :
  embedded requests requests_get urljoin base_url (l1 ++ l2)
  = embedded requests requests_get urljoin base_url l1
    ++ embedded requests requests_get urljoin base_url l2.
Proof. unfold embedded. rewrite !flat_map_app. reflexivity. Qed.

(** X8: [create_docx] composes: the document of two lists of records put
    end to end is the document of the first followed by the document of
    the second, and it is returned exactly when both are; when it is
    not, the exception is that of the first list if it has one, and
    that of the second otherwise. *)
Theorem create_docx_app l1 l2 base_url :
  (forall doc,
      create_docx requests docx load_image requests_get urljoin (l1 ++ l2)
        base_url = Ok doc
      <-> exists d1 d2,
            create_docx requests docx load_image requests_get urljoin l1
              base_url = Ok d1
            /\ create_docx requests docx load_image requests_get urljoin l2
                 base_url = Ok d2
            /\ doc = d1 ++ d2)
  /\ (forall e,
        create_docx requests docx load_image requests_get urljoin (l1 ++ l2)
          base_url = inl e
        <-> create_docx requests docx load_image requests_get urljoin l1
              base_url = inl e
            \/ (exists d1,
                   create_docx requests docx load_image requests_get urljoin
                     l1 base_url = Ok d1)
               /\ create_docx requests docx load_image requests_get urljoin
                    l2 base_url = inl e).
Proof.
  destruct docx.
  - rewrite !create_docx_flat_map, embedded_app, load_all_app, flat_map_app.
    destruct (load_all load_image
                (embedded requests requests_get urljoin base_url l1))
      as [e1|[]]; cbn [bind];
      destruct (load_all load_image
                  (embedded requests requests_get urljoin base_url l2))
        as [e2|[]]; cbn [bind]; unfold Ok; split.
    + intro doc. split; [discriminate|].
      intros (d1 & d2 & H & _). discriminate H.
    + intro e. split; [intro H; left; exact H|].
      intros [H | ((d1 & H) & _)]; [exact H | discriminate H].
    + intro doc. split; [discriminate|].
      intros (d1 & d2 & H & _). discriminate H.
    + intro e. split; [intro H; left; exact H|].
      intros [H | ((d1 & H) & _)]; [exact H | discriminate H].
    + intro doc. split; [discriminate|].
      intros (d1 & d2 & _ & H & _). discriminate H.
    + intro e. split.
      * intro H. right. split; [eexists; reflexivity | exact H].
      * intros [H | (_ & H)]; [discriminate H | exact H].
    + intro doc. split.
      * intro H. injection H as <-. do 2 eexists.
        split; [reflexivity|]. split; reflexivity.
      * intros (d1 & d2 & H1 & H2 & ->).
        injection H1 as <-. injection H2 as <-. reflexivity.
    + intro e. split; [discriminate|].
      intros [H | (_ & H)]; discriminate H.
  - unfold create_docx. cbn [negb]. split.
    + intro doc. split; [discriminate|].
      intros (d1 & d2 & H & _). discriminate H.
    + intro e. split; [intro H; left; exact H|].
      intros [H | ((d1 & H) & _)]; [exact H | discriminate H].
Qed.

End ShapeFacts.

Section OfflineFacts.

Variable load_image : bytes -> result unit.
Variable requests_get : string -> Z -> result response.
Variable urljoin : string -> string -> string.



End OfflineFacts.

Lemma create_docx_shape_witness :
  exists doc,
    create_docx true true toy_load_image toy_get toy_urljoin
      [illustrated_record] (Some "https://host.com"%string) = Ok doc
    /\ page_breaks doc = 1%nat
    /\ List.length doc = 9%nat.
Proof.
  eexists. split; [reflexivity|].
  destruct (create_docx_shape true true toy_load_image toy_get toy_urljoin
              [illustrated_record] (Some "https://host.com"%string) _ eq_refl)
    as (_ & Hb & Hl & _).
  split; [exact Hb | exact Hl].
Defined.


(* ================================================================== *)
(** * Payload Recovery: the body search, escaped payloads, early failures *)
(* ================================================================== *)

Local Open Scope Z_scope.
Local Open Scope string_scope.

Lemma upto_last_close_none_iff (s : string) :
  (forall a b, s = a ++ b -> iprefix "</body>" b = false) ->
  upto_last_close s = None.
Proof.
  induction s as [|c s IH]; intro H; [reflexivity|].
  cbn [upto_last_close]. rewrite IH.
  - rewrite (H "" (String c s) eq_refl). reflexivity.
  - intros a b ->. apply (H (String c a) b). reflexivity.
Qed.

Lemma upto_last_close_exact (g close post : string) :
  lower_string close = "</body>" ->
  (forall q1 q2,
      close ++ post = q1 ++ q2 -> q1 <> "" -> iprefix "</body>" q2 = false) ->
  upto_last_close (g ++ close ++ post) = Some g.
Proof.
  intros Hc Hlast. induction g as [|c g IH].
  - cbn [append]. pose proof (iprefix_append close post) as Hp.
    rewrite Hc in Hp.
    destruct (close ++ post) as [|c s] eqn:E; [discriminate Hp|].
    cbn [upto_last_close]. rewrite upto_last_close_none_iff.
    + rewrite Hp. reflexivity.
    + intros a b ->. apply (Hlast (String c a) b); [reflexivity|discriminate].
  - cbn [append upto_last_close]. rewrite IH. reflexivity.
Qed.

Lemma lower_string_length (s : string) :
  String.length (lower_string s) = String.length s.
Proof. induction s as [|c s IH]; cbn; [reflexivity | now rewrite IH]. Qed.

Lemma match_body_here_exact (tag attrs g close post : string) :
  lower_string tag = "<body" ->
  has_gt attrs = false ->
  lower_string close = "</body>" ->
  (forall q1 q2,
      close ++ post = q1 ++ q2 -> q1 <> "" -> iprefix "</body>" q2 = false) ->
  match_body_here (tag ++ attrs ++ ">" ++ g ++ close ++ post) = Some g.
Proof.
  intros Ht Ha Hc Hlast. unfold match_body_here.
  pose proof (iprefix_append tag (attrs ++ ">" ++ g ++ close ++ post)) as Hp.
  rewrite Ht in Hp. rewrite Hp.
  pose proof (drop_append tag (attrs ++ ">" ++ g ++ close ++ post)) as Hd.
  rewrite Ht in Hd. cbn [String.length] in Hd. rewrite Hd.
  rewrite (after_gt_append _ _ Ha).
  apply upto_last_close_exact; assumption.
Qed.

Lemma search_body_here (s g : string) :
  match_body_here s = Some g -> search_body s = Some g.
Proof. intro H. destruct s; cbn [search_body]; rewrite H; reflexivity. Qed.

Lemma first_body_match_search (s g : string) :
  first_body_match s g -> search_body s = Some g.
Proof.
  intros (pre & tag & attrs & close & post & -> & Ht & Ha & Hc & Hpre & Hlast).
  induction pre as [|c pre IH].
  - apply search_body_here.
    exact (match_body_here_exact tag attrs g close post Ht Ha Hc Hlast).
  - assert (Hn : match_body_here
                   (String c pre ++ tag ++ attrs ++ ">" ++ g ++ close ++ post)
                 = None)
      by (apply (Hpre "" (String c pre) eq_refl); discriminate).
    cbn [append] in Hn |- *. cbn [search_body]. rewrite Hn.
    apply IH. intros p1 p2 -> Hp2.
    apply (Hpre (String c p1) p2); [reflexivity | exact Hp2].
Qed.

(** X10: the body search is exact: it returns a group precisely when
    that group is the one of the leftmost opening body tag that can be
    closed, taken up to the last closing tag; hence it finds a match
    whenever the content has a body element at all, and the group it
    returns is unique. *)
Theorem search_body_exact (s : string) :
  (forall g, search_body s = Some g <-> first_body_match s g)
  /\ (forall g, body_match s g -> exists g', search_body s = Some g')
  /\ (forall g1 g2,
        first_body_match s g1 -> first_body_match s g2 -> g1 = g2).
Proof.
  split; [|split].
  - intro g. split; [apply search_body_first | apply first_body_match_search].
  - intros g H. pose proof (search_body_complete s g H) as Hn.
    destruct (search_body s) as [g'|]; [eexists; reflexivity|].
    exfalso. apply Hn. reflexivity.
  - intros g1 g2 H1 H2. apply first_body_match_search in H1, H2.
    rewrite H1 in H2. injection H2 as ->. reflexivity.
Qed.

Lemma escape_quotes_head (s : string) :
  is_prefix dquote (escape_quotes s) = false.
Proof.
  destruct s as [|c s]; [reflexivity|]. cbn [escape_quotes].
  destruct (Ascii.eqb c "034") eqn:E; [reflexivity|].
  unfold dquote. cbn [is_prefix]. rewrite andb_true_r, Ascii.eqb_sym.
  exact E.
Qed.

Lemma quotes_fixed_escape_quotes (d : string) :
  quotes_fixed (escape_quotes d) = d.
Proof.
  unfold quotes_fixed, replace.
  induction d as [|c d IH]; [reflexivity|]. cbn [escape_quotes].
  destruct (Ascii.eqb c "034") eqn:E.
  - apply Ascii.eqb_eq in E. subst c.
    change (replace_skipping 0 (backslash ++ dquote) dquote
              (String "092" (String "034" (escape_quotes d))))
      with (String "034" (replace_skipping 0 (backslash ++ dquote) dquote
                            (escape_quotes d))).
    rewrite IH. reflexivity.
  - cbn [replace_skipping].
    assert (Hp : is_prefix (backslash ++ dquote)
                   (String c (escape_quotes d)) = false).
    { unfold backslash, dquote. cbn [append is_prefix].
      pose proof (escape_quotes_head d) as Hh. unfold dquote in Hh.
      destruct (escape_quotes d) as [|c' s']; [apply andb_false_r|].
      cbn [is_prefix] in Hh |- *. rewrite andb_true_r in Hh |- *.
      rewrite Hh. apply andb_false_r. }
    rewrite Hp, IH. reflexivity.
Qed.

Section EscapedFacts.

Variable json_loads : string -> result json.
Variable html_unescape : string -> string.

(** X11: an escaped payload comes back: when the body of a page is a
    document whose quotes have been escaped, blanks around it aside, and
    the decoder refuses it in that state, recovery returns what the
    decoder makes of the document itself. *)
Theorem escaped_payload_round_trip page g d e v :
  first_body_match page g ->
  strip g = escape_quotes d ->
  html_unescape (escape_quotes d) = escape_quotes d ->
  json_loads (escape_quotes d) = inl e ->
  json_loads d = Ok v ->
  extract_json_from_html_wrapper json_loads html_unescape page = Ok v.
Proof.
  intros Hm Hs Hu He Hd. unfold extract_json_from_html_wrapper.
  rewrite (first_body_match_search _ _ Hm), Hs, Hu, He.
  fold (quotes_fixed (escape_quotes d)).
  rewrite quotes_fixed_escape_quotes, Hd. reflexivity.
Qed.

End EscapedFacts.

Section EarlyFailures.

Variable json_loads : string -> result json.
Variable html_unescape : string -> string.
Variable requests : bool.
Variable requests_get : string -> Z -> result response.
Variable INPUT_FILE : option string.
Variable os_path_exists : string -> bool.
Variable open_read : string -> result string.

(** X12: what stops [fetch_raw_json] before anything is parsed.  With an
    input file configured the series identifier and the network play no
    part: a missing file raises [FileNotFoundError] and a failed read is
    raised as it is.  Without one, a missing or empty series identifier
    raises [ValueError], a missing HTTP client [RuntimeError], a failed
    request is raised as it is and an error status raises [HTTPError];
    in none of these cases is recovery attempted. *)
Theorem fetch_raw_json_early_failures :
  (forall path series_id,
      INPUT_FILE = Some path -> path <> "" ->
      os_path_exists path = false ->
      fetch_raw_json json_loads html_unescape requests requests_get
        INPUT_FILE os_path_exists open_read series_id
      = raise FileNotFoundError)
  /\ (forall path series_id e,
        INPUT_FILE = Some path -> path <> "" ->
        os_path_exists path = true -> open_read path = inl e ->
        fetch_raw_json json_loads html_unescape requests requests_get
          INPUT_FILE os_path_exists open_read series_id
        = inl e)
  /\ (forall path series_id requests' requests_get',
        INPUT_FILE = Some path -> path <> "" ->
        fetch_raw_json json_loads html_unescape requests' requests_get'
          INPUT_FILE os_path_exists open_read series_id
        = fetch_raw_json json_loads html_unescape requests requests_get
            INPUT_FILE os_path_exists open_read None)
  /\ (forall series_id,
        nonblank INPUT_FILE = false -> nonblank series_id = false ->
        fetch_raw_json json_loads html_unescape requests requests_get
          INPUT_FILE os_path_exists open_read series_id
        = raise ValueError)
  /\ (forall sid,
        nonblank INPUT_FILE = false -> sid <> "" -> requests = false ->
        fetch_raw_json json_loads html_unescape requests requests_get
          INPUT_FILE os_path_exists open_read (Some sid)
        = raise RuntimeError)
  /\ (forall sid e,
        nonblank INPUT_FILE = false -> sid <> "" -> requests = true ->
        requests_get (QUESTION_API_PATTERN sid) 300 = inl e ->
        fetch_raw_json json_loads html_unescape requests requests_get
          INPUT_FILE os_path_exists open_read (Some sid)
        = inl e)
  /\ (forall sid resp,
        nonblank INPUT_FILE = false -> sid <> "" -> requests = true ->
        requests_get (QUESTION_API_PATTERN sid) 300 = Ok resp ->
        (400 <= status_code resp < 600)%Z ->
        fetch_raw_json json_loads html_unescape requests requests_get
          INPUT_FILE os_path_exists open_read (Some sid)
        = raise HTTPError).
Proof.
  assert (Hfile : forall path, INPUT_FILE = Some path -> path <> "" ->
                               nonblank INPUT_FILE = true).
  { intros path -> Hp. cbn. apply String.eqb_neq in Hp. rewrite Hp.
    reflexivity. }
  assert (Hsid : forall sid, sid <> "" -> nonblank (Some sid) = true).
  { intros sid Hp. cbn. apply String.eqb_neq in Hp. rewrite Hp.
    reflexivity. }
  unfold fetch_raw_json. repeat split.
  - intros path sid Hi Hp He. rewrite (Hfile path Hi Hp), Hi, He.
    reflexivity.
  - intros path sid e Hi Hp He Hr. rewrite (Hfile path Hi Hp), Hi, He, Hr.
    reflexivity.
  - intros path sid r g Hi Hp. rewrite (Hfile path Hi Hp). reflexivity.
  - intros sid Hi Hs. rewrite Hi, Hs. reflexivity.
  - intros sid Hi Hs Hr. rewrite Hi, (Hsid sid Hs). cbn [negb].
    unfold fetch_json_from_url, QUESTION_API_PATTERN. cbn [append String.eqb].
    rewrite Hr. reflexivity.
  - intros sid e Hi Hs Hr Hg. rewrite Hi, (Hsid sid Hs). cbn [negb].
    unfold fetch_json_from_url. fold (QUESTION_API_PATTERN sid) in *.
    replace (QUESTION_API_PATTERN sid =? "") with false by reflexivity.
    rewrite Hr, Hg. reflexivity.
  - intros sid resp Hi Hs Hr Hg Hst. rewrite Hi, (Hsid sid Hs). cbn [negb].
    unfold fetch_json_from_url.
    replace (QUESTION_API_PATTERN sid =? "") with false by reflexivity.
    rewrite Hr, Hg. cbn [bind Ok negb]. unfold raise_for_status.
    assert (Hb : (400 <=? status_code resp)%Z && (status_code resp <? 600)%Z
                 = true).
    { apply andb_true_intro.
      split; [apply Z.leb_le | apply Z.ltb_lt]; lia. }
    rewrite Hb. reflexivity.
Qed.

End EarlyFailures.

Lemma escaped_payload_round_trip_witness :
  toy_loads_quoted (escape_quotes quoted_document)
  = raise (JSONDecodeError "Expecting value" (escape_quotes quoted_document) 0)
  /\ extract_json_from_html_wrapper toy_loads_quoted toy_unescape escaped_page
     = Ok (JStr "a").
Proof.
  split; [reflexivity|].
  apply (escaped_payload_round_trip toy_loads_quoted toy_unescape
           escaped_page (" " ++ escape_quotes quoted_document ++ " ")
           quoted_document
           (Exn (JSONDecodeError "Expecting value"
                   (escape_quotes quoted_document) 0) [])
           (JStr "a")).
  - apply search_body_first. reflexivity.
  - reflexivity.
  - reflexivity.
  - reflexivity.
  - reflexivity.
Defined.


(* ================================================================== *)
(** * Field Extractor: text that is already clean *)
(* ================================================================== *)

Local Open Scope Z_scope.
Local Open Scope string_scope.

Lemma sub_spaces_single_spaced_id (prev : bool) (t : string) :
  single_spaced prev t = true -> sub_spaces prev t = t.
Proof.
  revert prev. induction t as [|c t IH]; intros prev H; [reflexivity|].
  cbn [single_spaced sub_spaces] in *. destruct (isspace c).
  - apply andb_prop in H as [H H3]. apply andb_prop in H as [H1 H2].
    apply Ascii.eqb_eq in H1. subst c.
    destruct prev; [discriminate H2|]. rewrite (IH true H3). reflexivity.
  - rewrite (IH false H). reflexivity.
Qed.

Section ExtractorFixpoint.

Variable BeautifulSoup : string -> soup.

(** X13: the Field Extractor leaves its own output alone: given back a
    text it has returned, which the parser reads as a single piece of
    text, it returns that text unchanged and no image reference. *)
Theorem parse_html_field_idempotent v t imgs :
  parse_html_field BeautifulSoup v = Ok (t, imgs) ->
  BeautifulSoup t = [NText t] ->
  parse_html_field BeautifulSoup (JStr t) = Ok (t, []).
Proof.
  intros H Hs. destruct (parse_html_field_clean _ _ _ _ H) as [[Hn Ht] _].
  unfold parse_html_field. cbn [truthy].
  destruct (t =? "") eqn:E; cbn [negb].
  - apply String.eqb_eq in E. subst t. reflexivity.
  - rewrite Hs. unfold get_text, find_all.
    cbn [flat_map all_strings app map filter find_all_in fold_left].
    rewrite Ht, E. cbn [negb join].
    rewrite (sub_spaces_single_spaced_id _ _ Hn), Ht. reflexivity.
Qed.

End ExtractorFixpoint.

Lemma parse_html_field_idempotent_witness :
  parse_html_field toy_soup (JStr "  two   words ") = Ok ("two words", [])
  /\ parse_html_field toy_soup (JStr "two words") = Ok ("two words", []).
Proof.
  split; [reflexivity|].
  apply (parse_html_field_idempotent toy_soup (JStr "  two   words ")
           "two words" []); reflexivity.
Defined.


(* ================================================================== *)
(** * Routes: responses, unhandled failures, sections *)
(* ================================================================== *)

Local Open Scope Z_scope.
Local Open Scope string_scope.
Local Open Scope list_scope.

Lemma lang_known (lang : string) :
  (lang =? "en")%string || (lang =? "hi")%string = true
  <-> lang = "en"%string \/ lang = "hi"%string.
Proof.
  rewrite orb_true_iff, !String.eqb_eq. reflexivity.
Qed.

Lemma lang_unknown (lang : string) :
  (lang =? "en")%string || (lang =? "hi")%string = false
  <-> lang <> "en"%string /\ lang <> "hi"%string.
Proof.
  rewrite orb_false_iff, !String.eqb_neq. reflexivity.
Qed.

Lemma nonempty_false {A} (l : list A) : nonempty l = false <-> l = [].
Proof. destruct l; split; intro H; try reflexivity; discriminate H. Qed.

Lemma nonempty_true {A} (l : list A) : nonempty l = true <-> l <> [].
Proof.
  destruct l; split; intro H; try reflexivity; try discriminate.
  exfalso. apply H. reflexivity.
Qed.

Lemma blocks_texts requests requests_get urljoin base_url (l : list entry) :
  doc_texts (flat_map (entry_blocks requests requests_get urljoin base_url) l)
  = flat_map entry_texts l.
Proof.
  induction l as [|e l IH]; [reflexivity|]. cbn [flat_map].
  rewrite doc_texts_app, entry_blocks_texts, IH. reflexivity.
Qed.

Lemma key_of_int_not_str (z : Z) (s : string) : key_of_int z <> KStr s.
Proof.
  destruct z as [|p|p]; cbn; try discriminate;
    destruct (odd_part p); discriminate.
Qed.

Lemma key_of_float_not_str (f : spec_float) (s : string) :
  key_of_float f <> KStr s.
Proof. destruct f; cbn; try discriminate; destruct (odd_part m); discriminate. Qed.

Lemma entry_key_str (e : entry) (s : string) :
  entry_key e = KStr s <-> sid_of e = JStr s.
Proof.
  unfold entry_key. split.
  - destruct (sid_of e) as [|b|z|f|t|l|m]; cbn; try discriminate.
    + intro H. exfalso. exact (key_of_int_not_str _ _ H).
    + intro H. exfalso. exact (key_of_int_not_str _ _ H).
    + intro H. exfalso. exact (key_of_float_not_str _ _ H).
    + intro H. injection H as ->. reflexivity.
  - intros ->. reflexivity.
Qed.

Lemma members_of_str_nil (recs : list entry) (s : string) :
  members_of (KStr s) recs = [] <-> Forall (fun r => sid_of r <> JStr s) recs.
Proof.
  unfold members_of. induction recs as [|r recs IH]; cbn [filter].
  - split; [constructor | reflexivity].
  - destruct (dict_key_eqb (entry_key r) (KStr s)) eqn:E.
    + apply dict_key_eqb_eq, entry_key_str in E. split; [discriminate|].
      intro H. apply Forall_inv in H. contradiction.
    + apply dict_key_eqb_neq in E. rewrite IH. split.
      * intro H. constructor; [|exact H]. intro Hs. apply E.
        apply entry_key_str, Hs.
      * intro H. exact (Forall_inv_tail H).
Qed.

Lemma find_key (l : list dict_key) (k : dict_key) :
  find (fun k' => dict_key_eqb k' k) l
  = if existsb (fun k' => dict_key_eqb k' k) l then Some k else None.
Proof.
  induction l as [|a l IH]; [reflexivity|]. cbn [find existsb].
  destruct (dict_key_eqb a k) eqn:E; [|exact IH].
  apply dict_key_eqb_eq in E. subst a. reflexivity.
Qed.

Lemma members_of_key_In (recs : list entry) (k : dict_key) :
  In k (map entry_key recs) <-> members_of k recs <> [].
Proof.
  unfold members_of. induction recs as [|r recs IH]; cbn [map In filter].
  - split; [intros [] | intro H; apply H; reflexivity].
  - destruct (dict_key_eqb (entry_key r) k) eqn:E.
    + apply dict_key_eqb_eq in E. split; [discriminate | auto].
    + apply dict_key_eqb_neq in E. rewrite <- IH. tauto.
Qed.

Lemma sections_get_grouped py_repr (recs : list entry) (k : dict_key) :
  sections_get (grouped py_repr recs) k
  = match members_of k recs with
    | [] => None
    | e0 :: _ =>
        Some (SectionGroup (sname_of py_repr e0) (members_of k recs))
    end.
Proof.
  unfold sections_get, grouped.
  assert (Hmap : forall l,
             find (fun '(_, k', _) => dict_key_eqb k' k)
               (map (group_of py_repr recs) l)
             = option_map (group_of py_repr recs)
                 (find (fun k' => dict_key_eqb k' k) l)).
  { induction l as [|a l IH]; [reflexivity|]. cbn [map find].
    pose proof (group_of_key py_repr recs a) as Ha.
    destruct (group_of py_repr recs a) as [[s0 k0] g0] eqn:Eg.
    cbn in Ha. subst k0.
    destruct (dict_key_eqb a k); [cbn; rewrite Eg; reflexivity | exact IH]. }
  rewrite Hmap, find_key.
  destruct (existsb (fun k' => dict_key_eqb k' k)
              (first_seen (map entry_key recs))) eqn:E.
  - apply existsb_key_In, first_seen_In, members_of_key_In in E.
    cbn [option_map]. unfold group_of.
    destruct (members_of k recs); [contradiction|reflexivity].
  - destruct (members_of k recs) eqn:Em; [reflexivity|].
    assert (Hin : In k (first_seen (map entry_key recs))).
    { apply first_seen_In, members_of_key_In. rewrite Em. discriminate. }
    apply existsb_key_In in Hin. congruence.
Qed.

Lemma sid_of_not_str (r : entry) (sid : string) :
  sid <> ""%string -> (forall s, section_id r <> JStr s) ->
  sid_of r <> JStr sid.
Proof.
  intros Hs Hn. unfold sid_of, py_or.
  destruct (truthy (section_id r)); [apply Hn|].
  intro H. injection H as H. congruence.
Qed.

Section RouteFacts.

Variable json_loads : string -> result json.
Variable html_unescape : string -> string.
Variable requests : bool.
Variable docx : bool.
Variable load_image : bytes -> result unit.
Variable requests_get : string -> Z -> result response.
Variable INPUT_FILE : option string.
Variable os_path_exists : string -> bool.
Variable open_read : string -> result string.
Variable BeautifulSoup : string -> soup.
Variable int_max_str_digits : nat.
Variable py_repr : json -> string.
Variable urljoin : string -> string -> string.
Variable urlparse : string -> parse_result.
Variable exn_str : exn -> string.
Variable render_section : section_group -> string -> list entry -> string.
Variable render_base : string -> string -> string.

Local Abbreviation fetch :=
  (fetch_raw_json json_loads html_unescape requests requests_get INPUT_FILE
     os_path_exists open_read).

Local Abbreviation normalise :=
  (process_data BeautifulSoup int_max_str_digits py_repr).

Local Abbreviation blocks series :=
  (flat_map (entry_blocks requests requests_get urljoin
               (Some (export_base urlparse series)))).

Local Abbreviation write series recs :=
  (create_docx requests docx load_image requests_get urljoin recs
     (Some (export_base urlparse series))).

Local Abbreviation full :=
  (download_full json_loads html_unescape requests docx load_image
     requests_get INPUT_FILE os_path_exists open_read BeautifulSoup
     int_max_str_digits py_repr urljoin urlparse exn_str).

Local Abbreviation part :=
  (download_section json_loads html_unescape requests docx load_image
     requests_get INPUT_FILE os_path_exists open_read BeautifulSoup
     int_max_str_digits py_repr urljoin urlparse exn_str).

Local Abbreviation view :=
  (view_section json_loads html_unescape requests requests_get INPUT_FILE
     os_path_exists open_read BeautifulSoup int_max_str_digits py_repr
     exn_str render_section render_base).

(** The two download routes, once past the language and writer checks. *)
Lemma download_full_known series lang :
  (lang =? "en")%string || (lang =? "hi")%string = true ->
  docx = true ->
  full series lang
  = match fetch (Some series) with
    | inl e => Ok (Plain ("Error: " ++ exn_str e) 500)
    | inr raw =>
        match normalise raw lang with
        | inl e => inl e
        | inr recs =>
            if nonempty (exported lang recs)
            then
              match write series (exported lang recs) with
              | inl e => inl e
              | inr doc =>
                  Ok (Attachment doc
                        ("series_" ++ series ++ "_full_" ++ lang ++ ".docx")
                        DOCX_MIMETYPE)
              end
            else Ok (Plain
                       "No questions found for this test in the selected language."
                       404)
        end
    end.
Proof.
  intros Hl Hd. unfold download_full. rewrite Hl, Hd. cbn [negb].
  destruct (fetch (Some series)) as [e|raw]; [reflexivity|].
  destruct (normalise raw lang) as [e|recs]; [reflexivity|]. cbn [bind].
  change (if (lang =? "hi")%string
          then filter (fun e => negb (question_text e =? "")%string
                                || nonempty (question_images e)) recs
          else recs) with (exported lang recs).
  destruct (nonempty (exported lang recs)); [|reflexivity]. cbn [negb].
  fold (export_base urlparse series).
  destruct (create_docx _ _ _ _ _ _ _); reflexivity.
Qed.

Lemma download_section_known series sid lang :
  (lang =? "en")%string || (lang =? "hi")%string = true ->
  docx = true ->
  part series sid lang
  = match fetch (Some series) with
    | inl e => Ok (Plain ("Error: " ++ exn_str e) 500)
    | inr raw =>
        match normalise raw lang with
        | inl e => inl e
        | inr recs =>
            if nonempty (filter (in_section py_repr sid) (exported lang recs))
            then
              match write series
                      (filter (in_section py_repr sid) (exported lang recs))
              with
              | inl e => inl e
              | inr doc =>
                  Ok (Attachment doc
                        ("series_" ++ series ++ "_section_" ++ sid ++ "_"
                           ++ lang ++ ".docx")
                        DOCX_MIMETYPE)
              end
            else Ok (Plain "No questions found for this section" 404)
        end
    end.
Proof.
  intros Hl Hd. unfold download_section. rewrite Hl, Hd. cbn [negb].
  destruct (fetch (Some series)) as [e|raw]; [reflexivity|].
  destruct (normalise raw lang) as [e|recs]; [reflexivity|]. cbn [bind].
  change (if (lang =? "hi")%string
          then filter (fun e => negb (question_text e =? "")%string
                                || nonempty (question_images e)) recs
          else recs) with (exported lang recs).
  change (filter (fun e => (py_str py_repr (section_id e) =? sid)%string)
            (exported lang recs))
    with (filter (in_section py_repr sid) (exported lang recs)).
  destruct (nonempty (filter (in_section py_repr sid) (exported lang recs)));
    [|reflexivity].
  cbn [negb]. fold (export_base urlparse series).
  destruct (create_docx _ _ _ _ _ _ _); reflexivity.
Qed.

Lemma download_full_unknown series lang :
  (lang =? "en")%string || (lang =? "hi")%string = false ->
  full series lang = Ok (Plain "Invalid language" 400).
Proof. intro H. unfold download_full. rewrite H. reflexivity. Qed.

Lemma download_full_no_writer series lang :
  (lang =? "en")%string || (lang =? "hi")%string = true ->
  docx = false ->
  full series lang = Ok (Plain "python-docx not installed" 500).
Proof. intros H Hd. unfold download_full. rewrite H, Hd. reflexivity. Qed.

Lemma download_section_unknown series sid lang :
  (lang =? "en")%string || (lang =? "hi")%string = false ->
  part series sid lang = Ok (Plain "Invalid language" 400).
Proof. intro H. unfold download_section. rewrite H. reflexivity. Qed.

Lemma download_section_no_writer series sid lang :
  (lang =? "en")%string || (lang =? "hi")%string = true ->
  docx = false ->
  part series sid lang = Ok (Plain "python-docx not installed" 500).
Proof. intros H Hd. unfold download_section. rewrite H, Hd. reflexivity. Qed.

Ltac break_all :=
  repeat match goal with
         | H : exists _, _ |- _ => destruct H
         | H : _ /\ _ |- _ => destruct H
         | H : _ \/ _ |- _ => destruct H
         end.

Ltac fin :=
  match goal with
  | |- _ /\ _ => split; fin
  | |- exists _, _ => eexists; fin
  | |- _ \/ _ => first [left; solve [fin] | right; solve [fin]]
  | |- _ => first [reflexivity | eassumption | tauto]
  end.

(** The answers of [download_full], case by case. *)
Lemma download_full_cases series lang :
  (lang <> "en"%string /\ lang <> "hi"%string
   /\ full series lang = Ok (Plain "Invalid language" 400))
  \/ ((lang = "en"%string \/ lang = "hi"%string) /\ docx = false
      /\ full series lang = Ok (Plain "python-docx not installed" 500))
  \/ ((lang = "en"%string \/ lang = "hi"%string) /\ docx = true
      /\ exists e,
           fetch (Some series) = inl e
           /\ full series lang = Ok (Plain ("Error: " ++ exn_str e) 500))
  \/ ((lang = "en"%string \/ lang = "hi"%string) /\ docx = true
      /\ exists raw e,
           fetch (Some series) = Ok raw
           /\ normalise raw lang = inl e
           /\ full series lang = inl e)
  \/ ((lang = "en"%string \/ lang = "hi"%string) /\ docx = true
      /\ exists raw recs,
           fetch (Some series) = Ok raw
           /\ normalise raw lang = Ok recs
           /\ exported lang recs = []
           /\ full series lang
              = Ok (Plain
                      "No questions found for this test in the selected language."
                      404))
  \/ ((lang = "en"%string \/ lang = "hi"%string) /\ docx = true
      /\ exists raw recs e,
           fetch (Some series) = Ok raw
           /\ normalise raw lang = Ok recs
           /\ exported lang recs <> []
           /\ write series (exported lang recs) = inl e
           /\ full series lang = inl e)
  \/ ((lang = "en"%string \/ lang = "hi"%string) /\ docx = true
      /\ exists raw recs doc,
           fetch (Some series) = Ok raw
           /\ normalise raw lang = Ok recs
           /\ exported lang recs <> []
           /\ write series (exported lang recs) = Ok doc
           /\ full series lang
              = Ok (Attachment doc
                      ("series_" ++ series ++ "_full_" ++ lang ++ ".docx")
                      DOCX_MIMETYPE)).
Proof.
  destruct ((lang =? "en")%string || (lang =? "hi")%string) eqn:Hl.
  - pose proof (proj1 (lang_known lang) Hl) as Hk. right.
    assert (Hd : docx = true \/ docx = false) by (destruct docx; auto).
    destruct Hd as [Hd|Hd].
    + right. rewrite (download_full_known series lang Hl Hd).
      destruct (fetch (Some series)) as [e|raw] eqn:Hf.
      { left. split; [exact Hk|]. split; [exact Hd|]. exists e.
        split; reflexivity. }
      right. destruct (normalise raw lang) as [e|recs] eqn:Hp.
      { left. split; [exact Hk|]. split; [exact Hd|]. exists raw, e.
        repeat split; assumption. }
      right. destruct (nonempty (exported lang recs)) eqn:Hne.
      * right. apply nonempty_true in Hne.
        destruct (write series (exported lang recs)) as [e|doc] eqn:Hw.
        -- left. split; [exact Hk|]. split; [exact Hd|].
           exists raw, recs, e. repeat split; assumption.
        -- right. split; [exact Hk|]. split; [exact Hd|].
           exists raw, recs, doc. repeat split; assumption.
      * left. apply nonempty_false in Hne.
        split; [exact Hk|]. split; [exact Hd|]. exists raw, recs.
        repeat split; assumption.
    + left. split; [exact Hk|]. split; [exact Hd|].
      exact (download_full_no_writer series lang Hl Hd).
  - pose proof (proj1 (lang_unknown lang) Hl) as [Hn1 Hn2]. left.
    split; [exact Hn1|]. split; [exact Hn2|].
    exact (download_full_unknown series lang Hl).
Qed.

(** X14: what each answer of [download_full] means.  Status 400 is
    exactly an unknown language, whatever else holds; status 500 is
    exactly a missing writer or a failed fetch; status 404 is exactly a
    payload that fetched and normalised and left no record to export; a
    file is sent exactly when records remain and [create_docx] returns
    their document, which is built against the origin of the question
    API and named after the series and the language.  The route returns
    no other status and no page. *)
Theorem download_full_responses series lang :
  (forall body,
      full series lang = Ok (Plain body 400)
      <-> lang <> "en"%string /\ lang <> "hi"%string
          /\ body = "Invalid language"%string)
  /\ (forall body,
        full series lang = Ok (Plain body 500)
        <-> (lang = "en"%string \/ lang = "hi"%string)
            /\ ((docx = false /\ body = "python-docx not installed"%string)
                \/ (docx = true
                    /\ exists e,
                         fetch (Some series) = inl e
                         /\ body = ("Error: " ++ exn_str e)%string)))
  /\ (forall body,
        full series lang = Ok (Plain body 404)
        <-> (lang = "en"%string \/ lang = "hi"%string) /\ docx = true
            /\ body
               = "No questions found for this test in the selected language."%string
            /\ exists raw recs,
                 fetch (Some series) = Ok raw
                 /\ normalise raw lang = Ok recs
                 /\ exported lang recs = [])
  /\ (forall doc fname mime,
        full series lang = Ok (Attachment doc fname mime)
        <-> (lang = "en"%string \/ lang = "hi"%string) /\ docx = true
            /\ fname
               = ("series_" ++ series ++ "_full_" ++ lang ++ ".docx")%string
            /\ mime = DOCX_MIMETYPE
            /\ exists raw recs,
                 fetch (Some series) = Ok raw
                 /\ normalise raw lang = Ok recs
                 /\ exported lang recs <> []
                 /\ write series (exported lang recs) = Ok doc)
  /\ (forall body status,
        full series lang = Ok (Plain body status) ->
        status = 400 \/ status = 404 \/ status = 500)
  /\ (forall html, full series lang <> Ok (Page html)).
Proof.
  destruct (download_full_cases series lang) as [C|[C|[C|[C|[C|[C|C]]]]]];
    break_all;
    match goal with Hf : full _ _ = _ |- _ => rewrite Hf; clear Hf end;
    repeat apply conj; intros; try (split; intro); break_all;
    unfold Ok in *; try discriminate; try congruence;
    repeat match goal with
           | H : inr _ = inr _ |- _ => injection H as H
           | H : Plain _ _ = Plain _ _ |- _ => injection H as H
           | H : Attachment _ _ _ = Attachment _ _ _ |- _ => injection H as H
           end;
    subst; try solve [fin].
Qed.

(** The answers of [download_section], case by case. *)
Lemma download_section_cases series sid lang :
  (lang <> "en"%string /\ lang <> "hi"%string
   /\ part series sid lang = Ok (Plain "Invalid language" 400))
  \/ ((lang = "en"%string \/ lang = "hi"%string) /\ docx = false
      /\ part series sid lang = Ok (Plain "python-docx not installed" 500))
  \/ ((lang = "en"%string \/ lang = "hi"%string) /\ docx = true
      /\ exists e,
           fetch (Some series) = inl e
           /\ part series sid lang
              = Ok (Plain ("Error: " ++ exn_str e) 500))
  \/ ((lang = "en"%string \/ lang = "hi"%string) /\ docx = true
      /\ exists raw e,
           fetch (Some series) = Ok raw
           /\ normalise raw lang = inl e
           /\ part series sid lang = inl e)
  \/ ((lang = "en"%string \/ lang = "hi"%string) /\ docx = true
      /\ exists raw recs,
           fetch (Some series) = Ok raw
           /\ normalise raw lang = Ok recs
           /\ filter (in_section py_repr sid) (exported lang recs) = []
           /\ part series sid lang
              = Ok (Plain "No questions found for this section" 404))
  \/ ((lang = "en"%string \/ lang = "hi"%string) /\ docx = true
      /\ exists raw recs e,
           fetch (Some series) = Ok raw
           /\ normalise raw lang = Ok recs
           /\ filter (in_section py_repr sid) (exported lang recs) <> []
           /\ write series
                (filter (in_section py_repr sid) (exported lang recs))
              = inl e
           /\ part series sid lang = inl e)
  \/ ((lang = "en"%string \/ lang = "hi"%string) /\ docx = true
      /\ exists raw recs doc,
           fetch (Some series) = Ok raw
           /\ normalise raw lang = Ok recs
           /\ filter (in_section py_repr sid) (exported lang recs) <> []
           /\ write series
                (filter (in_section py_repr sid) (exported lang recs))
              = Ok doc
           /\ part series sid lang
              = Ok (Attachment doc
                      ("series_" ++ series ++ "_section_" ++ sid ++ "_"
                         ++ lang ++ ".docx")
                      DOCX_MIMETYPE)).
Proof.
  destruct ((lang =? "en")%string || (lang =? "hi")%string) eqn:Hl.
  - pose proof (proj1 (lang_known lang) Hl) as Hk. right.
    assert (Hd : docx = true \/ docx = false) by (destruct docx; auto).
    destruct Hd as [Hd|Hd].
    + right. rewrite (download_section_known series sid lang Hl Hd).
      destruct (fetch (Some series)) as [e|raw] eqn:Hf.
      { left. split; [exact Hk|]. split; [exact Hd|]. exists e.
        split; reflexivity. }
      right. destruct (normalise raw lang) as [e|recs] eqn:Hp.
      { left. split; [exact Hk|]. split; [exact Hd|]. exists raw, e.
        repeat split; assumption. }
      right.
      destruct (nonempty (filter (in_section py_repr sid)
                            (exported lang recs))) eqn:Hne.
      * right. apply nonempty_true in Hne.
        destruct (write series
                    (filter (in_section py_repr sid) (exported lang recs)))
          as [e|doc] eqn:Hw.
        -- left. split; [exact Hk|]. split; [exact Hd|].
           exists raw, recs, e. repeat split; assumption.
        -- right. split; [exact Hk|]. split; [exact Hd|].
           exists raw, recs, doc. repeat split; assumption.
      * left. apply nonempty_false in Hne.
        split; [exact Hk|]. split; [exact Hd|]. exists raw, recs.
        repeat split; assumption.
    + left. split; [exact Hk|]. split; [exact Hd|].
      exact (download_section_no_writer series sid lang Hl Hd).
  - pose proof (proj1 (lang_unknown lang) Hl) as [Hn1 Hn2]. left.
    split; [exact Hn1|]. split; [exact Hn2|].
    exact (download_section_unknown series sid lang Hl).
Qed.

(** X15: the section export is a part of the full export.  The two
    routes answer 400 and 500 in the same cases with the same body.
    When [download_section] sends a file, that file is the document of
    those records of the full export whose section identifier prints as
    the requested one, in the same order; [download_full], for the same
    series and language, then either sends the document of the whole
    export, of which every text of the section file is a text, or raises
    what [create_docx] raises on the whole export. *)
Theorem download_section_within_full series sid lang :
  (forall body status,
      status <> 404 ->
      (part series sid lang = Ok (Plain body status)
       <-> full series lang = Ok (Plain body status)))
  /\ (forall doc fname mime,
        part series sid lang = Ok (Attachment doc fname mime) ->
        fname = ("series_" ++ series ++ "_section_" ++ sid ++ "_" ++ lang
                   ++ ".docx")%string
        /\ mime = DOCX_MIMETYPE
        /\ exists raw recs,
             fetch (Some series) = Ok raw
             /\ normalise raw lang = Ok recs
             /\ filter (in_section py_repr sid) (exported lang recs) <> []
             /\ doc = blocks series
                        (filter (in_section py_repr sid) (exported lang recs))
             /\ doc_texts doc
                = flat_map entry_texts
                    (filter (in_section py_repr sid) (exported lang recs))
             /\ (forall whole,
                   write series (exported lang recs) = Ok whole ->
                   full series lang
                   = Ok (Attachment whole
                           ("series_" ++ series ++ "_full_" ++ lang
                              ++ ".docx")
                           DOCX_MIMETYPE)
                   /\ (page_breaks doc <= page_breaks whole)%nat
                   /\ Forall (fun t => In t (doc_texts whole))
                        (doc_texts doc))
             /\ (forall e,
                   write series (exported lang recs) = inl e ->
                   full series lang = inl e)).
Proof.
  split.
  - intros body status Hs.
    destruct (download_full_cases series lang)
      as [C|[C|[C|[C|[C|[C|C]]]]]];
      destruct (download_section_cases series sid lang)
        as [D|[D|[D|[D|[D|[D|D]]]]]];
      break_all;
      repeat match goal with
             | Hf : full _ _ = _ |- _ => rewrite Hf; clear Hf
             | Hf : part _ _ _ = _ |- _ => rewrite Hf; clear Hf
             end;
      unfold Ok in *; try congruence;
      split; intro Hx; try discriminate Hx; try congruence.
  - intros doc fname mime H.
    destruct (download_section_cases series sid lang)
      as [(_ & _ & D) | [(_ & _ & D) | [(_ & _ & e & _ & D)
         | [(_ & _ & raw & e & _ & _ & D)
           | [(_ & _ & raw & recs & _ & _ & _ & D)
             | [(_ & _ & raw & recs & e & _ & _ & _ & _ & D)
               | (Hk & Hd & raw0 & recs0 & d0 & Hfetch & Hnorm & Hne
                  & Hwrite & D)]]]]]];
      rewrite D in H; try discriminate H.
    injection H as <- <- <-.
    split; [reflexivity|]. split; [reflexivity|].
    exists raw0, recs0. split; [exact Hfetch|]. split; [exact Hnorm|].
    split; [exact Hne|].
    pose proof Hwrite as Hw'. rewrite Hd in Hw'.
    apply create_docx_returned in Hw' as [_ ->].
    split; [reflexivity|]. split; [apply blocks_texts|].
    assert (Hex : exported lang recs0 <> []).
    { intro He. apply Hne. rewrite He. reflexivity. }
    split.
    + intros whole Hwhole.
      assert (Hfull : full series lang
                      = Ok (Attachment whole
                              ("series_" ++ series ++ "_full_" ++ lang
                                 ++ ".docx")
                              DOCX_MIMETYPE)).
      { destruct (download_full_cases series lang)
          as [C|[C|[C|[C|[C|[C|C]]]]]];
          break_all; unfold Ok in *; congruence. }
      split; [exact Hfull|].
      rewrite Hd in Hwhole. apply create_docx_returned in Hwhole as [_ ->].
      split.
      * rewrite (proj2 (blocks_shape _ _ _ _ _)),
          (proj2 (blocks_shape _ _ _ _ _)).
        apply filter_length_le.
      * rewrite !blocks_texts. apply Forall_forall. intros t Ht.
        apply in_flat_map in Ht as (r & Hr & Ht).
        apply in_flat_map. exists r. split; [|exact Ht].
        apply filter_In in Hr. apply Hr.
    + intros e Hwhole.
      destruct (download_full_cases series lang)
        as [C|[C|[C|[C|[C|[C|C]]]]]];
        break_all; unfold Ok in *; congruence.
Qed.

(** The answers of [view_section], case by case. *)
Lemma view_section_cases series sid :
  (exists e,
      fetch (Some series) = inl e
      /\ view series sid = Ok (Plain ("Error: " ++ exn_str e) 500))
  \/ (exists raw e,
        fetch (Some series) = Ok raw
        /\ normalise raw "en" = inl e
        /\ view series sid = inl e)
  \/ (exists raw recs e,
        fetch (Some series) = Ok raw
        /\ normalise raw "en" = Ok recs
        /\ group_by_section py_repr recs = inl e
        /\ view series sid = inl e)
  \/ (exists raw recs,
        fetch (Some series) = Ok raw
        /\ normalise raw "en" = Ok recs
        /\ group_by_section py_repr recs = Ok (grouped py_repr recs)
        /\ view series sid
           = match members_of (KStr sid) recs with
             | [] => Ok (Plain "Section not found" 404)
             | e0 :: _ =>
                 Ok (Page
                       (render_base
                          ("Section "
                             ++ py_str py_repr (sname_of py_repr e0))
                          (render_section
                             (SectionGroup (sname_of py_repr e0)
                                (members_of (KStr sid) recs))
                             series (members_of (KStr sid) recs))))
             end).
Proof.
  unfold view_section.
  destruct (fetch (Some series)) as [e|raw] eqn:Hf.
  { left. exists e. split; reflexivity. }
  right. destruct (normalise raw "en") as [e|recs] eqn:Hp.
  { left. exists raw, e. solve [fin]. }
  right. cbn [bind].
  destruct (group_by_section py_repr recs) as [e|groups] eqn:Hg.
  { left. exists raw, recs, e. solve [fin]. }
  right. exists raw, recs. split; [reflexivity|]. split; [exact Hp|].
  pose proof (group_loop_hashable _ _ _ _ Hg) as Hh.
  rewrite (group_by_section_grouped py_repr recs Hh) in Hg.
  injection Hg as <-. split; [apply group_by_section_grouped, Hh|].
  cbn [bind]. rewrite sections_get_grouped.
  destruct (members_of (KStr sid) recs); reflexivity.
Qed.


(** X17: [view_section] finds a section only under a string key.  On a
    payload that fetches, normalises and groups, it answers 404 exactly
    when no record's section identifier is the requested string, and
    otherwise renders the records of that section in payload order under
    the name of the first; a payload whose section identifiers are not
    strings gets 404 for every section requested. *)
Theorem view_section_string_keys series sid raw recs :
  fetch (Some series) = Ok raw ->
  normalise raw "en" = Ok recs ->
  Forall (fun r => hashable (sid_of r) = true) recs ->
  (view series sid = Ok (Plain "Section not found" 404)
   <-> Forall (fun r => sid_of r <> JStr sid) recs)
  /\ (forall e0 rest,
        members_of (KStr sid) recs = e0 :: rest ->
        view series sid
        = Ok (Page
                (render_base
                   ("Section " ++ py_str py_repr (sname_of py_repr e0))
                   (render_section
                      (SectionGroup (sname_of py_repr e0) (e0 :: rest))
                      series (e0 :: rest)))))
  /\ (sid <> ""%string ->
      Forall (fun r => forall s, section_id r <> JStr s) recs ->
      view series sid = Ok (Plain "Section not found" 404)).
Proof.
  intros Hf Hp Hh.
  assert (Hv : view series sid
               = match members_of (KStr sid) recs with
                 | [] => Ok (Plain "Section not found" 404)
                 | e0 :: _ =>
                     Ok (Page
                           (render_base
                              ("Section "
                                 ++ py_str py_repr (sname_of py_repr e0))
                              (render_section
                                 (SectionGroup (sname_of py_repr e0)
                                    (members_of (KStr sid) recs))
                                 series (members_of (KStr sid) recs))))
                 end).
  { pose proof (group_by_section_grouped py_repr recs Hh) as Hg.
    destruct (view_section_cases series sid)
      as [(e' & Hf' & _) | [(raw' & e' & Hf' & Hp' & _)
         | [(raw' & recs' & e' & Hf' & Hp' & Hg' & _)
           | (raw' & recs' & Hf' & Hp' & _ & Hv)]]];
      unfold Ok in *; try congruence.
    assert (recs' = recs) by congruence. subst recs'. exact Hv. }
  assert (Hnone : Forall (fun r => sid_of r <> JStr sid) recs ->
                  view series sid = Ok (Plain "Section not found" 404)).
  { intro H. apply members_of_str_nil in H. rewrite Hv, H. reflexivity. }
  split; [split|split].
  - intro H. apply members_of_str_nil. rewrite Hv in H.
    destruct (members_of (KStr sid) recs); [reflexivity | discriminate H].
  - exact Hnone.
  - intros e0 rest Hm. rewrite Hv, Hm. reflexivity.
  - intros Hs Hn. apply Hnone. apply Forall_forall. intros r Hr.
    apply sid_of_not_str; [exact Hs|].
    exact (proj1 (Forall_forall _ _) Hn r Hr).
Qed.

(** X18: what a file sent by [download_full] holds: the text blocks of
    every exported record in payload order and one page break per
    exported record, at least one.  The English export keeps every record
    of the payload; the Hindi export keeps exactly those with question
    text or a question image. *)
Theorem download_full_contents series lang doc fname mime :
  full series lang = Ok (Attachment doc fname mime) ->
  exists raw recs,
    fetch (Some series) = Ok raw
    /\ normalise raw lang = Ok recs
    /\ doc_texts doc = flat_map entry_texts (exported lang recs)
    /\ page_breaks doc = List.length (exported lang recs)
    /\ (1 <= page_breaks doc)%nat
    /\ (lang = "en"%string -> exported lang recs = recs)
    /\ (lang = "hi"%string ->
        forall r, In r (exported lang recs)
                  <-> In r recs
                      /\ (question_text r <> ""%string
                          \/ question_images r <> [])).
Proof.
  intro H.
  destruct (download_full_cases series lang)
    as [(_ & _ & C) | [(_ & _ & C) | [(_ & _ & e & _ & C)
       | [(_ & _ & raw & e & _ & _ & C)
         | [(_ & _ & raw & recs & _ & _ & _ & C)
           | [(_ & _ & raw & recs & e & _ & _ & _ & _ & C)
             | (Hk & Hd & raw & recs & d0 & Hf & Hp & Hne & Hw & C)]]]]]];
    rewrite C in H; try discriminate H.
  rewrite Hd in Hw. apply create_docx_returned in Hw as [_ ->].
  injection H as <- _ _. exists raw, recs.
  split; [exact Hf|]. split; [exact Hp|]. split; [apply blocks_texts|].
  rewrite (proj2 (blocks_shape _ _ _ _ _)).
  split; [reflexivity|]. split.
  - destruct (exported lang recs); [contradiction | cbn; lia].
  - split.
    + intros ->. reflexivity.
    + intros -> r. unfold exported. cbn [String.eqb Ascii.eqb Bool.eqb].
      rewrite filter_In. unfold has_question.
      rewrite orb_true_iff, negb_true_iff, String.eqb_neq, nonempty_true.
      reflexivity.
Qed.

End RouteFacts.

Lemma view_section_string_keys_witness :
  view_section toy_loads toy_unescape true toy_api None (fun _ => false)
    (fun _ => raise FileNotFoundError) toy_soup 0 toy_repr toy_exn_str
    toy_render_section toy_render_base "7" "1"
  = Ok (Plain "Section not found" 404)
  /\ exists doc,
       download_section toy_loads toy_unescape true true toy_load_image
         toy_api None
         (fun _ => false) (fun _ => raise FileNotFoundError) toy_soup 0
         toy_repr toy_urljoin toy_urlparse toy_exn_str "7" "1" "en"
       = Ok (Attachment doc "series_7_section_1_en.docx" DOCX_MIMETYPE).
Proof.
  split; [|eexists; reflexivity].
  apply (view_section_string_keys toy_loads toy_unescape true toy_api None
           (fun _ => false) (fun _ => raise FileNotFoundError) toy_soup 0
           toy_repr toy_exn_str toy_render_section toy_render_base
           "7" "1" sample_payload [sample_record]).
  - reflexivity.
  - reflexivity.
  - repeat constructor.
  - discriminate.
  - repeat constructor. discriminate.
Defined.

Lemma download_full_contents_witness :
  exists doc raw recs,
    download_full toy_loads toy_unescape true true toy_load_image toy_api
      None (fun _ => false) (fun _ => raise FileNotFoundError) toy_soup 0
      toy_repr toy_urljoin toy_urlparse toy_exn_str "7" "en"
    = Ok (Attachment doc "series_7_full_en.docx" DOCX_MIMETYPE)
    /\ fetch_raw_json toy_loads toy_unescape true toy_api None
         (fun _ => false) (fun _ => raise FileNotFoundError) (Some "7")
       = Ok raw
    /\ process_data toy_soup 0 toy_repr raw "en" = Ok recs
    /\ doc_texts doc = flat_map entry_texts (exported "en" recs)
    /\ page_breaks doc = 1%nat.
Proof.
  eexists.
  destruct (download_full_contents toy_loads toy_unescape true true
              toy_load_image toy_api
              None (fun _ => false) (fun _ => raise FileNotFoundError)
              toy_soup 0 toy_repr toy_urljoin toy_urlparse toy_exn_str
              "7" "en" _ _ _ eq_refl)
    as (raw & recs & Hf & Hp & Ht & Hb & _).
  exists raw, recs. split; [reflexivity|]. split; [exact Hf|].
  split; [exact Hp|]. split; [exact Ht|].
  rewrite Hb. injection Hf as <-. injection Hp as <-. reflexivity.
Defined.


(* ================================================================== *)
(** * The series page: looking a series up *)
(* ================================================================== *)

Local Open Scope Z_scope.
Local Open Scope string_scope.
Local Open Scope list_scope.

Section SeriesFacts.

Variable py_repr : json -> string.

Lemma first_series_skip s rest series_id :
  other_series py_repr series_id s ->
  first_series py_repr (s :: rest) series_id
  = first_series py_repr rest series_id.
Proof.
  intros (m & -> & Hne). cbn [first_series get get_or bind Ok].
  apply String.eqb_neq in Hne. rewrite Hne. reflexivity.
Qed.

Lemma first_series_hit s rest series_id :
  series_called py_repr series_id s ->
  first_series py_repr (s :: rest) series_id = Ok (Some s).
Proof.
  intros (m & -> & He). cbn [first_series get get_or bind Ok].
  apply String.eqb_eq in He. rewrite He. reflexivity.
Qed.

Lemma dict_series s series_id :
  is_dict s = true ->
  series_called py_repr series_id s \/ other_series py_repr series_id s.
Proof.
  destruct s as [| | | | | |m]; try discriminate. intros _.
  destruct (String.eqb_spec
              (py_str py_repr (match lookup m "series_id" with
                               | Some v => v
                               | None => JNull
                               end)) series_id) as [He|Hne].
  - left. exists m. split; [reflexivity | exact He].
  - right. exists m. split; [reflexivity | exact Hne].
Qed.

(** X19: the series lookup stops at the first match.  A dict whose
    series identifier prints as the requested one is found as soon as
    every entry before it is a dict with another identifier, whatever
    follows it; nothing is found exactly when every entry is a dict with
    another identifier; and the lookup raises exactly when an entry that
    is not a dict comes before any match, with [AttributeError]. *)
Theorem first_series_stops_at_match series_list series_id :
  (forall pre s post,
      series_list = pre ++ s :: post ->
      Forall (other_series py_repr series_id) pre ->
      series_called py_repr series_id s ->
      first_series py_repr series_list series_id = Ok (Some s))
  /\ (first_series py_repr series_list series_id = Ok None
      <-> Forall (other_series py_repr series_id) series_list)
  /\ (forall e,
        first_series py_repr series_list series_id = inl e
        <-> e = Exn AttributeError []
            /\ exists pre s post,
                 series_list = pre ++ s :: post
                 /\ Forall (other_series py_repr series_id) pre
                 /\ is_dict s = false).
Proof.
  split; [|split].
  - intros pre s post -> Hpre Hs.
    induction Hpre as [|x pre Hx _ IH]; cbn [app].
    + apply first_series_hit, Hs.
    + rewrite (first_series_skip _ _ _ Hx). exact IH.
  - induction series_list as [|x l IH].
    + split; [constructor | reflexivity].
    + destruct (is_dict x) eqn:Hd.
      * destruct (dict_series x series_id Hd) as [Hs|Ho].
        -- rewrite (first_series_hit _ l _ Hs). split; [discriminate|].
           intro H. apply Forall_inv in H.
           destruct Hs as (m & -> & He), H as (m' & Hm & Hne).
           injection Hm as <-. contradiction.
        -- rewrite (first_series_skip _ l _ Ho), IH. split.
           ++ intro H. constructor; assumption.
           ++ intro H. exact (Forall_inv_tail H).
      * split.
        -- destruct x; try discriminate Hd; discriminate.
        -- intro H. apply Forall_inv in H. destruct H as (m & -> & _).
           discriminate Hd.
  - intro e. induction series_list as [|x l IH].
    + split; [discriminate|]. intros (_ & pre & s & post & H & _).
      destruct pre; discriminate H.
    + destruct (is_dict x) eqn:Hd.
      * destruct (dict_series x series_id Hd) as [Hs|Ho].
        -- rewrite (first_series_hit _ l _ Hs). split; [discriminate|].
           intros (_ & pre & s & post & H & Hpre & Hnd).
           destruct pre as [|p pre]; cbn [app] in H; injection H as <- _.
           ++ congruence.
           ++ apply Forall_inv in Hpre.
              destruct Hs as (m & -> & He), Hpre as (m' & Hm & Hne).
              injection Hm as <-. contradiction.
        -- rewrite (first_series_skip _ l _ Ho), IH. split.
           ++ intros (-> & pre & s & post & -> & Hpre & Hnd).
              split; [reflexivity|]. exists (x :: pre), s, post.
              split; [reflexivity|]. split; [|exact Hnd].
              constructor; assumption.
           ++ intros (-> & pre & s & post & H & Hpre & Hnd).
              split; [reflexivity|].
              destruct pre as [|p pre]; cbn [app] in H; injection H as <- ->.
              ** congruence.
              ** exists pre, s, post. split; [reflexivity|].
                 split; [exact (Forall_inv_tail Hpre) | exact Hnd].
      * assert (Hx : first_series py_repr (x :: l) series_id
                     = raise AttributeError)
          by (destruct x; try discriminate Hd; reflexivity).
        rewrite Hx. split.
        -- intro H. injection H as <-. split; [reflexivity|].
           exists [], x, l. split; [reflexivity|]. split; [constructor|].
           exact Hd.
        -- intros (-> & _). reflexivity.
Qed.

Lemma first_series_found l series_id s :
  first_series py_repr l series_id = Ok (Some s) -> is_dict s = true.
Proof.
  induction l as [|x l IH]; cbn [first_series]; [discriminate|].
  destruct x; try discriminate. cbn [get get_or bind Ok].
  destruct (py_str py_repr _ =? series_id)%string; [|exact IH].
  intro H. injection H as <-. reflexivity.
Qed.

End SeriesFacts.

Section SeriesPageFacts.

Variable json_loads : string -> result json.
Variable html_unescape : string -> string.
Variable requests : bool.
Variable requests_get : string -> Z -> result response.
Variable INPUT_FILE : option string.
Variable os_path_exists : string -> bool.
Variable open_read : string -> result string.
Variable BeautifulSoup : string -> soup.
Variable int_max_str_digits : nat.
Variable py_repr : json -> string.
Variable exn_str : exn -> string.
Variable render_series : json -> sections_dict -> string.
Variable render_base : string -> string -> string.

(** X20: with the list of series in hand, [series_page] answers 404
    exactly when the lookup finds nothing or finds an empty dict,
    whatever the questions of the series are; a lookup that raises makes
    the page raise the same exception. *)
Theorem series_page_not_found series_id data series_list items :
  requests = true ->
  fetch_json_from_url json_loads html_unescape requests requests_get
    SERIES_API_URL = Ok data ->
  get_or data "data" (JArr []) = Ok series_list ->
  py_iter series_list = Ok items ->
  (series_page json_loads html_unescape requests requests_get INPUT_FILE
     os_path_exists open_read BeautifulSoup int_max_str_digits py_repr
     exn_str render_series render_base series_id
   = Ok (Plain "Series not found" 404)
   <-> first_series py_repr items series_id = Ok None
       \/ first_series py_repr items series_id = Ok (Some (JObj [])))
  /\ (forall e,
        first_series py_repr items series_id = inl e ->
        series_page json_loads html_unescape requests requests_get
          INPUT_FILE os_path_exists open_read BeautifulSoup
          int_max_str_digits py_repr exn_str render_series render_base
          series_id
        = inl e).
Proof.
  intros Hr Hf Hg Hi. unfold series_page. rewrite Hf, Hr. cbn [negb].
  unfold Ok in *. rewrite Hg. cbn [bind]. rewrite Hi. cbn [bind].
  destruct (first_series py_repr items series_id) as [e|[s|]] eqn:Hs;
    cbn [bind].
  - split.
    + split; [discriminate|]. intros [H|H]; discriminate H.
    + intros e' H. injection H as <-. reflexivity.
  - split; [|discriminate].
    pose proof (first_series_found py_repr _ _ _ Hs) as Hd.
    destruct s as [| | | | | |m]; try discriminate Hd.
    destruct m as [|kv m]; cbn [truthy negb].
    + split; [intros _; right; reflexivity | reflexivity].
    + split; [|intros [H|H]; discriminate H].
      destruct (fetch_raw_json _ _ _ _ _ _ _ _) as [e|raw];
        [discriminate|].
      destruct (process_data _ _ _ raw "en") as [e|recs]; cbn [bind];
        [discriminate|].
      destruct (group_by_section py_repr recs) as [e|groups]; cbn [bind];
        [discriminate|].
      cbn [get get_or bind]. discriminate.
  - split; [|discriminate].
    split; [intros _; left; reflexivity | reflexivity].
Qed.

End SeriesPageFacts.

Lemma first_series_stops_at_match_witness :
  first_series toy_repr sample_series "7"
  = Ok (Some (JObj [("series_id", JInt 7); ("series_name", JStr "Mock 7")])).
Proof.
  apply (proj1 (first_series_stops_at_match toy_repr sample_series "7")
           [JObj [("series_id", JInt 3); ("series_name", JStr "Mock 3")]]
           (JObj [("series_id", JInt 7); ("series_name", JStr "Mock 7")])
           [JStr "garbage"]).
  - reflexivity.
  - constructor; [|constructor]. eexists. split; [reflexivity|]. discriminate.
  - eexists. split; reflexivity.
Defined.

Lemma series_page_not_found_witness :
  series_page toy_loads toy_unescape true
    (fun _ _ => Ok (Response 200 [] ""
                      (Ok (JObj [("data", JArr sample_series)]))))
    None (fun _ => false) (fun _ => raise FileNotFoundError) toy_soup 0
    toy_repr toy_exn_str (fun _ _ => "") toy_render_base "9"
  = raise AttributeError.
Proof.
  apply (proj2 (series_page_not_found toy_loads toy_unescape true
                  (fun _ _ => Ok (Response 200 [] ""
                                    (Ok (JObj [("data", JArr sample_series)]))))
                  None (fun _ => false) (fun _ => raise FileNotFoundError)
                  toy_soup 0 toy_repr toy_exn_str (fun _ _ => "")
                  toy_render_base "9"
                  (JObj [("data", JArr sample_series)])
                  (JArr sample_series) sample_series
                  eq_refl eq_refl eq_refl eq_refl)).
  reflexivity.
Defined.
